(** * The QEMU Object Model (qom/object.c): type registry, class builder,
    instance lifecycle and dynamic casts.

    The C code works on a global hash table of heap-allocated [TypeImpl]
    descriptors, on lazily built class objects and on caller-owned instances.
    It is embedded here with explicit state passing: the heap of descriptors,
    the heap of class objects and the heap of instances are lists indexed by
    pointers, the type table is a finite map from names to descriptor
    pointers.  Fallible steps return a [result]: a failed [g_assert] or
    [abort()], undefined behaviour of the C code (a NULL dereference or an
    access outside an allocation), or exhaustion of the recursion fuel. *)

From stdpp Require Import gmap strings list pretty.
From Stdlib Require Import ZArith Ascii.
From Stdlib.Init Require Import Byte.

Local Open Scope Z_scope.

(** ** Results of fallible code *)

Inductive error :=
  | AssertFail   (* g_assert failed, or abort() was called *)
  | Undefined    (* NULL dereference or out-of-bounds access *)
  | OutOfFuel.   (* the recursion did not end within the fuel given *)

Inductive result (A : Type) :=
  | Ok (a : A)
  | Err (e : error).
Arguments Ok {A} a.
Arguments Err {A} e.

Definition bind {A B} (m : result A) (k : A → result B) : result B :=
  match m with
  | Ok a => k a
  | Err e => Err e
  end.

Notation "'do' x <- m ; k" := (bind m (fun x => k))
  (at level 10, x pattern, m at level 100, k at level 200).

(** A pointer that must not be NULL when it is dereferenced. *)
Definition nonnull {A} (o : option A) : result A :=
  match o with
  | Some a => Ok a
  | None => Err Undefined
  end.

Definition g_assert (b : bool) : result unit :=
  if b then Ok tt else Err AssertFail.

(** ** Data model *)

(** Pointers are indices into the heaps of the state; a function pointer
    is known by its identity. *)
Abbreviation tptr := nat (only parsing).   (* TypeImpl *  *)
Abbreviation cptr := nat (only parsing).   (* ObjectClass * *)
Abbreviation optr := nat (only parsing).   (* Object * *)
Abbreviation hook := nat (only parsing).

Definition MAX_INTERFACES : nat := 32.

(** Modelled from the spec: qemu/object.h is not among the sources.  The
    class header holds one descriptor reference, the instance header a class
    reference and the interface list, the trampoline adds the back-pointer
    [obj], and an interface class is a bare class header; pointers are eight
    bytes wide (LP64). *)
Definition sizeof_ObjectClass : Z := 8.
Definition sizeof_Object : Z := 16.
Definition sizeof_Interface : Z := 24.
Definition sizeof_InterfaceClass : Z := 8.

(** Modelled from the spec: the name of the distinguished root of all
    interface types, TYPE_INTERFACE in the absent header. *)
Definition TYPE_INTERFACE : string := "interface".

(** size_t arithmetic wraps modulo 2^64. *)
Definition size_t_sub (a b : Z) : Z := (a - b) mod 2 ^ 64.

Definition INT_MAX : Z := 2147483647.

(** An entry of the NULL-terminated [interfaces] array of a [TypeInfo]; the
    terminator (an entry whose [type] is NULL) is left implicit. *)
Record InterfaceInfo := {
  ii_type : string;
  ii_interface_initfn : option hook;
}.

Record TypeInfo := {
  info_name : option string;
  info_parent : option string;
  info_instance_size : Z;
  info_class_size : Z;
  info_base_init : option hook;
  info_base_finalize : option hook;
  info_class_init : option hook;
  info_class_finalize : option hook;
  info_class_data : Z;
  info_instance_init : option hook;
  info_instance_finalize : option hook;
  info_abstract : bool;
  info_interfaces : option (list InterfaceInfo);
}.

Record InterfaceImpl := {
  if_parent : option string;
  if_interface_initfn : option hook;
  if_type : option tptr;
}.

Record TypeImpl := {
  ti_name : string;
  ti_class_size : Z;
  ti_instance_size : Z;
  ti_base_init : option hook;
  ti_base_finalize : option hook;
  ti_class_init : option hook;
  ti_class_finalize : option hook;
  ti_class_data : Z;
  ti_instance_init : option hook;
  ti_instance_finalize : option hook;
  ti_abstract : bool;
  ti_parent : option string;
  ti_class : option cptr;
  ti_num_interfaces : nat;
  ti_interfaces : list InterfaceImpl;   (* the array of MAX_INTERFACES entries *)
}.

(** A class object: the header and the bytes that follow it, offsets
    [sizeof_ObjectClass ..] of the allocation. *)
Record ObjectClass := {
  oc_type : tptr;
  oc_tail : list byte;
}.

(** An instance.  [o_size] is the size of its allocation; the fields
    [interfaces] and [obj] (of [struct Interface]) exist only when the
    allocation reaches them. *)
Record Object := {
  o_size : Z;
  o_class : option cptr;
  o_interfaces : list optr;
  o_obj : option optr;
}.

(** What the type system does to the outside: the hooks it calls, with
    their arguments, and, as ghost events that the C code does not record,
    the descriptors it enters into the type table and the trampolines it
    puts on the interface list of an instance. *)
Inductive event :=
  | EvBaseInit (h : hook) (klass : option cptr)
  | EvClassInit (h : hook) (klass : option cptr) (data : Z)
  | EvInstanceInit (h : hook) (obj : optr)
  | EvInstanceFinalize (h : hook) (obj : optr)
  | EvRegistered (t : tptr)
  | EvInterfaceAdded (obj iface : optr).

Record state := {
  st_types : list TypeImpl;
  st_type_table : gmap string tptr;
  st_count : Z;                       (* static int count of type_register_anonymous *)
  st_classes : list ObjectClass;
  st_objects : list (option Object);  (* None: freed *)
  st_trace : list event;
}.

Definition initial_state : state :=
  {| st_types := []; st_type_table := ∅; st_count := 0;
     st_classes := []; st_objects := []; st_trace := [] |}.

(** *** State updates *)

Definition set_types (f : list TypeImpl → list TypeImpl) (s : state) : state :=
  {| st_types := f (st_types s); st_type_table := st_type_table s;
     st_count := st_count s; st_classes := st_classes s;
     st_objects := st_objects s; st_trace := st_trace s |}.

Definition set_type_table (f : gmap string tptr → gmap string tptr) (s : state) : state :=
  {| st_types := st_types s; st_type_table := f (st_type_table s);
     st_count := st_count s; st_classes := st_classes s;
     st_objects := st_objects s; st_trace := st_trace s |}.

Definition set_count (n : Z) (s : state) : state :=
  {| st_types := st_types s; st_type_table := st_type_table s;
     st_count := n; st_classes := st_classes s;
     st_objects := st_objects s; st_trace := st_trace s |}.

Definition set_classes (f : list ObjectClass → list ObjectClass) (s : state) : state :=
  {| st_types := st_types s; st_type_table := st_type_table s;
     st_count := st_count s; st_classes := f (st_classes s);
     st_objects := st_objects s; st_trace := st_trace s |}.

Definition set_objects (f : list (option Object) → list (option Object)) (s : state) : state :=
  {| st_types := st_types s; st_type_table := st_type_table s;
     st_count := st_count s; st_classes := st_classes s;
     st_objects := f (st_objects s); st_trace := st_trace s |}.

Definition log (e : event) (s : state) : state :=
  {| st_types := st_types s; st_type_table := st_type_table s;
     st_count := st_count s; st_classes := st_classes s;
     st_objects := st_objects s; st_trace := st_trace s ++ [e] |}.

Definition get_type (t : tptr) (s : state) : result TypeImpl :=
  nonnull (st_types s !! t).

Definition get_class (c : cptr) (s : state) : result ObjectClass :=
  nonnull (st_classes s !! c).

Definition get_object (o : optr) (s : state) : result Object :=
  nonnull (mjoin (st_objects s !! o)).

Definition upd_type (t : tptr) (f : TypeImpl → TypeImpl) (s : state) : state :=
  set_types (alter f t) s.

Definition upd_class (c : cptr) (f : ObjectClass → ObjectClass) (s : state) : state :=
  set_classes (alter f c) s.

Definition upd_object (o : optr) (f : Object → Object) (s : state) : state :=
  set_objects (alter (fmap f) o) s.

Definition with_class_size (n : Z) (ti : TypeImpl) : TypeImpl :=
  {| ti_name := ti_name ti; ti_class_size := n;
     ti_instance_size := ti_instance_size ti;
     ti_base_init := ti_base_init ti; ti_base_finalize := ti_base_finalize ti;
     ti_class_init := ti_class_init ti; ti_class_finalize := ti_class_finalize ti;
     ti_class_data := ti_class_data ti;
     ti_instance_init := ti_instance_init ti;
     ti_instance_finalize := ti_instance_finalize ti;
     ti_abstract := ti_abstract ti; ti_parent := ti_parent ti;
     ti_class := ti_class ti;
     ti_num_interfaces := ti_num_interfaces ti;
     ti_interfaces := ti_interfaces ti |}.

Definition with_class (c : option cptr) (ti : TypeImpl) : TypeImpl :=
  {| ti_name := ti_name ti; ti_class_size := ti_class_size ti;
     ti_instance_size := ti_instance_size ti;
     ti_base_init := ti_base_init ti; ti_base_finalize := ti_base_finalize ti;
     ti_class_init := ti_class_init ti; ti_class_finalize := ti_class_finalize ti;
     ti_class_data := ti_class_data ti;
     ti_instance_init := ti_instance_init ti;
     ti_instance_finalize := ti_instance_finalize ti;
     ti_abstract := ti_abstract ti; ti_parent := ti_parent ti;
     ti_class := c;
     ti_num_interfaces := ti_num_interfaces ti;
     ti_interfaces := ti_interfaces ti |}.

Definition with_interfaces (n : nat) (l : list InterfaceImpl) (ti : TypeImpl) : TypeImpl :=
  {| ti_name := ti_name ti; ti_class_size := ti_class_size ti;
     ti_instance_size := ti_instance_size ti;
     ti_base_init := ti_base_init ti; ti_base_finalize := ti_base_finalize ti;
     ti_class_init := ti_class_init ti; ti_class_finalize := ti_class_finalize ti;
     ti_class_data := ti_class_data ti;
     ti_instance_init := ti_instance_init ti;
     ti_instance_finalize := ti_instance_finalize ti;
     ti_abstract := ti_abstract ti; ti_parent := ti_parent ti;
     ti_class := ti_class ti;
     ti_num_interfaces := n;
     ti_interfaces := l |}.

Definition with_if_type (a : option tptr) (e : InterfaceImpl) : InterfaceImpl :=
  {| if_parent := if_parent e; if_interface_initfn := if_interface_initfn e;
     if_type := a |}.

Definition with_tail (l : list byte) (k : ObjectClass) : ObjectClass :=
  {| oc_type := oc_type k; oc_tail := l |}.

(** The zeroed entry that g_malloc0 leaves in every slot of the array. *)
Definition zero_interface : InterfaceImpl :=
  {| if_parent := None; if_interface_initfn := None; if_type := None |}.

(** A [for (i = from; i < from + n; i++)] loop over the state. *)
Fixpoint for_loop (n : nat) (i : nat) (body : nat → state → result state)
    (s : state) : result state :=
  match n with
  | O => Ok s
  | S n' => do s' <- body i s; for_loop n' (S i) body s'
  end.

(** ** Type registry *)

Definition type_table_add (t : tptr) (s : state) : result state :=
  do ti <- get_type t s;
  Ok (log (EvRegistered t) (set_type_table (insert (ti_name ti) t) s)).

Definition type_table_lookup (name : string) (s : state) : option tptr :=
  st_type_table s !! name.

(** The loop that copies the interface declarations of a [TypeInfo] into the
    array of the descriptor.  The C loop has no bound: entry [i] is written
    at [ti->interfaces[i]] whatever [i] is, which is outside the array (and
    outside the allocation of the descriptor) from [MAX_INTERFACES] on. *)
Fixpoint copy_interfaces (src : list InterfaceInfo) (i : nat) (ti : TypeImpl)
    : result TypeImpl :=
  match src with
  | [] => Ok ti
  | e :: rest =>
      if decide (i < MAX_INTERFACES)%nat then
        copy_interfaces rest (S i)
          (with_interfaces (S (ti_num_interfaces ti))
             (alter (fun slot =>
                       {| if_parent := Some (ii_type e);
                          if_interface_initfn := ii_interface_initfn e;
                          if_type := if_type slot |}) i (ti_interfaces ti))
             ti)
      else Err Undefined
  end.

Definition info_copy_interfaces (info : TypeInfo) (ti : TypeImpl) : result TypeImpl :=
  match info_interfaces info with
  | Some l => copy_interfaces l 0 ti
  | None => Ok ti
  end.

Definition type_register_static (info : TypeInfo) (s : state) : result (tptr * state) :=
  do _ <- g_assert (bool_decide (is_Some (info_name info)));
  do name <- nonnull (info_name info);
  let ti :=
    {| ti_name := name;
       ti_parent := info_parent info;
       ti_class_size := info_class_size info;
       ti_instance_size := info_instance_size info;
       ti_base_init := info_base_init info;
       ti_base_finalize := info_base_finalize info;
       ti_class_init := info_class_init info;
       ti_class_finalize := info_class_finalize info;
       ti_class_data := info_class_data info;
       ti_instance_init := info_instance_init info;
       ti_instance_finalize := info_instance_finalize info;
       ti_abstract := info_abstract info;
       ti_class := None;
       ti_num_interfaces := 0;
       ti_interfaces := replicate MAX_INTERFACES zero_interface |} in
  do ti <- info_copy_interfaces info ti;
  let t := length (st_types s) in
  do s <- type_table_add t (set_types (fun l => l ++ [ti]) s);
  Ok (t, s).

(** The name printed by [snprintf(buffer, sizeof(buffer), "<anonymous-%d>", n)];
    thirty-two bytes hold it for every [int]. *)
Definition anonymous_name (n : Z) : string :=
  "<anonymous-" +:+ pretty n +:+ ">".

Definition type_register_anonymous (info : TypeInfo) (s : state) : result (tptr * state) :=
  let n := st_count s in
  (* count++ on a signed int *)
  do _ <- (if decide (n < INT_MAX) then Ok tt else Err Undefined);
  let s := set_count (n + 1) s in
  let ti :=
    {| ti_name := anonymous_name n;
       ti_parent := info_parent info;
       ti_class_size := info_class_size info;
       ti_instance_size := info_instance_size info;
       ti_base_init := info_base_init info;
       ti_base_finalize := info_base_finalize info;
       ti_class_init := info_class_init info;
       ti_class_finalize := info_class_finalize info;
       ti_class_data := info_class_data info;
       ti_instance_init := info_instance_init info;
       ti_instance_finalize := info_instance_finalize info;
       ti_abstract := false;   (* left as g_malloc0 made it: never assigned *)
       ti_class := None;
       ti_num_interfaces := 0;
       ti_interfaces := replicate MAX_INTERFACES zero_interface |} in
  do ti <- info_copy_interfaces info ti;
  let t := length (st_types s) in
  do s <- type_table_add t (set_types (fun l => l ++ [ti]) s);
  Ok (t, s).

Definition type_get_by_name (name : option string) (s : state) : option tptr :=
  match name with
  | None => None
  | Some n => type_table_lookup n s
  end.

(** ** Class builder *)

Fixpoint type_class_base_init (fuel : nat) (base_ti : tptr) (typename : option string)
    (s : state) : result state :=
  match fuel with
  | O => Err OutOfFuel
  | S fuel =>
      match typename with
      | None => Ok s
      | Some _ =>
          do t <- nonnull (type_get_by_name typename s);
          do ti <- get_type t s;
          do s <- type_class_base_init fuel base_ti (ti_parent ti) s;
          do ti <- get_type t s;
          match ti_base_init ti with
          | Some h =>
              do base <- get_type base_ti s;
              Ok (log (EvBaseInit h (ti_class base)) s)
          | None => Ok s
          end
      end
  end.

Fixpoint type_class_get_size (fuel : nat) (t : tptr) (s : state) : result Z :=
  match fuel with
  | O => Err OutOfFuel
  | S fuel =>
      do ti <- get_type t s;
      if decide (ti_class_size ti ≠ 0) then Ok (ti_class_size ti)
      else
        match ti_parent ti with
        | Some _ =>
            do p <- nonnull (type_get_by_name (ti_parent ti) s);
            type_class_get_size fuel p s
        | None => Ok sizeof_ObjectClass
        end
  end.

(** [iface] of the C code is [&ti->interfaces[i]]. *)
Definition type_class_interface_init (t : tptr) (i : nat) (s : state) : result state :=
  do ti <- get_type t s;
  do iface <- nonnull (ti_interfaces ti !! i);
  let info :=
    {| info_name := None;
       info_instance_size := sizeof_Interface;
       info_parent := if_parent iface;
       info_class_size := sizeof_InterfaceClass;
       info_class_init := if_interface_initfn iface;
       info_abstract := true;
       info_base_init := None; info_base_finalize := None;
       info_class_finalize := None; info_class_data := 0;
       info_instance_init := None; info_instance_finalize := None;
       info_interfaces := None |} in
  do (a, s) <- type_register_anonymous info s;
  Ok (upd_type t (fun ti =>
        with_interfaces (ti_num_interfaces ti)
          (alter (with_if_type (Some a)) i (ti_interfaces ti)) ti) s).

(** [g_malloc0(size)] for a class object, followed by [class->type = t]. *)
Definition class_alloc (size : Z) (t : tptr) (s : state) : result (cptr * state) :=
  if decide (sizeof_ObjectClass ≤ size) then
    Ok (length (st_classes s),
        set_classes (fun l => l ++ [{| oc_type := t;
              oc_tail := replicate (Z.to_nat (size - sizeof_ObjectClass)) x00 |}]) s)
  else Err Undefined.

(** [memcpy(dst + sizeof(ObjectClass), src + sizeof(ObjectClass), n)] on the
    bytes after the headers of two class objects. *)
Definition memcpy_tail (dst src : list byte) (n : Z) : result (list byte) :=
  if decide (n ≤ Z.of_nat (length src) ∧ n ≤ Z.of_nat (length dst)) then
    Ok (take (Z.to_nat n) src ++ drop (Z.to_nat n) dst)
  else Err Undefined.

(** [memset(class + from, 0, n)], [from] an offset into the class object. *)
Definition memset_tail (dst : list byte) (from n : Z) : result (list byte) :=
  let off := from - sizeof_ObjectClass in
  if decide (0 ≤ off ∧ 0 ≤ n ∧ off + n ≤ Z.of_nat (length dst)) then
    Ok (take (Z.to_nat off) dst ++ replicate (Z.to_nat n) x00
        ++ drop (Z.to_nat (off + n)) dst)
  else Err Undefined.

Fixpoint type_class_init (fuel : nat) (t : tptr) (s : state) : result state :=
  match fuel with
  | O => Err OutOfFuel
  | S fuel =>
      do ti <- get_type t s;
      match ti_class ti with
      | Some _ => Ok s
      | None =>
          do size <- type_class_get_size fuel t s;
          let s := upd_type t (with_class_size size) s in
          do (c, s) <- class_alloc size t s;
          let s := upd_type t (with_class (Some c)) s in
          do (class_size, s) <-
            match ti_parent ti with
            | Some _ =>
                do p <- nonnull (type_get_by_name (ti_parent ti) s);
                do s <- type_class_init fuel p s;
                do ti_parent <- get_type p s;
                do ti <- get_type t s;
                do _ <- g_assert (bool_decide (ti_class_size ti_parent ≤ ti_class_size ti));
                do pc <- nonnull (ti_class ti_parent);
                do pk <- get_class pc s;
                do k <- get_class c s;
                do tail <- memcpy_tail (oc_tail k) (oc_tail pk)
                             (size_t_sub (ti_class_size ti_parent) sizeof_ObjectClass);
                Ok (ti_class_size ti_parent, upd_class c (with_tail tail) s)
            | None => Ok (sizeof_ObjectClass, s)
            end;
          do ti <- get_type t s;
          do k <- get_class c s;
          do tail <- memset_tail (oc_tail k) class_size
                       (size_t_sub (ti_class_size ti) class_size);
          let s := upd_class c (with_tail tail) s in
          do s <- type_class_base_init fuel t (ti_parent ti) s;
          do s <- for_loop (ti_num_interfaces ti) 0 (type_class_interface_init t) s;
          do ti <- get_type t s;
          match ti_class_init ti with
          | Some h => Ok (log (EvClassInit h (ti_class ti) (ti_class_data ti)) s)
          | None => Ok s
          end
      end
  end.

(** ** Access to the fields of an instance *)

(** [obj->class], at offset 0. *)
Definition obj_class (obj : optr) (s : state) : result (option cptr) :=
  do o <- get_object obj s;
  if decide (sizeof_ObjectClass ≤ o_size o) then Ok (o_class o) else Err Undefined.

(** [obj->interfaces], the second word of the instance header. *)
Definition obj_interfaces (obj : optr) (s : state) : result (list optr) :=
  do o <- get_object obj s;
  if decide (sizeof_Object ≤ o_size o) then Ok (o_interfaces o) else Err Undefined.

(** [iface->obj], the word after the header in [struct Interface]. *)
Definition iface_obj (obj : optr) (s : state) : result (option optr) :=
  do o <- get_object obj s;
  if decide (sizeof_Interface ≤ o_size o) then Ok (o_obj o) else Err Undefined.

Definition set_obj_class (obj : optr) (c : option cptr) (s : state) : result state :=
  do _ <- obj_class obj s;
  Ok (upd_object obj (fun o =>
        {| o_size := o_size o; o_class := c;
           o_interfaces := o_interfaces o; o_obj := o_obj o |}) s).

Definition set_obj_interfaces (obj : optr) (l : list optr) (s : state) : result state :=
  do _ <- obj_interfaces obj s;
  Ok (upd_object obj (fun o =>
        {| o_size := o_size o; o_class := o_class o;
           o_interfaces := l; o_obj := o_obj o |}) s).

Definition set_iface_obj (obj : optr) (owner : option optr) (s : state) : result state :=
  do _ <- iface_obj obj s;
  Ok (upd_object obj (fun o =>
        {| o_size := o_size o; o_class := o_class o;
           o_interfaces := o_interfaces o; o_obj := owner |}) s).

(** [g_malloc(size)]: a fresh allocation whose content is not initialised. *)
Definition g_malloc (size : Z) (s : state) : optr * state :=
  (length (st_objects s),
   set_objects (fun l => l ++ [Some {| o_size := size; o_class := None;
                                       o_interfaces := []; o_obj := None |}]) s).

(** [memset(obj, 0, n)]: the fields that lie within the first [n] bytes
    become NULL. *)
Definition memset_object (obj : optr) (n : Z) (s : state) : result state :=
  do o <- get_object obj s;
  if decide (n ≤ o_size o) then
    Ok (upd_object obj (fun o =>
          {| o_size := o_size o;
             o_class := if decide (sizeof_ObjectClass ≤ n) then None else o_class o;
             o_interfaces := if decide (sizeof_Object ≤ n) then [] else o_interfaces o;
             o_obj := if decide (sizeof_Interface ≤ n) then None else o_obj o |}) s)
  else Err Undefined.

Definition g_free (obj : optr) (s : state) : result state :=
  do _ <- get_object obj s;
  Ok (set_objects (alter (fun _ => None) obj) s).

(** ** Dynamic type identification *)

(** The loop [while (type) { if (type == target_type) return true;
    type = type_get_by_name(type->parent); }]. *)
Fixpoint type_is_ancestor (fuel : nat) (type target_type : option tptr) (s : state)
    : result bool :=
  match fuel with
  | O => Err OutOfFuel
  | S fuel =>
      match type with
      | None => Ok false
      | Some t =>
          if decide (type = target_type) then Ok true
          else
            do ti <- get_type t s;
            type_is_ancestor fuel (type_get_by_name (ti_parent ti) s) target_type s
      end
  end.

(** A loop over a GSList that returns the first element passing [check]. *)
Fixpoint find_interface (check : optr → result bool) (l : list optr)
    : result (option optr) :=
  match l with
  | [] => Ok None
  | i :: l =>
      do b <- check i;
      if b : bool then Ok (Some i) else find_interface check l
  end.

Fixpoint object_is_type (fuel : nat) (obj : optr) (typename : option string)
    (s : state) : result bool :=
  match fuel with
  | O => Err OutOfFuel
  | S fuel =>
      let target_type := type_get_by_name typename s in
      do c <- obj_class obj s;
      do c <- nonnull c;
      do k <- get_class c s;
      do b <- type_is_ancestor fuel (Some (oc_type k)) target_type s;
      if b : bool then Ok true
      else
        do l <- obj_interfaces obj s;
        do r <- find_interface (fun iface => object_is_type fuel iface typename s) l;
        Ok (bool_decide (is_Some r))
  end.

(** [INTERFACE(obj)] is [OBJECT_CHECK(Interface, obj, TYPE_INTERFACE)], the
    asserting cast. *)
Fixpoint object_dynamic_cast (fuel : nat) (obj : optr) (typename : option string)
    (s : state) : result (option optr) :=
  match fuel with
  | O => Err OutOfFuel
  | S fuel =>
      do b <- object_is_type fuel obj typename s;
      if b : bool then Ok (Some obj)
      else
        do l <- obj_interfaces obj s;
        do r <- find_interface (fun iface => object_is_type fuel iface typename s) l;
        match r with
        | Some iface => Ok (Some iface)
        | None =>
            do b <- object_is_type fuel obj (Some TYPE_INTERFACE) s;
            if b : bool then
              do iface <- object_dynamic_cast_assert fuel obj (Some TYPE_INTERFACE) s;
              do owner <- iface_obj iface s;
              do owner <- nonnull owner;
              do b <- object_is_type fuel owner typename s;
              if b : bool then Ok (Some owner) else Ok None
            else Ok None
        end
  end
with object_dynamic_cast_assert (fuel : nat) (obj : optr) (typename : option string)
    (s : state) : result optr :=
  match fuel with
  | O => Err OutOfFuel
  | S fuel =>
      do inst <- object_dynamic_cast fuel obj typename s;
      match inst with
      | Some inst => Ok inst
      | None => Err AssertFail
      end
  end.

(** ** Instance lifecycle *)

Fixpoint object_init (fuel : nat) (obj : optr) (typename : option string)
    (s : state) : result state :=
  match fuel with
  | O => Err OutOfFuel
  | S fuel =>
      do t <- nonnull (type_get_by_name typename s);
      do ti <- get_type t s;
      do s <- match ti_parent ti with
              | Some _ => object_init fuel obj (ti_parent ti) s
              | None => Ok s
              end;
      do ti <- get_type t s;
      do s <- for_loop (ti_num_interfaces ti) 0 (object_interface_init fuel obj t) s;
      do ti <- get_type t s;
      match ti_instance_init ti with
      | Some h => Ok (log (EvInstanceInit h obj) s)
      | None => Ok s
      end
  end
with object_interface_init (fuel : nat) (obj : optr) (t : tptr) (i : nat)
    (s : state) : result state :=
  match fuel with
  | O => Err OutOfFuel
  | S fuel =>
      do owner <- get_type t s;
      do iface <- nonnull (ti_interfaces owner !! i);
      do a <- nonnull (if_type iface);
      do ti <- get_type a s;
      do (o, s) <- object_new fuel (Some (ti_name ti)) s;
      do iface_obj <- object_dynamic_cast_assert fuel o (Some TYPE_INTERFACE) s;
      do s <- set_iface_obj iface_obj (Some obj) s;
      do l <- obj_interfaces obj s;
      do s <- set_obj_interfaces obj (iface_obj :: l) s;
      Ok (log (EvInterfaceAdded obj iface_obj) s)
  end
with object_initialize (fuel : nat) (data : optr) (typename : option string)
    (s : state) : result state :=
  match fuel with
  | O => Err OutOfFuel
  | S fuel =>
      do t <- nonnull (type_get_by_name typename s);
      do ti <- get_type t s;
      do _ <- g_assert (bool_decide (sizeof_ObjectClass ≤ ti_instance_size ti));
      do s <- type_class_init fuel t s;
      do ti <- get_type t s;
      do _ <- g_assert (bool_decide (ti_abstract ti = false));
      do s <- memset_object data (ti_instance_size ti) s;
      do s <- set_obj_class data (ti_class ti) s;
      object_init fuel data typename s
  end
with object_new (fuel : nat) (typename : option string) (s : state)
    : result (optr * state) :=
  match fuel with
  | O => Err OutOfFuel
  | S fuel =>
      do t <- nonnull (type_get_by_name typename s);
      do ti <- get_type t s;
      let (obj, s) := g_malloc (ti_instance_size ti) s in
      do s <- object_initialize fuel obj typename s;
      Ok (obj, s)
  end.

Fixpoint object_deinit (fuel : nat) (obj : optr) (typename : option string)
    (s : state) : result state :=
  match fuel with
  | O => Err OutOfFuel
  | S fuel =>
      do t <- nonnull (type_get_by_name typename s);
      do ti <- get_type t s;
      let s := match ti_instance_finalize ti with
               | Some h => log (EvInstanceFinalize h obj) s
               | None => s
               end in
      do s <- object_deinit_interfaces fuel obj s;
      do ti <- get_type t s;
      match ti_parent ti with
      | Some _ => object_init fuel obj (ti_parent ti) s
      | None => Ok s
      end
  end
with object_deinit_interfaces (fuel : nat) (obj : optr) (s : state) : result state :=
  (* while (obj->interfaces) { ... } *)
  match fuel with
  | O => Err OutOfFuel
  | S fuel =>
      do l <- obj_interfaces obj s;
      match l with
      | [] => Ok s
      | iface_obj :: rest =>
          do s <- set_obj_interfaces obj rest s;
          do s <- object_delete fuel iface_obj s;
          object_deinit_interfaces fuel obj s
      end
  end
with object_finalize (fuel : nat) (data : optr) (s : state) : result state :=
  match fuel with
  | O => Err OutOfFuel
  | S fuel =>
      do c <- obj_class data s;
      do c <- nonnull c;
      do k <- get_class c s;
      do ti <- get_type (oc_type k) s;
      object_deinit fuel data (Some (ti_name ti)) s
  end
with object_delete (fuel : nat) (obj : optr) (s : state) : result state :=
  match fuel with
  | O => Err OutOfFuel
  | S fuel =>
      do s <- object_finalize fuel obj s;
      g_free obj s
  end.

Definition object_get_type (obj : optr) (s : state) : result string :=
  do c <- obj_class obj s;
  do c <- nonnull c;
  do k <- get_class c s;
  do ti <- get_type (oc_type k) s;
  Ok (ti_name ti).

Definition object_get_class (obj : optr) (s : state) : result (option cptr) :=
  obj_class obj s.

(** ** Concrete registries used as test inputs *)

Definition plain_info (name : string) (parent : option string)
    (instance_size class_size : Z) : TypeInfo :=
  {| info_name := Some name; info_parent := parent;
     info_instance_size := instance_size; info_class_size := class_size;
     info_base_init := None; info_base_finalize := None;
     info_class_init := None; info_class_finalize := None;
     info_class_data := 0;
     info_instance_init := None; info_instance_finalize := None;
     info_abstract := false; info_interfaces := None |}.

(** The hooks [h+1 .. h+4] as base_init, class_init, instance_init and
    instance_finalize, and [h] as class_data. *)
Definition with_hooks (h : nat) (info : TypeInfo) : TypeInfo :=
  {| info_name := info_name info; info_parent := info_parent info;
     info_instance_size := info_instance_size info;
     info_class_size := info_class_size info;
     info_base_init := Some (h + 1)%nat; info_base_finalize := None;
     info_class_init := Some (h + 2)%nat; info_class_finalize := None;
     info_class_data := Z.of_nat h;
     info_instance_init := Some (h + 3)%nat;
     info_instance_finalize := Some (h + 4)%nat;
     info_abstract := info_abstract info;
     info_interfaces := info_interfaces info |}.

Definition with_abstract (info : TypeInfo) : TypeInfo :=
  {| info_name := info_name info; info_parent := info_parent info;
     info_instance_size := info_instance_size info;
     info_class_size := info_class_size info;
     info_base_init := info_base_init info;
     info_base_finalize := info_base_finalize info;
     info_class_init := info_class_init info;
     info_class_finalize := info_class_finalize info;
     info_class_data := info_class_data info;
     info_instance_init := info_instance_init info;
     info_instance_finalize := info_instance_finalize info;
     info_abstract := true;
     info_interfaces := info_interfaces info |}.

Definition with_info_interfaces (l : list InterfaceInfo) (info : TypeInfo) : TypeInfo :=
  {| info_name := info_name info; info_parent := info_parent info;
     info_instance_size := info_instance_size info;
     info_class_size := info_class_size info;
     info_base_init := info_base_init info;
     info_base_finalize := info_base_finalize info;
     info_class_init := info_class_init info;
     info_class_finalize := info_class_finalize info;
     info_class_data := info_class_data info;
     info_instance_init := info_instance_init info;
     info_instance_finalize := info_instance_finalize info;
     info_abstract := info_abstract info;
     info_interfaces := Some l |}.

(** What [register_interface] registers at start-up. *)
Definition interface_info : TypeInfo :=
  with_abstract (plain_info TYPE_INTERFACE None sizeof_Interface 0).

Fixpoint register_all (l : list TypeInfo) (s : state) : result state :=
  match l with
  | [] => Ok s
  | info :: l => do (_, s) <- type_register_static info s; register_all l s
  end.

Definition Root_info : TypeInfo := with_hooks 10 (plain_info "Root" None 16 16).
Definition Mid_info : TypeInfo := with_hooks 20 (plain_info "Mid" (Some "Root") 16 0).
Definition Leaf_info : TypeInfo := with_hooks 30 (plain_info "Leaf" (Some "Mid") 16 24).

(** The three-level chain Root -> Mid -> Leaf, descriptors 1, 2 and 3. *)
Definition chain_registry : result state :=
  register_all [interface_info; Root_info; Mid_info; Leaf_info] initial_state.

Definition iface_a_info : TypeInfo :=
  with_abstract (plain_info "iface_a" (Some TYPE_INTERFACE) 0 0).

Definition impl_info : TypeInfo :=
  with_info_interfaces [{| ii_type := "iface_a"; ii_interface_initfn := Some 77%nat |}]
    (with_hooks 40 (plain_info "impl" None 16 8)).

(** A type that declares one interface, descriptors 0 ("interface"),
    1 ("iface_a") and 2 ("impl"). *)
Definition iface_registry : result state :=
  register_all [interface_info; iface_a_info; impl_info] initial_state.

(** A type that declares the same interface in two entries. *)
Definition twice_info : TypeInfo :=
  with_info_interfaces [{| ii_type := "iface_a"; ii_interface_initfn := None |};
                        {| ii_type := "iface_a"; ii_interface_initfn := None |}]
    (plain_info "twice" None 16 8).

Definition twice_registry : result state :=
  register_all [interface_info; iface_a_info; twice_info] initial_state.

(** A type with one interface declaration more than the array holds. *)
Definition crowded_info : TypeInfo :=
  with_info_interfaces
    (replicate 33 {| ii_type := "iface_a"; ii_interface_initfn := None |})
    (plain_info "crowded" None 16 8).

(** A type whose instances are as large as a class header, smaller than the
    instance header. *)
Definition tiny_info : TypeInfo := plain_info "tiny" None 8 8.

Definition tiny_registry : result state :=
  register_all [interface_info; tiny_info] initial_state.

(** The events logged from the end of [s] on. *)
Definition events_since (s s' : state) : list event :=
  drop (length (st_trace s)) (st_trace s').

(** The class object an event hands to a hook. *)
Definition event_class (e : event) : option cptr :=
  match e with
  | EvBaseInit _ k | EvClassInit _ k _ => k
  | _ => None
  end.

(** ** Invariants and frame conditions *)

(** A descriptor with its mutable parts erased: the class pointer, the
    resolved class size and the synthesized type of each interface entry. *)
Definition static (ti : TypeImpl) : TypeImpl :=
  with_class None (with_class_size 0
    (with_interfaces (ti_num_interfaces ti)
       (with_if_type None <$> ti_interfaces ti) ti)).

(** Well-formed states: the anonymous names not yet issued are free, the
    class pointer of a descriptor points to a class object whose header
    points back, class sizes are values of type size_t, and the synthesized
    type stored in an interface entry is registered under its name and
    extends the interface that the entry declares. *)
Record wf_state (s : state) : Prop := {
  wf_anon : ∀ n, st_count s ≤ n → st_type_table s !! anonymous_name n = None;
  wf_class : ∀ t T c, st_types s !! t = Some T → ti_class T = Some c →
             ∃ k, st_classes s !! c = Some k ∧ oc_type k = t;
  wf_size : ∀ t T, st_types s !! t = Some T → 0 ≤ ti_class_size T < 2 ^ 64;
  wf_ifaces : ∀ t T i e a,
      st_types s !! t = Some T → ti_interfaces T !! i = Some e →
      if_type e = Some a →
      ∃ A, st_types s !! a = Some A ∧ st_type_table s !! ti_name A = Some a ∧
           ti_parent A = if_parent e;
}.

(** An event that hands a class object to a hook hands one allocated at
    index [n] or later. *)
Definition event_fresh (n : nat) (e : event) : Prop :=
  ∀ c, event_class e = Some c → (n ≤ c)%nat.

(** What a class build may change.  [x] is a descriptor under construction,
    exempt from [br_frozen]; [n] is the number of class objects that existed
    when the build began. *)
Record build_rel (x : option tptr) (n : nat) (s s' : state) : Prop := {
  br_frozen : ∀ u U, Some u ≠ x → st_types s !! u = Some U →
              is_Some (ti_class U) → st_types s' !! u = Some U;
  br_kept : ∀ u U c, st_types s !! u = Some U → ti_class U = Some c →
            ∃ U', st_types s' !! u = Some U' ∧ ti_class U' = Some c ∧
                  ti_class_size U' = ti_class_size U;
  br_static : ∀ u U, st_types s !! u = Some U →
              ∃ U', st_types s' !! u = Some U' ∧ static U' = static U;
  br_fresh : ∀ u U' c, st_types s' !! u = Some U' → ti_class U' = Some c →
             (∃ U, st_types s !! u = Some U ∧ ti_class U = Some c) ∨ (n ≤ c)%nat;
  br_types_len : (length (st_types s) ≤ length (st_types s'))%nat;
  br_classes_len : (length (st_classes s) ≤ length (st_classes s'))%nat;
  br_classes : ∀ i, (i < n)%nat → st_classes s' !! i = st_classes s !! i;
  br_table : st_type_table s ⊆ st_type_table s';
  br_count : st_count s ≤ st_count s';
  br_trace : ∃ ev, st_trace s' = st_trace s ++ ev ∧ Forall (event_fresh n) ev;
}.

(** The parent chain named by [name], root first, as descriptor pointers. *)
Fixpoint parent_chain (fuel : nat) (name : option string) (s : state)
    : option (list tptr) :=
  match fuel with
  | O => None
  | S fuel =>
      match name with
      | None => Some []
      | Some _ =>
          t ← type_get_by_name name s;
          ti ← st_types s !! t;
          l ← parent_chain fuel (ti_parent ti) s;
          Some (l ++ [t])
      end
  end.

(** The base_init calls along a chain, each on the class [klass]. *)
Definition base_init_events (chain : list tptr) (klass : option cptr) (s : state)
    : list event :=
  omap (fun t => ti ← st_types s !! t; h ← ti_base_init ti;
                 Some (EvBaseInit h klass)) chain.

Definition class_init_events (ti : TypeImpl) (klass : option cptr) : list event :=
  match ti_class_init ti with
  | Some h => [EvClassInit h klass (ti_class_data ti)]
  | None => []
  end.

(** The descriptor that [type_class_interface_init] registers for the
    interface entry [e] when the counter of anonymous types stands at [n]. *)
Definition anonymous_type (e : InterfaceImpl) (n : Z) : TypeImpl :=
  {| ti_name := anonymous_name n;
     ti_parent := if_parent e;
     ti_class_size := sizeof_InterfaceClass;
     ti_instance_size := sizeof_Interface;
     ti_base_init := None; ti_base_finalize := None;
     ti_class_init := if_interface_initfn e; ti_class_finalize := None;
     ti_class_data := 0;
     ti_instance_init := None; ti_instance_finalize := None;
     ti_abstract := false;
     ti_class := None;
     ti_num_interfaces := 0;
     ti_interfaces := replicate MAX_INTERFACES zero_interface |}.

Definition add_events (ev : list event) (s : state) : state :=
  {| st_types := st_types s; st_type_table := st_type_table s;
     st_count := st_count s; st_classes := st_classes s;
     st_objects := st_objects s; st_trace := st_trace s ++ ev |}.

(** The write [iface->type = a] on entry [i] of a descriptor. *)
Definition set_iface_type (i : nat) (a : tptr) (ti : TypeImpl) : TypeImpl :=
  with_interfaces (ti_num_interfaces ti)
    (alter (with_if_type (Some a)) i (ti_interfaces ti)) ti.

(** The state after [type_class_interface_init] on entry [i] of [t], whose
    content is [e]. *)
Definition synthesized (t : tptr) (i : nat) (e : InterfaceImpl) (s : state) : state :=
  let a := length (st_types s) in
  {| st_types := alter (set_iface_type i a) t
                   (st_types s ++ [anonymous_type e (st_count s)]);
     st_type_table := <[anonymous_name (st_count s) := a]> (st_type_table s);
     st_count := st_count s + 1;
     st_classes := st_classes s;
     st_objects := st_objects s;
     st_trace := st_trace s ++ [EvRegistered a] |}.

(** ** The anatomy of a class build *)

(** The state of the build of [t] once its class object of [size] bytes is
    allocated and stored in the descriptor. *)
Definition class_allocated (t : tptr) (size : Z) (s : state) : state :=
  upd_type t (with_class (Some (length (st_classes s))))
    (set_classes
       (fun l => l ++ [{| oc_type := t;
            oc_tail := replicate (Z.to_nat (size - sizeof_ObjectClass)) x00 |}])
       (upd_type t (with_class_size size) s)).

(** From the allocation to the first hook: the class of the parent is
    ensured, its bytes after the header are copied, the rest is zeroed. *)
Inductive inherits (fuel : nat) (t : tptr) (c : cptr) (s0 : state)
    : option string → state → Prop :=
  | inherits_root T k tail :
      st_types s0 !! t = Some T → st_classes s0 !! c = Some k →
      memset_tail (oc_tail k) sizeof_ObjectClass
        (size_t_sub (ti_class_size T) sizeof_ObjectClass) = Ok tail →
      inherits fuel t c s0 None (upd_class c (with_tail tail) s0)
  | inherits_parent pn p s1 P T pc pk k tail tail' :
      type_table_lookup pn s0 = Some p →
      type_class_init fuel p s0 = Ok s1 →
      st_types s1 !! p = Some P → st_types s1 !! t = Some T →
      ti_class_size P ≤ ti_class_size T →
      ti_class P = Some pc →
      st_classes s1 !! pc = Some pk → st_classes s1 !! c = Some k →
      memcpy_tail (oc_tail k) (oc_tail pk)
        (size_t_sub (ti_class_size P) sizeof_ObjectClass) = Ok tail →
      memset_tail tail (ti_class_size P)
        (size_t_sub (ti_class_size T) (ti_class_size P)) = Ok tail' →
      inherits fuel t c s0 (Some pn)
        (upd_class c (with_tail tail') (upd_class c (with_tail tail) s1)).

(** The class size of a type as the spec words it: the first non-zero
    class_size found on the way up the ancestors, the size of the header
    when there is none. *)
Inductive effective_class_size (s : state) : tptr → Z → Prop :=
  | ecs_own t T :
      st_types s !! t = Some T → ti_class_size T ≠ 0 →
      effective_class_size s t (ti_class_size T)
  | ecs_inherited t T pn p n :
      st_types s !! t = Some T → ti_class_size T = 0 →
      ti_parent T = Some pn → type_table_lookup pn s = Some p →
      effective_class_size s p n →
      effective_class_size s t n
  | ecs_default t T :
      st_types s !! t = Some T → ti_class_size T = 0 →
      ti_parent T = None →
      effective_class_size s t sizeof_ObjectClass.

(** The byte at offset [off] of a class object, for offsets after the
    header. *)
Definition class_byte (k : ObjectClass) (off : Z) : option byte :=
  if decide (sizeof_ObjectClass ≤ off)
  then oc_tail k !! Z.to_nat (off - sizeof_ObjectClass)
  else None.

(** A decision procedure for [wf_state]: a name that begins like an
    anonymous name is one of those already issued. *)
Definition name_ok (count : Z) (name : string) : bool :=
  match name with
  | String "<"%char _ =>
      bool_decide (name ∈ (fun k => anonymous_name (Z.of_nat k)) <$> seq 0 (Z.to_nat count))
  | _ => true
  end.

Definition iface_ok (s : state) (e : InterfaceImpl) : bool :=
  match if_type e with
  | Some a =>
      bool_decide ((fun A => (st_type_table s !! ti_name A, ti_parent A))
                     <$> st_types s !! a = Some (Some a, if_parent e))
  | None => true
  end.

Definition type_ok (s : state) (t : tptr) (ti : TypeImpl) : bool :=
  bool_decide (0 ≤ ti_class_size ti < 2 ^ 64) &&
  match ti_class ti with
  | Some c => bool_decide (oc_type <$> st_classes s !! c = Some t)
  | None => true
  end &&
  forallb (iface_ok s) (ti_interfaces ti).

Definition wf_check (s : state) : bool :=
  forallb (name_ok (st_count s)) (fst <$> map_to_list (st_type_table s)) &&
  forallb (fun p => type_ok s (fst p) (snd p)) (imap pair (st_types s)).

(** The state of a registry that was set up without error. *)
Definition from_ok (r : result state) : state :=
  match r with
  | Ok s => s
  | Err _ => initial_state
  end.

(** The chain registry after the class of Root was built and its
    class_init hook filled the eight bytes after the header. *)
Definition painted_registry : state :=
  upd_class 0 (with_tail [x01; x02; x03; x04; x05; x06; x07; x08])
    (from_ok (do s <- chain_registry; type_class_init 10 1 s)).

(** The descriptor of Leaf in [chain_registry], before its class is built. *)
Definition Leaf_type : TypeImpl :=
  {| ti_name := "Leaf"; ti_class_size := 24; ti_instance_size := 16;
     ti_base_init := Some 31%nat; ti_base_finalize := None;
     ti_class_init := Some 32%nat; ti_class_finalize := None;
     ti_class_data := 30; ti_instance_init := Some 33%nat;
     ti_instance_finalize := Some 34%nat; ti_abstract := false;
     ti_parent := Some "Mid"; ti_class := None;
     ti_num_interfaces := 0;
     ti_interfaces := replicate MAX_INTERFACES zero_interface |}.

(** ** Frame conditions on instances *)

(** The instance that an event is about. *)
Definition event_instance (e : event) : option optr :=
  match e with
  | EvInstanceInit _ o | EvInstanceFinalize _ o | EvInterfaceAdded o _ => Some o
  | _ => None
  end.

(** The events of the trace of [s] that are about the instance [x]. *)
Definition instance_events (x : optr) (s : state) : list event :=
  filter (fun e => event_instance e = Some x) (st_trace s).

(** What initialising the instance [obj] may do to the heap of instances:
    it allocates, it leaves the other instances that existed as they were,
    and on [obj] itself it only prepends to the interface list. *)
Record objects_rel (obj : optr) (s s' : state) : Prop := {
  or_len : (length (st_objects s) ≤ length (st_objects s'))%nat;
  or_others : ∀ x, (x < length (st_objects s))%nat → x ≠ obj →
              st_objects s' !! x = st_objects s !! x;
  or_self : ∀ O, st_objects s !! obj = Some (Some O) →
            ∃ O', st_objects s' !! obj = Some (Some O') ∧
                  o_size O' = o_size O ∧ o_class O' = o_class O ∧
                  o_obj O' = o_obj O ∧
                  o_interfaces O `suffix_of` o_interfaces O';
  or_events : ∀ x, (x < length (st_objects s))%nat → x ≠ obj →
              instance_events x s' = instance_events x s;
}.

(** The instances that existed in [s] are untouched in [s']. *)
Definition objects_kept (s s' : state) : Prop :=
  (length (st_objects s) ≤ length (st_objects s'))%nat ∧
  ∀ x, (x < length (st_objects s))%nat →
       st_objects s' !! x = st_objects s !! x ∧
       instance_events x s' = instance_events x s.

(** [o] is an instance of the type that [name] resolved to in [s]: its
    class pointer is the class of that type. *)
Definition instance_of (o : optr) (name : option string) (s s' : state) : Prop :=
  ∃ t T' c O,
    type_get_by_name name s = Some t ∧
    st_types s' !! t = Some T' ∧ ti_class T' = Some c ∧
    st_objects s' !! o = Some (Some O) ∧ o_class O = Some c.

(** ** Interface trampolines *)

(** [tr] is a trampoline on [obj] for entry [i] of the descriptor [u]: an
    instance whose [obj] field points to [obj] and whose class is the class
    of a type that extends the interface declared by the entry. *)
Definition trampoline_of (s : state) (obj : optr) (u : tptr) (i : nat) (tr : optr)
    : Prop :=
  ∃ U e O k K A,
    st_types s !! u = Some U ∧ ti_interfaces U !! i = Some e ∧
    st_objects s !! tr = Some (Some O) ∧ o_obj O = Some obj ∧
    o_class O = Some k ∧ st_classes s !! k = Some K ∧
    st_types s !! oc_type K = Some A ∧ ti_parent A = if_parent e.

(** [trs] are the trampolines of the level [u] of the parent chain, one
    for each interface entry of [u], in the order of the entries. *)
Definition level_trampolines (s : state) (obj : optr) (u : tptr) (trs : list optr)
    : Prop :=
  (∃ U, st_types s !! u = Some U ∧ length trs = ti_num_interfaces U) ∧
  ∀ i tr, trs !! i = Some tr → trampoline_of s obj u i tr.

Definition instance_init_events (s : state) (obj : optr) (u : tptr) : list event :=
  match st_types s !! u ≫= ti_instance_init with
  | Some h => [EvInstanceInit h obj]
  | None => []
  end.

(** What one level does to [obj]: it installs its trampolines, then it
    runs its instance_init. *)
Definition level_events (s : state) (obj : optr) (u : tptr) (trs : list optr)
    : list event :=
  (EvInterfaceAdded obj <$> trs) ++ instance_init_events s obj u.

(** The registry of "impl" after one instance of "impl" was created. *)
Definition impl_instance : state :=
  from_ok (do (_, s) <- object_new 10 (Some "impl") (from_ok iface_registry); Ok s).

(** ** Stability of class objects *)

(** The events that hand the class object [c] to a hook. *)
Definition class_events (c : cptr) (s : state) : list event :=
  filter (fun e => event_class e = Some c) (st_trace s).

(** From [s] to [s'] the class of [t] stays the class object [c], with the
    content it had, and no hook is run on it. *)
Definition class_kept (t : tptr) (c : cptr) (s s' : state) : Prop :=
  (∃ T', st_types s' !! t = Some T' ∧ ti_class T' = Some c) ∧
  st_classes s' !! c = st_classes s !! c ∧
  class_events c s' = class_events c s.

(** The runs of the base_init hook [h]. *)
Definition base_init_runs (h : hook) (ev : list event) : list event :=
  List.filter (fun e => match e with
                        | EvBaseInit h' _ => bool_decide (h' = h)
                        | _ => false
                        end) ev.

(** ** The remaining entry points of qom/object.c *)

(** [register_interface], run at start-up through [device_init]. *)
Definition register_interface (s : state) : result (tptr * state) :=
  type_register_static interface_info s.


Definition object_class_get_name (klass : cptr) (s : state) : result string :=
  do k <- get_class klass s;
  do ti <- get_type (oc_type k) s;
  Ok (ti_name ti).

(** ** Vocabulary of the further properties *)

(** The interface declarations of a [TypeInfo], none when the pointer is
    NULL. *)
Definition declared (info : TypeInfo) : list InterfaceInfo :=
  default [] (info_interfaces info).

(** The array entry that registration writes for a declaration. *)
Definition declared_entry (e : InterfaceInfo) : InterfaceImpl :=
  {| if_parent := Some (ii_type e);
     if_interface_initfn := ii_interface_initfn e;
     if_type := None |}.

(** The descriptor that [type_register_static] allocates for [info]. *)
Definition registered_type (name : string) (info : TypeInfo) : TypeImpl :=
  {| ti_name := name;
     ti_parent := info_parent info;
     ti_class_size := info_class_size info;
     ti_instance_size := info_instance_size info;
     ti_base_init := info_base_init info;
     ti_base_finalize := info_base_finalize info;
     ti_class_init := info_class_init info;
     ti_class_finalize := info_class_finalize info;
     ti_class_data := info_class_data info;
     ti_instance_init := info_instance_init info;
     ti_instance_finalize := info_instance_finalize info;
     ti_abstract := info_abstract info;
     ti_class := None;
     ti_num_interfaces := length (declared info);
     ti_interfaces := (declared_entry <$> declared info)
                      ++ replicate (MAX_INTERFACES - length (declared info))
                           zero_interface |}.

(** The state after the descriptor [T] was appended and entered in the
    table under [name]. *)
Definition state_registered (name : string) (T : TypeImpl) (s : state) : state :=
  log (EvRegistered (length (st_types s)))
    (set_type_table (insert name (length (st_types s)))
       (set_types (fun l => l ++ [T]) s)).

(** The state that a run returned beside its value. *)
Definition ok_state {A} (r : result (A * state)) : state :=
  match r with
  | Ok (_, s) => s
  | Err _ => initial_state
  end.

(** The chain registry after one instance of "Leaf" was created. *)
Definition leaf_instance : state :=
  ok_state (object_new 10 (Some "Leaf") (from_ok chain_registry)).

(** The call of the instance_init hook of a descriptor on an instance, and
    the call of its instance_finalize hook. *)
Definition init_events (T : TypeImpl) (obj : optr) : list event :=
  match ti_instance_init T with
  | Some h => [EvInstanceInit h obj]
  | None => []
  end.

Definition finalize_events (T : TypeImpl) (obj : optr) : list event :=
  match ti_instance_finalize T with
  | Some h => [EvInstanceFinalize h obj]
  | None => []
  end.

(** The chain registry after one instance of "Root" was created. *)
Definition root_instance : state :=
  ok_state (object_new 10 (Some "Root") (from_ok chain_registry)).

(** A type registered as its own parent. *)
Definition loop_info : TypeInfo := plain_info "loop" (Some "loop") 16 8.

Definition loop_registry : result state := register_all [loop_info] initial_state.

(** A type whose parent is not registered, and a type whose class would be
    smaller than the class header. *)
Definition orphan_info : TypeInfo := plain_info "orphan" (Some "nowhere") 16 8.

Definition short_info : TypeInfo := plain_info "short" None 16 4.

Definition edge_registry : result state :=
  register_all [orphan_info; short_info] initial_state.

(** ** When the class builder returns *)

(** The class objects of the built types have the size that their
    descriptor records, the class header included. *)
Definition classes_sized (s : state) : Prop :=
  ∀ u U c, st_types s !! u = Some U → ti_class U = Some c →
    sizeof_ObjectClass ≤ ti_class_size U ∧
    ∃ k, st_classes s !! c = Some k ∧
         Z.of_nat (length (oc_tail k)) = ti_class_size U - sizeof_ObjectClass.

(** The class size that a type resolves to.  [up] lists the type and then
    its ancestors, the parent first and the root last: the first class_size
    on the way up that is not zero, the size of the class header when there
    is none. *)
Fixpoint esize (s : state) (up : list tptr) : Z :=
  match up with
  | [] => sizeof_ObjectClass
  | u :: up' =>
      match st_types s !! u with
      | Some U => if decide (ti_class_size U = 0) then esize s up' else ti_class_size U
      | None => sizeof_ObjectClass
      end
  end.

(** What the builder needs of the types it has to build, from a type up to
    its first ancestor that has a class: the class of a type is no smaller
    than the class of its parent, and the interface entries that a type
    counts lie within its array. *)
Fixpoint buildable (s : state) (up : list tptr) : Prop :=
  match up with
  | [] => True
  | u :: up' =>
      match st_types s !! u with
      | Some U =>
          match ti_class U with
          | Some _ => True
          | None =>
              esize s up' ≤ esize s up < 2 ^ 64 ∧
              (ti_num_interfaces U ≤ length (ti_interfaces U))%nat ∧
              buildable s up'
          end
      | None => False
      end
  end.

(** The number of anonymous types that the build of the first type of [up]
    registers: one for each interface entry of each type still to be
    built. *)
Fixpoint pending (s : state) (up : list tptr) : nat :=
  match up with
  | [] => 0
  | u :: up' =>
      match st_types s !! u with
      | Some U =>
          match ti_class U with
          | Some _ => 0
          | None => ti_num_interfaces U + pending s up'
          end
      | None => 0
      end
  end.

(** The part of [type_class_init] after the inherited bytes were copied:
    the rest of the class object is zeroed, the base_init hooks run, the
    interface types are synthesized and class_init runs.  [c] is the class
    object of [t] and [class_size] the size of the class of its parent. *)
Definition type_class_init_finish (fuel : nat) (t : tptr) (c : cptr) (class_size : Z)
    (s : state) : result state :=
  do ti <- get_type t s;
  do k <- get_class c s;
  do tail <- memset_tail (oc_tail k) class_size
               (size_t_sub (ti_class_size ti) class_size);
  let s := upd_class c (with_tail tail) s in
  do s <- type_class_base_init fuel t (ti_parent ti) s;
  do s <- for_loop (ti_num_interfaces ti) 0 (type_class_interface_init t) s;
  do ti <- get_type t s;
  match ti_class_init ti with
  | Some h => Ok (log (EvClassInit h (ti_class ti) (ti_class_data ti)) s)
  | None => Ok s
  end.

(** The part before: the class of the parent is ensured and its bytes are
    copied into the class object [c] of [t]. *)
Definition type_class_init_inherit (fuel : nat) (t : tptr) (c : cptr)
    (parent : option string) (s : state) : result (Z * state) :=
  match parent with
  | Some _ =>
      do p <- nonnull (type_get_by_name parent s);
      do s <- type_class_init fuel p s;
      do ti_parent <- get_type p s;
      do ti <- get_type t s;
      do _ <- g_assert (bool_decide (ti_class_size ti_parent ≤ ti_class_size ti));
      do pc <- nonnull (ti_class ti_parent);
      do pk <- get_class pc s;
      do k <- get_class c s;
      do tail <- memcpy_tail (oc_tail k) (oc_tail pk)
                   (size_t_sub (ti_class_size ti_parent) sizeof_ObjectClass);
      Ok (ti_class_size ti_parent, upd_class c (with_tail tail) s)
  | None => Ok (sizeof_ObjectClass, s)
  end.

(** The instance_init calls that the initialisation of [obj] makes along a
    chain of types without interface declarations, in the order of the
    chain. *)
Definition chain_init_events (s : state) (obj : optr) (chain : list tptr) : list event :=
  chain ≫= (fun u => match st_types s !! u with
                     | Some U => init_events U obj
                     | None => []
                     end).

(** ** The class builder, up to its hooks

    The hooks of a type are opaque: a call is recorded as an event, and
    what a hook writes into the class object it receives is not modelled.
    Statements about the bytes of a class object are therefore made for
    the state in which the hooks are called, which the two parts below
    tell apart. *)

(** [type_class_init] of a type without class object, up to the [memset]
    (object.c, lines 226 to 246): the class size is resolved, the class
    object is allocated and its header set, the class of the parent is
    ensured and its bytes are copied, and the rest is zeroed. *)
Definition type_class_init_layout (fuel : nat) (t : tptr) (s : state) : result state :=
  do ti <- get_type t s;
  do size <- type_class_get_size fuel t s;
  let s := upd_type t (with_class_size size) s in
  do (c, s) <- class_alloc size t s;
  let s := upd_type t (with_class (Some c)) s in
  do (class_size, s) <-
    match ti_parent ti with
    | Some _ =>
        do p <- nonnull (type_get_by_name (ti_parent ti) s);
        do s <- type_class_init fuel p s;
        do ti_parent <- get_type p s;
        do ti <- get_type t s;
        do _ <- g_assert (bool_decide (ti_class_size ti_parent ≤ ti_class_size ti));
        do pc <- nonnull (ti_class ti_parent);
        do pk <- get_class pc s;
        do k <- get_class c s;
        do tail <- memcpy_tail (oc_tail k) (oc_tail pk)
                     (size_t_sub (ti_class_size ti_parent) sizeof_ObjectClass);
        Ok (ti_class_size ti_parent, upd_class c (with_tail tail) s)
    | None => Ok (sizeof_ObjectClass, s)
    end;
  do ti <- get_type t s;
  do k <- get_class c s;
  do tail <- memset_tail (oc_tail k) class_size
               (size_t_sub (ti_class_size ti) class_size);
  Ok (upd_class c (with_tail tail) s).

(** The rest of [type_class_init] (object.c, lines 248 to 256): the
    base_init hooks of the ancestors, the synthesis of the interface types
    and the class_init hook of the type. *)
Definition type_class_init_hooks (fuel : nat) (t : tptr) (s : state) : result state :=
  do ti <- get_type t s;
  do s <- type_class_base_init fuel t (ti_parent ti) s;
  do s <- for_loop (ti_num_interfaces ti) 0 (type_class_interface_init t) s;
  do ti <- get_type t s;
  match ti_class_init ti with
  | Some h => Ok (log (EvClassInit h (ti_class ti) (ti_class_data ti)) s)
  | None => Ok s
  end.

(** * The PC back end of the PCI test library (tests/libqos/pci-pc.c)

    The bus object keeps two bump allocators, one for the memory window
    and one for the I/O window that it hands out to BARs.  The functions of
    libqtest that reach the machine (inb, outl, memread, ...) and the
    generic config accessors of libqos/pci.c are not among the sources:
    a call of one of them is recorded as the access it performs, and the
    value that the machine answers is an input. *)

(** One access to the machine under test. *)
Inductive port_access :=
  | Inb (port : Z) | Inw (port : Z) | Inl (port : Z)
  | Outb (port value : Z) | Outw (port value : Z) | Outl (port value : Z)
  | Memread (addr size : Z)
  | Memwrite (addr size value : Z).

(** The fields of [QPCIBusPC] beside the table of function pointers: three
    uint32_t for the memory window, three uint16_t for the I/O window. *)
Record QPCIBusPC := {
  pci_hole_start : Z;
  pci_hole_size : Z;
  pci_hole_alloc : Z;
  pci_iohole_start : Z;
  pci_iohole_size : Z;
  pci_iohole_alloc : Z;
}.

(** [port] is [(uintptr_t)addr]. *)
Definition qpci_pc_io_readb (addr : Z) : port_access :=
  if decide (addr < 0x10000) then Inb addr else Memread addr 1.

Definition qpci_pc_io_readw (addr : Z) : port_access :=
  if decide (addr < 0x10000) then Inw addr else Memread addr 2.

Definition qpci_pc_io_readl (addr : Z) : port_access :=
  if decide (addr < 0x10000) then Inl addr else Memread addr 4.

Definition qpci_pc_io_writeb (addr value : Z) : port_access :=
  if decide (addr < 0x10000) then Outb addr value else Memwrite addr 1 value.

Definition qpci_pc_io_writew (addr value : Z) : port_access :=
  if decide (addr < 0x10000) then Outw addr value else Memwrite addr 2 value.

Definition qpci_pc_io_writel (addr value : Z) : port_access :=
  if decide (addr < 0x10000) then Outl addr value else Memwrite addr 4 value.

(** The word [(1 << 31) | (devfn << 8) | offset] written to port 0xcf8, as
    the uint32_t that [outl] receives.  [devfn] is an int and [offset] a
    uint8_t: the shift of [devfn] must stay within int, and [1 << 31] is
    taken as compilers define it, the int whose bit pattern is 0x80000000. *)
Definition config_address (devfn offset : Z) : result Z :=
  if decide (0 ≤ devfn ∧ Z.shiftl devfn 8 ≤ INT_MAX) then
    Ok (Z.lor (Z.lor (Z.shiftl 1 31) (Z.shiftl devfn 8)) offset)
  else Err Undefined.

Definition qpci_pc_config_readb (devfn offset : Z) : result (list port_access) :=
  do a <- config_address devfn offset; Ok [Outl 0xcf8 a; Inb 0xcfc].

Definition qpci_pc_config_readw (devfn offset : Z) : result (list port_access) :=
  do a <- config_address devfn offset; Ok [Outl 0xcf8 a; Inw 0xcfc].

Definition qpci_pc_config_readl (devfn offset : Z) : result (list port_access) :=
  do a <- config_address devfn offset; Ok [Outl 0xcf8 a; Inl 0xcfc].

Definition qpci_pc_config_writeb (devfn offset value : Z) : result (list port_access) :=
  do a <- config_address devfn offset; Ok [Outl 0xcf8 a; Outb 0xcfc value].

Definition qpci_pc_config_writew (devfn offset value : Z) : result (list port_access) :=
  do a <- config_address devfn offset; Ok [Outl 0xcf8 a; Outw 0xcfc value].

Definition qpci_pc_config_writel (devfn offset value : Z) : result (list port_access) :=
  do a <- config_address devfn offset; Ok [Outl 0xcf8 a; Outl 0xcfc value].

(** The decoding that the host bridge applies to the word at 0xcf8: the
    enable bit, the device and function number, the register offset. *)
Definition config_enable (a : Z) : bool := Z.testbit a 31.
Definition config_devfn (a : Z) : Z := Z.land (Z.shiftr a 8) (2 ^ 23 - 1).
Definition config_offset (a : Z) : Z := Z.land a 0xff.

(** What [qpci_init_pc] stores in the bus object. *)
Definition qpci_init_pc : QPCIBusPC :=
  {| pci_hole_start := 0xE0000000;
     pci_hole_size := 0x20000000;
     pci_hole_alloc := 0;
     pci_iohole_start := 0xc000;
     pci_iohole_size := 0x4000;
     pci_iohole_alloc := 0 |}.

(** A call of [qpci_config_writel(dev, reg, value)] on the device being
    mapped. *)
Record config_write := { cw_reg : Z; cw_value : Z }.

Section iomap.
(** From the absent headers: [ffz] of bitops.h, the offsets
    PCI_BASE_ADDRESS_0 .. PCI_BASE_ADDRESS_5 and the flag
    PCI_BASE_ADDRESS_SPACE_IO of hw/pci_regs.h. *)
Variable ffz : Z → Z.
Variable PCI_BASE_ADDRESS : nat → Z.
Variable PCI_BASE_ADDRESS_SPACE_IO : Z.

Definition bar_reg_map : list Z := PCI_BASE_ADDRESS <$> [0; 1; 2; 3; 4; 5]%nat.

(** [addr] is the uint32_t that the device answers to the read of the
    BAR after all ones were written to it.  The result is the pointer
    returned (0 for NULL), the bus object and the config writes made. *)
Definition qpci_pc_iomap (s : QPCIBusPC) (barno : Z) (addr : Z)
    : result (Z * QPCIBusPC * list config_write) :=
  do _ <- g_assert (bool_decide (0 ≤ barno ∧ barno ≤ 5));
  do bar_reg <- nonnull (bar_reg_map !! Z.to_nat barno);
  let probe := {| cw_reg := bar_reg; cw_value := 0xFFFFFFFF |} in
  (* 1ULL << ffz(addr) *)
  do size <- (if decide (0 ≤ ffz addr < 64) then Ok (2 ^ ffz addr mod 2 ^ 64)
              else Err Undefined);
  if decide (size = 0) then Ok (0, s, [probe])
  else if decide (Z.land addr PCI_BASE_ADDRESS_SPACE_IO ≠ 0) then
    do _ <- g_assert (bool_decide
              ((pci_iohole_alloc s + size) mod 2 ^ 64 ≤ pci_iohole_size s));
    let loc := (pci_iohole_start s + pci_iohole_alloc s) mod 2 ^ 16 in
    let s' := {| pci_hole_start := pci_hole_start s;
                 pci_hole_size := pci_hole_size s;
                 pci_hole_alloc := pci_hole_alloc s;
                 pci_iohole_start := pci_iohole_start s;
                 pci_iohole_size := pci_iohole_size s;
                 pci_iohole_alloc := (pci_iohole_alloc s + size) mod 2 ^ 16 |} in
    Ok (loc, s',
        [probe; {| cw_reg := bar_reg;
                   cw_value := Z.lor loc PCI_BASE_ADDRESS_SPACE_IO mod 2 ^ 32 |}])
  else
    do _ <- g_assert (bool_decide
              ((pci_hole_alloc s + size) mod 2 ^ 64 ≤ pci_hole_size s));
    let loc := (pci_hole_start s + pci_hole_alloc s) mod 2 ^ 32 in
    let s' := {| pci_hole_start := pci_hole_start s;
                 pci_hole_size := pci_hole_size s;
                 pci_hole_alloc := (pci_hole_alloc s + size) mod 2 ^ 32;
                 pci_iohole_start := pci_iohole_start s;
                 pci_iohole_size := pci_iohole_size s;
                 pci_iohole_alloc := pci_iohole_alloc s |} in
    Ok (loc, s', [probe; {| cw_reg := bar_reg; cw_value := loc mod 2 ^ 32 |}]).

(** A test that maps one BAR after the other; a request is the BAR number
    and the answer of the device, the result lists the regions obtained,
    each as its address and its size. *)
Fixpoint qpci_pc_iomap_all (reqs : list (Z * Z)) (s : QPCIBusPC)
    : result (list (Z * Z) * QPCIBusPC) :=
  match reqs with
  | [] => Ok ([], s)
  | (barno, addr) :: reqs =>
      do (r, _) <- qpci_pc_iomap s barno addr;
      do (rs, s'') <- qpci_pc_iomap_all reqs (snd r);
      Ok ((fst r, 2 ^ ffz addr) :: rs, s'')
  end.
End iomap.

(** Two regions, each an address and a size, that do not overlap. *)
Definition region_disjoint (r1 r2 : Z * Z) : Prop :=
  fst r1 + snd r1 ≤ fst r2 ∨ fst r2 + snd r2 ≤ fst r1.

Inductive regions_disjoint : list (Z * Z) → Prop :=
  | regions_disjoint_nil : regions_disjoint []
  | regions_disjoint_cons r rs :
      Forall (region_disjoint r) rs → regions_disjoint rs →
      regions_disjoint (r :: rs).

(** A region that lies in the I/O window or in the memory window of the
    PC, from the allocation mark [io] respectively [mem] on. *)
Definition region_above (io mem : Z) (r : Z * Z) : Prop :=
  0 < snd r ∧
  ((0xc000 + io ≤ fst r ∧ fst r + snd r ≤ 0x10000) ∨
   (0xE0000000 + mem ≤ fst r ∧ fst r + snd r ≤ 2 ^ 32)).

(** [qpci_pc_iounmap] does nothing. *)
Definition qpci_pc_iounmap (s : QPCIBusPC) (data : Z) : QPCIBusPC := s.

(** What holds of every bus object that [qpci_init_pc] made, whatever was
    mapped since: the windows are the ones set at creation and each
    allocator stands within its window. *)
Record bus_ok (s : QPCIBusPC) : Prop := {
  bus_hole_start : pci_hole_start s = 0xE0000000;
  bus_hole_size : pci_hole_size s = 0x20000000;
  bus_hole_alloc : 0 ≤ pci_hole_alloc s ≤ pci_hole_size s;
  bus_iohole_start : pci_iohole_start s = 0xc000;
  bus_iohole_size : pci_iohole_size s = 0x4000;
  bus_iohole_alloc : 0 ≤ pci_iohole_alloc s ≤ pci_iohole_size s;
}.

(** An ffz for the examples: the index of the lowest clear bit among the
    low 64 bits, 64 when there is none. *)
Fixpoint ffz_from (n : nat) (i : Z) (w : Z) : Z :=
  match n with
  | O => i
  | S n => if Z.testbit w i then ffz_from n (i + 1) w else i
  end.

Definition ffz64 (w : Z) : Z := ffz_from 64 0 w.

(** The offsets of the six BARs in the configuration header, and the bus
    object after one I/O BAR of two bytes was mapped. *)
Definition bar_offset (i : nat) : Z := 0x10 + 4 * Z.of_nat i.

Definition bus_after_io_bar : QPCIBusPC :=
  {| pci_hole_start := 0xE0000000;
     pci_hole_size := 0x20000000;
     pci_hole_alloc := 0;
     pci_iohole_start := 0xc000;
     pci_iohole_size := 0x4000;
     pci_iohole_alloc := 2 |}.

(** * Properties *)

(** ** The bug-revealing runs *)

(** C1 (not met by the code): after [new("Leaf")] on Root -> Mid -> Leaf,
    [delete] calls Leaf's instance_finalize only and then re-enters the
    initialisation path on the parent: it calls the instance_init hooks of
    Root and Mid and no instance_finalize of Mid or Root. *)
Theorem object_delete_reinitializes_parents :
  (do s <- chain_registry;
   do (o, s1) <- object_new 10 (Some "Leaf") s;
   do s2 <- object_delete 10 o s1;
   Ok (events_since s s1, events_since s1 s2, st_objects s2 !! o))
  = Ok ([EvClassInit 12 (Some 2%nat) 10; EvBaseInit 11 (Some 1%nat);
         EvClassInit 22 (Some 1%nat) 20; EvBaseInit 11 (Some 0%nat);
         EvBaseInit 21 (Some 0%nat); EvClassInit 32 (Some 0%nat) 30;
         EvInstanceInit 13 0; EvInstanceInit 23 0; EvInstanceInit 33 0]%nat,
        [EvInstanceFinalize 34 0; EvInstanceInit 13 0; EvInstanceInit 23 0]%nat,
        Some None).
Proof. vm_compute. reflexivity. Qed.

(** C4 (not met by the code): for an instance [o] of "impl", which declares
    the interface "iface_a", [dynamic_cast(o, "iface_a")] returns [o]
    itself, not the trampoline that [o] carries: [object_is_type] already
    answers through the interface list, so the loop of [object_dynamic_cast]
    that returns the trampoline never finds anything.  The casts from the
    trampoline and from the result back to "impl" return [o]. *)
Theorem object_dynamic_cast_interface_returns_instance :
  (do s <- iface_registry;
   do (o, s) <- object_new 10 (Some "impl") s;
   do l <- obj_interfaces o s;
   do tr <- nonnull (head l);
   do owner <- iface_obj tr s;
   do is_a <- object_is_type 10 tr (Some "iface_a") s;
   do cast <- object_dynamic_cast 10 o (Some "iface_a") s;
   do back <- object_dynamic_cast 10 tr (Some "impl") s;
   Ok (o, l, owner, is_a, cast, back))
  = Ok (0, [1], Some 0, true, Some 0, Some 0)%nat.
Proof. vm_compute. reflexivity. Qed.

(** C9 (not met by the code): registering a type with 33 interface
    declarations is not stopped by an assertion; the copy loop writes entry
    32 past the end of the array of the descriptor. *)
Theorem type_register_static_overflows_interfaces :
  (length <$> info_interfaces crowded_info) = Some 33%nat ∧
  type_register_static crowded_info initial_state = Err Undefined.
Proof. split; vm_compute; reflexivity. Qed.

(** C10 (not met by the code): [new] succeeds on a type whose instance_size
    is 8, below the 16 bytes of the instance header; the assertion of
    [object_initialize] compares with the size of the class header. *)
Theorem object_new_accepts_undersized_instance :
  info_instance_size tiny_info < sizeof_Object ∧
  (do s <- tiny_registry;
   do (o, s) <- object_new 10 (Some "tiny") s;
   do ob <- get_object o s;
   Ok (o, o_size ob, o_class ob))
  = Ok (0%nat, 8, Some 0%nat).
Proof. split; [reflexivity | vm_compute; reflexivity]. Qed.

(** ** Reasoning about results *)

Local Arguments MAX_INTERFACES : simpl never.

Lemma bind_Ok {A B} (m : result A) (k : A → result B) (b : B) :
  bind m k = Ok b → ∃ a, m = Ok a ∧ k a = Ok b.
Proof. destruct m as [a|e]; simpl; [eauto | discriminate]. Qed.

Lemma nonnull_Ok {A} (o : option A) (a : A) : nonnull o = Ok a → o = Some a.
Proof. destruct o; simpl; congruence. Qed.

Lemma g_assert_Ok (b : bool) (u : unit) : g_assert b = Ok u → b = true.
Proof. destruct b; simpl; congruence. Qed.

Ltac inv_ok :=
  repeat match goal with
  | H : bind _ _ = Ok _ |- _ =>
      let a := fresh "a" in let Hm := fresh "Hm" in
      apply bind_Ok in H; destruct H as (a & Hm & H)
  | H : Ok _ = Ok _ |- _ => injection H as H
  | H : Err _ = Ok _ |- _ => discriminate H
  | H : nonnull _ = Ok _ |- _ => apply nonnull_Ok in H
  | H : g_assert _ = Ok _ |- _ => apply g_assert_Ok in H
  | H : get_type _ _ = Ok _ |- _ => apply nonnull_Ok in H
  | H : get_class _ _ = Ok _ |- _ => apply nonnull_Ok in H
  | H : (let (_, _) := ?p in _) = Ok _ |- _ => destruct p
  | H : (let '(_, _) := ?p in _) = Ok _ |- _ => destruct p
  | H : (if decide ?P then _ else _) = Ok _ |- _ =>
      destruct (decide P); [|try discriminate H]
  end.

(** Rewrite the goal with the hypotheses that give the value of a lookup. *)
Ltac rew_lookups :=
  repeat (match goal with
          | H : ?x = Some _ |- context [?x] => rewrite H
          | H : ?x = None |- context [?x] => rewrite H
          end; simpl).

(** Reduce the projections of updated states. *)
Ltac st_simpl :=
  cbn [st_types st_classes st_type_table st_count st_objects st_trace
       upd_class upd_type upd_object set_types set_classes set_objects
       set_type_table set_count log add_events] in *.

Lemma anonymous_name_inj : Inj (=) (=) anonymous_name.
Proof.
  intros n m H. unfold anonymous_name in H.
  apply String.app_inj in H.
  apply (inj pretty).
  revert H. generalize (pretty n) (pretty m). clear.
  induction s as [|a s IH]; intros [|b s'] H; simpl in *; try done.
  - injection H as -> H. destruct s'; discriminate.
  - injection H as -> H. destruct s; discriminate.
  - injection H as -> H. f_equal. by apply IH.
Qed.

Lemma add_events_nil s : add_events [] s = s.
Proof. destruct s. unfold add_events. simpl. by rewrite app_nil_r. Qed.

Lemma add_events_app ev1 ev2 s :
  add_events ev2 (add_events ev1 s) = add_events (ev1 ++ ev2) s.
Proof. unfold add_events. simpl. by rewrite app_assoc. Qed.

Lemma log_add_events e s : log e s = add_events [e] s.
Proof. reflexivity. Qed.

(** ** The steps of the class builder *)

Lemma type_class_base_init_events fuel b B name s s' :
  st_types s !! b = Some B →
  type_class_base_init fuel b name s = Ok s' →
  ∃ chain, parent_chain fuel name s = Some chain ∧
           s' = add_events (base_init_events chain (ti_class B) s) s.
Proof.
  intros HB. revert name s'. induction fuel as [|fuel IH]; intros name s' H.
  { discriminate. }
  simpl in H. destruct name as [n|]; inv_ok.
  - match goal with H : type_class_base_init _ _ _ _ = _ |- _ =>
      destruct (IH _ _ H) as (chain & Hc & ->) end.
    simpl in *. simplify_eq.
    match goal with H : type_table_lookup n s = Some ?a |- _ => exists (chain ++ [a]) end.
    split; [by rew_lookups|].
    unfold base_init_events. rewrite omap_app. simpl. rew_lookups.
    match goal with H : context [ti_base_init ?a] |- _ =>
      destruct (ti_base_init a) as [h|] end; simpl; inv_ok; simpl in *; simplify_eq.
    + by rewrite log_add_events, add_events_app.
    + by rewrite app_nil_r.
  - subst. exists []. by rewrite add_events_nil.
Qed.

(** ** The frame relation is a preorder *)

Lemma build_rel_refl x n s : build_rel x n s s.
Proof.
  split; try done; try lia; eauto.
  exists []. by rewrite app_nil_r.
Qed.

Lemma build_rel_trans x n s1 s2 s3 :
  build_rel x n s1 s2 → build_rel x n s2 s3 → build_rel x n s1 s3.
Proof.
  intros [F1 K1 S1 Fr1 TL1 CL1 C1 Tb1 Ct1 Tr1] [F2 K2 S2 Fr2 TL2 CL2 C2 Tb2 Ct2 Tr2].
  split.
  - intros u U Hx HU Hc. eauto.
  - intros u U c HU Hc.
    destruct (K1 _ _ _ HU Hc) as (U' & HU' & Hc' & Hs').
    destruct (K2 _ _ _ HU' Hc') as (U'' & HU'' & Hc'' & Hs'').
    exists U''. split_and!; congruence.
  - intros u U HU.
    destruct (S1 _ _ HU) as (U' & HU' & Hs').
    destruct (S2 _ _ HU') as (U'' & HU'' & Hs'').
    exists U''. split; congruence.
  - intros u U'' c HU'' Hc.
    destruct (Fr2 _ _ _ HU'' Hc) as [(U' & HU' & Hc')|]; [|by right].
    eauto.
  - lia.
  - lia.
  - intros i Hi. rewrite C2, C1; done.
  - by etrans.
  - lia.
  - destruct Tr1 as (ev1 & E1 & G1), Tr2 as (ev2 & E2 & G2).
    exists (ev1 ++ ev2). rewrite E2, E1, app_assoc. split; [done|].
    by apply Forall_app.
Qed.

Lemma build_rel_weaken x n m s s' :
  (m ≤ n)%nat → build_rel None n s s' → build_rel x m s s'.
Proof.
  intros Hm [F1 K1 S1 Fr1 TL1 CL1 C1 Tb1 Ct1 Tr1].
  split; [| done | done | | done | done | | done | done | ].
  - intros u U Hx. by apply F1.
  - intros u U' c HU' Hc. destruct (Fr1 _ _ _ HU' Hc); [by left | right; lia].
  - intros i Hi. apply C1. lia.
  - destruct Tr1 as (ev & E & G). exists ev. split; [done|].
    eapply Forall_impl; [done|]. intros e He c Hc. specialize (He c Hc). lia.
Qed.

Lemma build_rel_add_events x n ev s :
  Forall (event_fresh n) ev → build_rel x n s (add_events ev s).
Proof.
  intros F. split; simpl; try done; try lia; eauto.
Qed.

Lemma wf_state_add_events ev s : wf_state s → wf_state (add_events ev s).
Proof. intros [A C Z I]. split; simpl; eauto. Qed.

(** Class pointers that a step keeps stay valid. *)
Lemma build_rel_prefix s s' :
  build_rel None (length (st_classes s)) s s' →
  st_classes s `prefix_of` st_classes s'.
Proof.
  intros [F1 K1 S1 Fr1 TL1 CL1 C1 Tb1 Ct1 Tr1].
  exists (drop (length (st_classes s)) (st_classes s')).
  rewrite <- (take_drop (length (st_classes s)) (st_classes s')) at 1.
  f_equal. apply list_eq. intros i.
  destruct (decide (i < length (st_classes s))%nat).
  - rewrite lookup_take_lt by done. by rewrite C1.
  - rewrite lookup_take_ge by lia. symmetry. apply lookup_ge_None. lia.
Qed.

(** ** Elementary steps *)

Lemma upd_type_lookup t f s u :
  st_types (upd_type t f s) !! u =
  if decide (t = u) then f <$> st_types s !! t else st_types s !! u.
Proof. unfold upd_type. simpl. apply list_lookup_alter. Qed.

Lemma build_rel_upd_type x n t f s :
  (∀ T, st_types s !! t = Some T →
        static (f T) = static T ∧
        (is_Some (ti_class T) →
           x = Some t ∧ ti_class (f T) = ti_class T ∧
           ti_class_size (f T) = ti_class_size T) ∧
        (∀ c, ti_class (f T) = Some c → ti_class T = Some c ∨ (n ≤ c)%nat)) →
  build_rel x n s (upd_type t f s).
Proof.
  intros Hf. split; try done.
  - intros u U Hx HU Hc. rewrite upd_type_lookup. case_decide; [|done].
    subst u. destruct (Hf _ HU) as (_ & H & _). destruct (H Hc) as (-> & _). done.
  - intros u U c HU Hc. rewrite upd_type_lookup. case_decide; [|eauto].
    subst u. rewrite HU. simpl. destruct (Hf _ HU) as (_ & H & _).
    destruct H as (_ & ? & ?); [by rewrite Hc|].
    eexists. split_and!; [done | congruence | done].
  - intros u U HU. rewrite upd_type_lookup. case_decide; [|eauto].
    subst u. rewrite HU. simpl. destruct (Hf _ HU) as (? & _). eauto.
  - intros u U' c. rewrite upd_type_lookup. case_decide; [|eauto].
    subst u. destruct (st_types s !! t) as [T|] eqn:HT; [|done]. simpl.
    intros [= <-] Hc. destruct (Hf _ eq_refl) as (_ & _ & H).
    destruct (H _ Hc); eauto.
  - unfold upd_type. simpl. by rewrite length_alter.
  - exists []. simpl. by rewrite app_nil_r.
Qed.

Lemma static_name U U' : static U' = static U → ti_name U' = ti_name U.
Proof. intros H. by apply (f_equal ti_name) in H. Qed.

Lemma static_parent U U' : static U' = static U → ti_parent U' = ti_parent U.
Proof. intros H. by apply (f_equal ti_parent) in H. Qed.

Lemma wf_state_upd_type t f s :
  wf_state s →
  (∀ T, st_types s !! t = Some T →
        static (f T) = static T ∧ ti_interfaces (f T) = ti_interfaces T ∧
        0 ≤ ti_class_size (f T) < 2 ^ 64 ∧
        (∀ c, ti_class (f T) = Some c →
              ∃ k, st_classes s !! c = Some k ∧ oc_type k = t)) →
  wf_state (upd_type t f s).
Proof.
  intros [A C Z I] Hf. split; [done | | |].
  - intros u U c. rewrite upd_type_lookup. case_decide; [|by apply C].
    destruct (st_types s !! t) as [T|] eqn:HT; [|done]. simpl.
    intros [= <-]. subst u. by apply Hf.
  - intros u U. rewrite upd_type_lookup. case_decide; [|by apply Z].
    destruct (st_types s !! t) as [T|] eqn:HT; [|done]. simpl.
    intros [= <-]. by apply Hf.
  - intros u U i e a HU He Ha.
    assert (∃ U0, st_types s !! u = Some U0 ∧ ti_interfaces U0 = ti_interfaces U)
      as (U0 & HU0 & Hi0).
    { rewrite upd_type_lookup in HU. case_decide; [|eauto]. subst u.
      destruct (st_types s !! t) as [T|] eqn:HT; [|done]. simpl in HU.
      injection HU as <-. exists T. split; [done|]. symmetry. by apply Hf. }
    rewrite <- Hi0 in He. destruct (I _ _ _ _ _ HU0 He Ha) as (A0 & HA0 & Htb & Hp).
    rewrite upd_type_lookup. case_decide; [|eauto]. subst a. rewrite HA0. simpl.
    destruct (Hf _ HA0) as (Hst & _).
    eexists. split; [done|]. st_simpl.
    rewrite (static_name _ _ Hst), (static_parent _ _ Hst). done.
Qed.

Lemma class_alloc_Ok size t s c s' :
  class_alloc size t s = Ok (c, s') →
  sizeof_ObjectClass ≤ size ∧ c = length (st_classes s) ∧
  s' = set_classes (fun l => l ++ [{| oc_type := t;
         oc_tail := replicate (Z.to_nat (size - sizeof_ObjectClass)) x00 |}]) s.
Proof. unfold class_alloc. intros H. inv_ok. by simplify_eq. Qed.

Lemma build_rel_set_classes_app x n k s :
  (n ≤ length (st_classes s))%nat →
  build_rel x n s (set_classes (fun l => l ++ [k]) s).
Proof.
  intros Hn. split; simpl; try done; eauto.
  - rewrite length_app. lia.
  - intros i Hi. apply lookup_app_l. lia.
  - exists []. by rewrite app_nil_r.
Qed.

Lemma wf_state_set_classes_app k s :
  wf_state s → wf_state (set_classes (fun l => l ++ [k]) s).
Proof.
  intros [A C Z I]. split; simpl; [done | | done | done].
  intros t T c HT Hc. destruct (C _ _ _ HT Hc) as (k0 & Hk0 & Ht).
  exists k0. split; [|done]. by apply lookup_app_l_Some.
Qed.

Lemma build_rel_upd_class x n c f s :
  (n ≤ c)%nat → build_rel x n s (upd_class c f s).
Proof.
  intros Hn. split; simpl; try done; eauto.
  - by rewrite length_alter.
  - intros i Hi. apply list_lookup_alter_ne. lia.
  - exists []. by rewrite app_nil_r.
Qed.

Lemma wf_state_upd_class c l s :
  wf_state s → wf_state (upd_class c (with_tail l) s).
Proof.
  intros [A C Z I]. split; simpl; [done | | done | done].
  intros t T k HT Hc. destruct (C _ _ _ HT Hc) as (k0 & Hk0 & Ht).
  rewrite list_lookup_alter. case_decide; [|eauto].
  subst k. rewrite Hk0. simpl. eauto.
Qed.

(** ** Interface type synthesis *)

Lemma type_class_interface_init_Ok t i s s' :
  type_class_interface_init t i s = Ok s' →
  ∃ T e, st_types s !! t = Some T ∧ ti_interfaces T !! i = Some e ∧
         st_count s < INT_MAX ∧ s' = synthesized t i e s.
Proof.
  unfold type_class_interface_init, type_register_anonymous, type_table_add,
    info_copy_interfaces.
  intros H. inv_ok. simpl in *. inv_ok. simpl in *.
  rewrite lookup_app_r, Nat.sub_diag in * by done. simpl in *. simplify_eq.
  eexists _, _. split_and!; done.
Qed.

Lemma static_set_iface_type i a T : static (set_iface_type i a T) = static T.
Proof.
  unfold static, set_iface_type, with_class, with_class_size, with_interfaces.
  simpl. f_equal.
  apply list_eq. intros j. rewrite !list_lookup_fmap, list_lookup_alter.
  case_decide; [|done]. subst. by destruct (ti_interfaces T !! j).
Qed.

Lemma synthesized_types_lookup t i e s u :
  st_types (synthesized t i e s) !! u =
  if decide (u = length (st_types s)) then
    if decide (t = u) then Some (set_iface_type i u (anonymous_type e (st_count s)))
    else Some (anonymous_type e (st_count s))
  else if decide (t = u) then set_iface_type i (length (st_types s)) <$> st_types s !! u
  else st_types s !! u.
Proof.
  simpl. rewrite list_lookup_alter.
  destruct (decide (u = length (st_types s))) as [Hu|Hu].
  - subst u. case_decide.
    + subst t. by rewrite lookup_app_r, Nat.sub_diag by lia.
    + by rewrite lookup_app_r, Nat.sub_diag by lia.
  - destruct (decide (u < length (st_types s))%nat).
    + case_decide; subst; by rewrite lookup_app_l by lia.
    + assert ((st_types s ++ [anonymous_type e (st_count s)]) !! u = None) as E1.
      { apply lookup_ge_None. rewrite length_app. simpl. lia. }
      assert (st_types s !! u = None) as E2 by (apply lookup_ge_None; lia).
      case_decide; subst; by rewrite ?E1, ?E2.
Qed.

Lemma build_rel_synthesized n t i e T s :
  wf_state s → st_types s !! t = Some T →
  build_rel (Some t) n s (synthesized t i e s).
Proof.
  intros [A C Z I] HT.
  assert (t < length (st_types s))%nat as Ht by by eapply lookup_lt_Some.
  split.
  - intros u U Hx HU Hc. rewrite synthesized_types_lookup.
    apply lookup_lt_Some in HU as Hu. repeat case_decide; try lia; congruence.
  - intros u U c HU Hc. rewrite synthesized_types_lookup.
    apply lookup_lt_Some in HU as Hu. repeat case_decide; try lia; eauto.
    subst u. rewrite HU. simpl. eauto.
  - intros u U HU. rewrite synthesized_types_lookup.
    apply lookup_lt_Some in HU as Hu. repeat case_decide; try lia; eauto.
    subst u. rewrite HU. simpl. eexists. split; [done|]. apply static_set_iface_type.
  - intros u U' c. rewrite synthesized_types_lookup.
    repeat case_decide; subst; try lia.
    + by intros [= <-].
    + destruct (st_types s !! u) as [U|] eqn:HU; [|done]. simpl.
      intros [= <-]. simpl. eauto.
    + eauto.
  - simpl. rewrite length_alter, length_app. lia.
  - done.
  - done.
  - simpl. apply insert_subseteq, A. lia.
  - simpl. lia.
  - exists [EvRegistered (length (st_types s))]. split; [done|].
    constructor; [|done]. by intros c.
Qed.

Lemma wf_state_synthesized t i e T s :
  wf_state s → st_types s !! t = Some T → ti_interfaces T !! i = Some e →
  wf_state (synthesized t i e s).
Proof.
  intros [A C Z I] HT He.
  assert (t < length (st_types s))%nat as Ht by by eapply lookup_lt_Some.
  assert (∀ a' A0, st_types s !! a' = Some A0 →
            st_type_table s !! ti_name A0 = Some a' →
            ∃ A', st_types (synthesized t i e s) !! a' = Some A' ∧
                  st_type_table (synthesized t i e s) !! ti_name A' = Some a' ∧
                  ti_parent A' = ti_parent A0) as Hkeep.
  { intros a' A0 HA0 Htb. apply lookup_lt_Some in HA0 as Hlt.
    assert (anonymous_name (st_count s) ≠ ti_name A0) as Hne.
    { intros E. rewrite <- E, A in Htb by lia. done. }
    rewrite synthesized_types_lookup. rewrite decide_False by lia.
    case_decide.
    - subst a'. rewrite HA0. simpl. eexists. split; [done|]. simpl.
      by rewrite lookup_insert_ne.
    - exists A0. split; [done|]. simpl. by rewrite lookup_insert_ne. }
  assert (st_types (synthesized t i e s) !! length (st_types s)
          = Some (anonymous_type e (st_count s))) as Hnew.
  { rewrite synthesized_types_lookup.
    rewrite decide_True by done. by rewrite decide_False by lia. }
  split.
  - intros n Hn. simpl in *. rewrite lookup_insert_ne.
    + apply A. lia.
    + intros E. apply anonymous_name_inj in E. lia.
  - intros u U c. rewrite synthesized_types_lookup.
    repeat case_decide; subst; try lia.
    + by intros [= <-].
    + destruct (st_types s !! u) as [U0|] eqn:HU; [|done]. simpl.
      intros [= <-]. simpl. eauto.
    + apply C.
  - intros u U. rewrite synthesized_types_lookup.
    repeat case_decide; subst; try lia.
    + intros [= <-]. simpl. unfold sizeof_InterfaceClass. lia.
    + destruct (st_types s !! u) as [U0|] eqn:HU; [|done]. simpl.
      intros [= <-]. simpl. eauto.
    + apply Z.
  - intros u U j e' a'. rewrite synthesized_types_lookup.
    repeat case_decide; subst; try lia.
    + intros [= <-]. cbn [ti_interfaces anonymous_type]. intros Hj.
      apply lookup_replicate in Hj as [-> _]. done.
    + rewrite HT. simpl. intros [= <-]. simpl.
      rewrite list_lookup_alter. case_decide.
      * subst j. rewrite He. simpl. intros [= <-]. simpl. intros [= <-].
        exists (anonymous_type e (st_count s)). split_and!.
        -- exact Hnew.
        -- simpl. apply lookup_insert_eq.
        -- done.
      * intros Hj Ha'. destruct (I _ _ _ _ _ HT Hj Ha') as (A0 & HA0 & Htb & Hp).
        destruct (Hkeep _ _ HA0 Htb) as (A' & ? & ? & ?).
        exists A'. split_and!; [done | done | congruence].
    + intros HU Hj Ha'. destruct (I _ _ _ _ _ HU Hj Ha') as (A0 & HA0 & Htb & Hp).
      destruct (Hkeep _ _ HA0 Htb) as (A' & ? & ? & ?).
      exists A'. split_and!; [done | done | congruence].
Qed.

(** The loop over the interface entries of [t], from entry [i] on. *)
Lemma synthesis_loop t k n : ∀ i s s' T,
  wf_state s → st_types s !! t = Some T →
  for_loop n i (type_class_interface_init t) s = Ok s' →
  wf_state s' ∧ build_rel (Some t) k s s' ∧
  st_classes s' = st_classes s ∧
  st_trace s' = st_trace s ++ (EvRegistered <$> seq (length (st_types s)) n) ∧
  length (st_types s') = (length (st_types s) + n)%nat ∧
  (∀ u, u ≠ t → (u < length (st_types s))%nat →
        st_types s' !! u = st_types s !! u) ∧
  ∃ T', st_types s' !! t = Some T' ∧
        ti_class T' = ti_class T ∧ ti_class_size T' = ti_class_size T ∧
        static T' = static T ∧
        (∀ j e, ti_interfaces T !! j = Some e →
           ti_interfaces T' !! j =
           Some (if decide (i ≤ j < i + n)%nat
                 then with_if_type (Some (length (st_types s) + (j - i))%nat) e
                 else e)) ∧
        (∀ j, (i ≤ j < i + n)%nat →
           ∃ e, ti_interfaces T !! j = Some e ∧
             st_types s' !! (length (st_types s) + (j - i))%nat
               = Some (anonymous_type e (st_count s + Z.of_nat (j - i))) ∧
             st_type_table s' !! anonymous_name (st_count s + Z.of_nat (j - i))
               = Some (length (st_types s) + (j - i))%nat).
Proof.
  induction n as [|n IH]; intros i s s' T Hwf HT H; simpl in H.
  - inv_ok. subst s'.
    split_and!; [done | apply build_rel_refl | done | | lia | done | ].
    + simpl. by rewrite app_nil_r.
    + exists T. split_and!; [done | done | done | done | |].
      * intros j e He. rewrite decide_False by lia. done.
      * intros j Hj. lia.
  - inv_ok.
    match goal with H : type_class_interface_init _ _ _ = _ |- _ =>
      apply type_class_interface_init_Ok in H;
      destruct H as (T0 & e & HT0 & He & Hcount & ->) end.
    assert (T0 = T) as -> by congruence.
    assert (t < length (st_types s))%nat as Ht by by eapply lookup_lt_Some.
    pose proof (wf_state_synthesized t i e T s Hwf HT He) as Hwf1.
    pose proof (build_rel_synthesized k t i e T s Hwf HT) as Hrel1.
    assert (st_types (synthesized t i e s) !! t
            = Some (set_iface_type i (length (st_types s)) T)) as HT1.
    { rewrite synthesized_types_lookup. rewrite decide_False by lia.
      rewrite decide_True by done. by rewrite HT. }
    destruct (IH _ _ _ _ Hwf1 HT1 H)
      as (Hwf' & Hrel' & Hcl & Htr & Hlen & Hoth & T' & HT' & Hc & Hs & Hst & Hif & Han).
    assert (length (st_types (synthesized t i e s)) = S (length (st_types s))) as Hlen1.
    { simpl. rewrite length_alter, length_app. simpl. lia. }
    split_and!.
    + done.
    + by eapply build_rel_trans.
    + by rewrite Hcl.
    + rewrite Htr, Hlen1. simpl. by rewrite <- app_assoc.
    + rewrite Hlen, Hlen1. lia.
    + intros u Hu Hul. rewrite Hoth by (try done; lia).
      rewrite synthesized_types_lookup. rewrite !decide_False by (try done; lia). done.
    + exists T'. split_and!; try done.
      * by rewrite Hst, static_set_iface_type.
      * intros j e' He'.
        destruct (decide (j = i)) as [->|Hji].
        -- rewrite (Hif i (with_if_type (Some (length (st_types s))) e)).
           ++ rewrite decide_False by lia. rewrite decide_True by lia.
              rewrite Nat.sub_diag, Nat.add_0_r. congruence.
           ++ simpl. rewrite list_lookup_alter_eq, He. done.
        -- rewrite (Hif j e') by (simpl; by rewrite list_lookup_alter_ne).
           rewrite Hlen1. f_equal. repeat case_decide; try lia; try done.
           do 2 f_equal. lia.
      * intros j Hj. destruct (decide (j = i)) as [->|Hji].
        -- exists e. rewrite Nat.sub_diag, Nat.add_0_r, Z.add_0_r. split_and!.
           ++ done.
           ++ rewrite Hoth by lia. rewrite synthesized_types_lookup.
              rewrite decide_True by done. rewrite decide_False by lia. done.
           ++ eapply lookup_weaken; [|exact (br_table _ _ _ _ Hrel')].
              simpl. apply lookup_insert_eq.
        -- destruct (Han j) as (e' & He' & HA & Hn); [lia|].
           simpl in He'. rewrite list_lookup_alter_ne in He' by done.
           exists e'. rewrite Hlen1 in *. simpl in HA, Hn.
           replace (length (st_types s) + (j - i))%nat
             with (S (length (st_types s)) + (j - S i))%nat by lia.
           replace (st_count s + Z.of_nat (j - i))
             with (st_count s + 1 + Z.of_nat (j - S i)) by lia.
           done.
Qed.

(** ** The class builder *)

Lemma type_class_get_size_effective fuel t s n :
  type_class_get_size fuel t s = Ok n → effective_class_size s t n.
Proof.
  revert t. induction fuel as [|fuel IH]; intros t H; [discriminate|].
  simpl in H. inv_ok.
  - subst. by eapply ecs_own.
  - match goal with H : ¬ _ ≠ 0 |- _ => apply dec_stable in H end.
    match goal with |- context [effective_class_size _ _ _] => idtac end.
    match goal with H : st_types s !! t = Some ?T |- _ =>
      destruct (ti_parent T) as [pn|] eqn:Hp end; inv_ok.
    + eapply ecs_inherited; eauto.
    + subst. by eapply ecs_default.
Qed.

Lemma effective_class_size_range s t n :
  wf_state s → effective_class_size s t n → 0 ≤ n < 2 ^ 64.
Proof.
  intros [A C Z I]. induction 1; eauto. unfold sizeof_ObjectClass. lia.
Qed.

Lemma type_class_init_built fuel t s T :
  st_types s !! t = Some T → is_Some (ti_class T) →
  type_class_init (S fuel) t s = Ok s.
Proof.
  intros HT [c Hc]. simpl. unfold get_type. rewrite HT. simpl. by rewrite Hc.
Qed.

Lemma type_class_init_inv fuel t s s' T :
  st_types s !! t = Some T → ti_class T = None →
  type_class_init (S fuel) t s = Ok s' →
  ∃ size s2 T2 chain s4 T4,
    type_class_get_size fuel t s = Ok size ∧ sizeof_ObjectClass ≤ size ∧
    inherits fuel t (length (st_classes s)) (class_allocated t size s)
      (ti_parent T) s2 ∧
    st_types s2 !! t = Some T2 ∧
    parent_chain fuel (ti_parent T2) s2 = Some chain ∧
    for_loop (ti_num_interfaces T2) 0 (type_class_interface_init t)
      (add_events (base_init_events chain (ti_class T2) s2) s2) = Ok s4 ∧
    st_types s4 !! t = Some T4 ∧
    s' = add_events (class_init_events T4 (ti_class T4)) s4.
Proof.
  intros HT Hc H. simpl in H. inv_ok. simplify_eq. rewrite Hc in H. inv_ok.
  match goal with H : class_alloc _ _ _ = _ |- _ =>
    apply class_alloc_Ok in H; destruct H as (Hsz & -> & ->) end.
  assert (∀ s0 T0 r,
    match ti_class_init T0 with
    | Some h => Ok (log (EvClassInit h (ti_class T0) (ti_class_data T0)) s0)
    | None => Ok s0
    end = Ok r → r = add_events (class_init_events T0 (ti_class T0)) s0) as Hfin.
  { intros s0 T0 r Hr. unfold class_init_events.
    destruct (ti_class_init T0); inv_ok; subst; [done | by rewrite add_events_nil]. }
  apply Hfin in H. clear Hfin.
  destruct (ti_parent T) as [pn|] eqn:Hp; inv_ok; simplify_eq;
    (match goal with H : type_class_base_init _ _ _ _ = Ok _ |- _ =>
       eapply type_class_base_init_events in H; [|done];
       destruct H as (chain & Hchain & ->) end);
    (match goal with
     | Hs : type_class_get_size fuel t s = Ok ?size,
       Hl : for_loop _ 0 _ (add_events (base_init_events _ (ti_class ?T2) ?s2) ?s2)
            = Ok ?s4,
       H4 : st_types ?s4 !! t = Some ?T4 |- _ =>
         exists size, s2, T2, chain, s4, T4
     end); (split_and!; [done | done | | done | done | done | done | done]).
  - st_simpl. simplify_eq.
    match goal with H : alter _ _ _ !! _ = Some ?k |- _ =>
      rewrite list_lookup_alter_eq in H;
      match goal with E : st_classes _ !! _ = Some _ |- _ => rewrite E in H end;
      simpl in H; injection H as <- end.
    eapply inherits_parent; try done.
    match goal with H : bool_decide _ = true |- _ =>
      by apply bool_decide_eq_true in H end.
  - eapply inherits_root; done.
Qed.

Lemma base_init_events_fresh n chain c s :
  (n ≤ c)%nat → Forall (event_fresh n) (base_init_events chain (Some c) s).
Proof.
  intros Hn. unfold base_init_events. apply Forall_forall. intros e He.
  apply list_elem_of_omap in He as (u & _ & Hu).
  destruct (st_types s !! u) as [U|]; [|done]. simpl in Hu.
  destruct (ti_base_init U); [|done]. simpl in Hu. injection Hu as <-.
  intros k [= <-]. done.
Qed.

Lemma class_init_events_fresh n T c :
  (n ≤ c)%nat → Forall (event_fresh n) (class_init_events T (Some c)).
Proof.
  intros Hn. unfold class_init_events. destruct (ti_class_init T); [|done].
  constructor; [|done]. intros k [= <-]. done.
Qed.

Lemma build_rel_unexempt t T n s s' :
  st_types s !! t = Some T → ti_class T = None →
  build_rel (Some t) n s s' → build_rel None n s s'.
Proof.
  intros HT Hc [F1 K1 S1 Fr1 TL1 CL1 C1 Tb1 Ct1 Tr1].
  split; try done.
  intros u U _ HU HcU. apply F1; [|done..].
  intros [= ->]. rewrite HT in HU. injection HU as <-.
  rewrite Hc in HcU. by destruct HcU.
Qed.

Lemma class_allocated_lookup t size s T :
  st_types s !! t = Some T →
  st_types (class_allocated t size s) !! t
  = Some (with_class (Some (length (st_classes s))) (with_class_size size T)).
Proof.
  intros HT. unfold class_allocated. rewrite upd_type_lookup, decide_True by done.
  st_simpl. rewrite list_lookup_alter_eq, HT. done.
Qed.

Lemma class_allocated_classes t size s :
  st_classes (class_allocated t size s)
  = st_classes s ++ [{| oc_type := t;
      oc_tail := replicate (Z.to_nat (size - sizeof_ObjectClass)) x00 |}].
Proof. reflexivity. Qed.

Lemma class_allocated_frame x t size s T :
  wf_state s → st_types s !! t = Some T → ti_class T = None →
  0 ≤ size < 2 ^ 64 →
  wf_state (class_allocated t size s) ∧
  build_rel x (length (st_classes s)) s (class_allocated t size s).
Proof.
  intros Hwf HT Hc Hsize. unfold class_allocated.
  set (s1 := upd_type t (with_class_size size) s).
  set (s2 := set_classes _ s1).
  assert (st_types s1 !! t = Some (with_class_size size T)) as HT1.
  { unfold s1. rewrite upd_type_lookup, decide_True by done. by rewrite HT. }
  assert (wf_state s1) as Hwf1.
  { apply wf_state_upd_type; [done|]. intros T0 HT0. simplify_eq. simpl.
    split_and!; [done | done | lia | lia |]. intros c Hc'. congruence. }
  assert (build_rel x (length (st_classes s)) s s1) as H1.
  { apply build_rel_upd_type. intros T0 HT0. simplify_eq. split_and!.
    - done.
    - simpl. rewrite Hc. by intros [].
    - simpl. rewrite Hc. done. }
  assert (wf_state s2) as Hwf2 by by apply wf_state_set_classes_app.
  assert (build_rel x (length (st_classes s)) s1 s2) as H2.
  { by apply build_rel_set_classes_app. }
  split.
  - apply wf_state_upd_type; [done|]. intros T0 HT0.
    unfold s2 in HT0. st_simpl. fold s1 in HT0. simplify_eq. simpl.
    split_and!; [done | done | lia | lia |]. intros c [= <-].
    eexists. split.
    + unfold s2, s1. st_simpl. rewrite lookup_app_r by lia.
      rewrite Nat.sub_diag. done.
    + done.
  - eapply build_rel_trans; [exact H1|]. eapply build_rel_trans; [exact H2|].
    apply build_rel_upd_type. intros T0 HT0.
    unfold s2 in HT0. st_simpl. fold s1 in HT0. simplify_eq. split_and!.
    + done.
    + simpl. rewrite Hc. by intros [].
    + simpl. intros c [= <-]. right. done.
Qed.

(** The second half of a build: base_init calls, interface synthesis,
    class_init. *)
Lemma build_hooks_frame n t c s2 T2 chain s4 T4 :
  wf_state s2 → st_types s2 !! t = Some T2 → ti_class T2 = Some c → (n ≤ c)%nat →
  for_loop (ti_num_interfaces T2) 0 (type_class_interface_init t)
    (add_events (base_init_events chain (ti_class T2) s2) s2) = Ok s4 →
  st_types s4 !! t = Some T4 →
  wf_state (add_events (class_init_events T4 (ti_class T4)) s4) ∧
  build_rel (Some t) n s2 (add_events (class_init_events T4 (ti_class T4)) s4).
Proof.
  intros Hwf HT2 Hc Hn Hloop HT4.
  eapply (synthesis_loop t n) in Hloop as (Hwf4 & Hrel & _ & _ & _ & _ & T' & HT' & Hc' & _);
    [|by apply wf_state_add_events|done].
  simplify_eq. split; [by apply wf_state_add_events|].
  eapply build_rel_trans; [|eapply build_rel_trans; [exact Hrel|]].
  - apply build_rel_add_events. rewrite Hc. by apply base_init_events_fresh.
  - apply build_rel_add_events. rewrite Hc', Hc. by apply class_init_events_fresh.
Qed.

Lemma type_class_init_frame fuel : ∀ t s s',
  wf_state s → type_class_init fuel t s = Ok s' →
  wf_state s' ∧ build_rel None (length (st_classes s)) s s'.
Proof.
  induction fuel as [|fuel IH]; intros t s s' Hwf H; [discriminate|].
  destruct (st_types s !! t) as [T|] eqn:HT;
    [|simpl in H; unfold get_type in H; rewrite HT in H; discriminate].
  destruct (ti_class T) as [c0|] eqn:Hc.
  { rewrite (type_class_init_built fuel t s T) in H by (by rewrite ?Hc).
    injection H as <-. split; [done | apply build_rel_refl]. }
  destruct (type_class_init_inv _ _ _ _ T HT Hc H)
    as (size & s2 & T2 & chain & s4 & T4 & Hsize & Hsz & Hin & HT2 & _ & Hloop & HT4 & Hs').
  subst s'. clear H.
  set (n := length (st_classes s)) in *.
  assert (0 ≤ size < 2 ^ 64) as Hrange.
  { eapply effective_class_size_range; [done|].
    by eapply type_class_get_size_effective. }
  destruct (class_allocated_frame (Some t) t size s T Hwf HT Hc Hrange) as (Hwf0 & Hrel0).
  pose proof (class_allocated_lookup t size s T HT) as HT0. fold n in HT0.
  assert (wf_state s2 ∧ build_rel (Some t) n s s2 ∧ ti_class T2 = Some n)
    as (Hwf2 & Hrel2 & Hc2).
  { inversion Hin; subst.
    - st_simpl. simplify_eq. split_and!.
      + by apply wf_state_upd_class.
      + eapply build_rel_trans; [exact Hrel0|]. by apply build_rel_upd_class.
      + done.
    - match goal with H : type_class_init fuel _ _ = Ok _ |- _ =>
        apply IH in H as (Hwf1 & Hrel1); [|done] end.
      rewrite class_allocated_classes, length_app in Hrel1. simpl in Hrel1.
      assert (st_types s1 !! t = Some (with_class (Some n) (with_class_size size T))) as HT1.
      { apply (br_frozen _ _ _ _ Hrel1); [done|done|]. simpl. eauto. }
      st_simpl. simplify_eq. split_and!.
      + by do 2 apply wf_state_upd_class.
      + eapply build_rel_trans; [exact Hrel0|].
        eapply build_rel_trans; [eapply (build_rel_weaken _ _ n); [|exact Hrel1]; lia|].
        eapply build_rel_trans; by apply build_rel_upd_class.
      + done. }
  destruct (build_hooks_frame n t n s2 T2 chain s4 T4) as (Hwf' & Hrel'); try done.
  split; [done|].
  eapply build_rel_unexempt; [done..|]. by eapply build_rel_trans.
Qed.

(** ** Copying the class of the parent *)

Lemma size_t_sub_le a b : 0 ≤ b ≤ a → a < 2 ^ 64 → size_t_sub a b = a - b.
Proof. intros. unfold size_t_sub. apply Z.mod_small. lia. Qed.

Lemma size_t_sub_wrap a b : 0 ≤ a < b → b ≤ 2 ^ 64 → size_t_sub a b = a - b + 2 ^ 64.
Proof.
  intros. unfold size_t_sub. symmetry.
  apply (Z.mod_unique _ _ (-1)); [left; lia | lia].
Qed.

(** The zeroed class object of a root type stays zeroed. *)
Lemma memset_tail_root size tail :
  sizeof_ObjectClass ≤ size < 2 ^ 64 →
  memset_tail (replicate (Z.to_nat (size - sizeof_ObjectClass)) x00)
    sizeof_ObjectClass (size_t_sub size sizeof_ObjectClass) = Ok tail →
  tail = replicate (Z.to_nat (size - sizeof_ObjectClass)) x00.
Proof.
  unfold sizeof_ObjectClass. intros Hs H.
  rewrite size_t_sub_le in H by lia. unfold memset_tail in H.
  unfold sizeof_ObjectClass in H. inv_ok. subst tail.
  replace (8 - 8) with 0 by lia. simpl.
  rewrite drop_ge by (rewrite length_replicate; lia). by rewrite app_nil_r.
Qed.

(** [memcpy] of the parent's bytes followed by [memset] of the rest. *)
Lemma memcpy_memset_tail size psize src tail tail' :
  sizeof_ObjectClass ≤ size < 2 ^ 64 → 0 ≤ psize < 2 ^ 64 → psize ≤ size →
  memcpy_tail (replicate (Z.to_nat (size - sizeof_ObjectClass)) x00) src
    (size_t_sub psize sizeof_ObjectClass) = Ok tail →
  memset_tail tail psize (size_t_sub size psize) = Ok tail' →
  sizeof_ObjectClass ≤ psize ∧
  (Z.to_nat (psize - sizeof_ObjectClass) ≤ length src)%nat ∧
  tail' = take (Z.to_nat (psize - sizeof_ObjectClass)) src
          ++ replicate (Z.to_nat (size - psize)) x00.
Proof.
  unfold sizeof_ObjectClass. intros Hs Hp Hle Hcpy Hset.
  unfold memcpy_tail in Hcpy. inv_ok.
  match goal with H : _ ∧ _ |- _ => destruct H as (Hsrc & Hdst) end.
  rewrite length_replicate in Hdst.
  assert (8 ≤ psize) as Hp8.
  { destruct (decide (8 ≤ psize)); [done|].
    rewrite size_t_sub_wrap in Hdst by lia. lia. }
  rewrite size_t_sub_le in * by lia.
  split; [done|]. split; [lia|].
  unfold memset_tail in Hset. unfold sizeof_ObjectClass in Hset. inv_ok.
  subst tail tail'.
  rewrite take_app_length' by (rewrite length_take; lia).
  rewrite drop_ge; [by rewrite app_nil_r|].
  rewrite length_app, length_take, length_drop, length_replicate. lia.
Qed.

Lemma upd_class_twice c l l' s :
  upd_class c (with_tail l') (upd_class c (with_tail l) s)
  = upd_class c (with_tail l') s.
Proof.
  unfold upd_class, set_classes. simpl. f_equal.
  rewrite list_alter_alter_eq. by apply list_alter_ext.
Qed.

(** What a build of a type without class object goes through. *)
Lemma type_class_init_anatomy fuel t s s' T :
  wf_state s → st_types s !! t = Some T → ti_class T = None →
  type_class_init (S fuel) t s = Ok s' →
  ∃ size s1 tail chain s4 T4,
    let n := length (st_classes s) in
    let s2 := upd_class n (with_tail tail) s1 in
    type_class_get_size fuel t s = Ok size ∧
    sizeof_ObjectClass ≤ size < 2 ^ 64 ∧
    wf_state s1 ∧
    build_rel None (S n) (class_allocated t size s) s1 ∧
    st_types s1 !! t = Some (with_class (Some n) (with_class_size size T)) ∧
    match ti_parent T with
    | None =>
        s1 = class_allocated t size s ∧
        tail = replicate (Z.to_nat (size - sizeof_ObjectClass)) x00
    | Some pn => ∃ p P pc pk,
        type_table_lookup pn s = Some p ∧
        type_class_init fuel p (class_allocated t size s) = Ok s1 ∧
        st_types s1 !! p = Some P ∧ ti_class P = Some pc ∧
        st_classes s1 !! pc = Some pk ∧
        sizeof_ObjectClass ≤ ti_class_size P ≤ size ∧
        (Z.to_nat (ti_class_size P - sizeof_ObjectClass) ≤ length (oc_tail pk))%nat ∧
        tail = take (Z.to_nat (ti_class_size P - sizeof_ObjectClass)) (oc_tail pk)
               ++ replicate (Z.to_nat (size - ti_class_size P)) x00
    end ∧
    parent_chain fuel (ti_parent T) s2 = Some chain ∧
    for_loop (ti_num_interfaces T) 0 (type_class_interface_init t)
      (add_events (base_init_events chain (Some n) s2) s2) = Ok s4 ∧
    st_types s4 !! t = Some T4 ∧
    s' = add_events (class_init_events T4 (Some n)) s4.
Proof.
  intros Hwf HT Hc H.
  destruct (type_class_init_inv _ _ _ _ T HT Hc H)
    as (size & s2 & T2 & chain & s4 & T4 & Hsize & Hsz & Hin & HT2 & Hchain & Hloop & HT4 & Hs').
  clear H. set (n := length (st_classes s)) in *.
  assert (0 ≤ size < 2 ^ 64) as Hrange.
  { eapply effective_class_size_range; [done|].
    by eapply type_class_get_size_effective. }
  destruct (class_allocated_frame None t size s T Hwf HT Hc Hrange) as (Hwf0 & Hrel0).
  pose proof (class_allocated_lookup t size s T HT) as HT0. fold n in HT0.
  assert (st_classes (class_allocated t size s) !! n
          = Some {| oc_type := t;
                    oc_tail := replicate (Z.to_nat (size - sizeof_ObjectClass)) x00 |}) as Hk0.
  { rewrite class_allocated_classes. unfold n.
    by rewrite lookup_app_r, Nat.sub_diag by lia. }
  assert (wf_state s2 ∧ T2 = with_class (Some n) (with_class_size size T))
    as (Hwf2 & ->).
  { inversion Hin; subst; st_simpl; simplify_eq.
    - split; [by apply wf_state_upd_class | done].
    - match goal with H : type_class_init fuel _ _ = Ok _ |- _ =>
        apply type_class_init_frame in H as (Hwf1 & Hrel1); [|done] end.
      erewrite (br_frozen _ _ _ _ Hrel1) in * by (try done; simpl; eauto).
      simplify_eq.
      split; [by do 2 apply wf_state_upd_class | done]. }
  simpl in Hchain, Hloop.
  assert (ti_class T4 = Some n) as Hc4.
  { eapply (synthesis_loop t 0) in Hloop as (_ & _ & _ & _ & _ & _ & T' & HT' & Hc' & _);
      [|by apply wf_state_add_events|done].
    simpl in Hc'. congruence. }
  rewrite Hc4 in Hs'.
  inversion Hin as [T0 k tail0 HT0' Hk0' Hset Hpar | pn p s1 P T0 pc pk k tl tl' Hp Hbuild HP HT0' Hle HcP Hpk Hk Hcpy Hset Hpar];
    subst s2; st_simpl; rewrite <- Hpar in *.
  - (* a root *)
    rewrite HT0 in HT0'. injection HT0' as <-. rewrite Hk0 in Hk0'. injection Hk0' as <-.
    simpl in Hset. apply memset_tail_root in Hset; [|lia]. subst tail0.
    exists size, (class_allocated t size s),
      (replicate (Z.to_nat (size - sizeof_ObjectClass)) x00), chain, s4, T4. simpl.
    split_and!; try done; try lia.
    apply build_rel_refl.
  - (* with a parent *)
    pose proof (type_class_init_frame _ _ _ _ Hwf0 Hbuild) as (Hwf1 & Hrel1).
    rewrite class_allocated_classes, length_app in Hrel1. simpl in Hrel1.
    fold n in Hrel1. replace (n + 1)%nat with (S n) in Hrel1 by lia.
    rewrite (br_frozen _ _ _ _ Hrel1 _ _ ltac:(done) HT0 ltac:(simpl; eauto)) in HT0'.
    injection HT0' as <-.
    rewrite (br_classes _ _ _ _ Hrel1), Hk0 in Hk by lia. injection Hk as <-.
    simpl in *.
    destruct (memcpy_memset_tail _ _ _ _ _ (conj Hsz (proj2 Hrange))
                (wf_size _ Hwf1 _ _ HP) Hle Hcpy Hset) as (Hp8 & Hlen & ->).
    rewrite upd_class_twice in *.
    exists size, s1,
      (take (Z.to_nat (ti_class_size P - sizeof_ObjectClass)) (oc_tail pk)
       ++ replicate (Z.to_nat (size - ti_class_size P)) x00), chain, s4, T4. simpl.
    split_and!; try done; try lia.
    eexists _, _, _, _. split_and!; try done; lia.
Qed.
(** ** The state in which the hooks are called *)

Lemma type_class_init_split fuel t s T :
  st_types s !! t = Some T → ti_class T = None →
  type_class_init (S fuel) t s
  = do s0 <- type_class_init_layout fuel t s; type_class_init_hooks fuel t s0.
Proof.
  intros HT Hc. cbn [type_class_init]. unfold type_class_init_layout, type_class_init_hooks.
  assert (get_type t s = Ok T) as HgT by (unfold get_type; by rewrite HT).
  rewrite !HgT. cbn [bind]. rewrite Hc.
  destruct (type_class_get_size fuel t s) as [size|]; [|reflexivity]. cbn [bind].
  destruct (class_alloc size t _) as [[c s1]|]; [|reflexivity]. cbn [bind].
  set (s2 := upd_type t (with_class (Some c)) s1).
  assert (∀ (r : result (Z * state)),
    (do (class_size, s) <- r;
     do ti <- get_type t s;
     do k <- get_class c s;
     do tail <- memset_tail (oc_tail k) class_size
                  (size_t_sub (ti_class_size ti) class_size);
     let s := upd_class c (with_tail tail) s in
     do s <- type_class_base_init fuel t (ti_parent ti) s;
     do s <- for_loop (ti_num_interfaces ti) 0 (type_class_interface_init t) s;
     do ti <- get_type t s;
     match ti_class_init ti with
     | Some h => Ok (log (EvClassInit h (ti_class ti) (ti_class_data ti)) s)
     | None => Ok s
     end)
    = (do s0 <-
         (do (class_size, s) <- r;
          do ti <- get_type t s;
          do k <- get_class c s;
          do tail <- memset_tail (oc_tail k) class_size
                       (size_t_sub (ti_class_size ti) class_size);
          Ok (upd_class c (with_tail tail) s));
       do ti <- get_type t s0;
       do s <- type_class_base_init fuel t (ti_parent ti) s0;
       do s <- for_loop (ti_num_interfaces ti) 0 (type_class_interface_init t) s;
       do ti <- get_type t s;
       match ti_class_init ti with
       | Some h => Ok (log (EvClassInit h (ti_class ti) (ti_class_data ti)) s)
       | None => Ok s
       end)) as Hrest.
  { intros [[class_size s3]|]; [|reflexivity]. cbn [bind].
    destruct (get_type t s3) as [T3|] eqn:HT3; [|reflexivity]. cbn [bind].
    destruct (get_class c s3) as [k|]; [|reflexivity]. cbn [bind].
    destruct (memset_tail _ _ _) as [tail|]; [|reflexivity]. cbn [bind].
    change (get_type t (upd_class c (with_tail tail) s3)) with (get_type t s3).
    rewrite HT3. reflexivity. }
  apply Hrest.
Qed.

Lemma inherits_layout fuel t s T size s2 :
  st_types s !! t = Some T → ti_class T = None →
  type_class_get_size fuel t s = Ok size → sizeof_ObjectClass ≤ size →
  inherits fuel t (length (st_classes s)) (class_allocated t size s) (ti_parent T) s2 →
  type_class_init_layout fuel t s = Ok s2.
Proof.
  intros HT Hc Hsize Hsz Hin. unfold type_class_init_layout.
  unfold get_type at 1. rewrite HT. cbn [nonnull bind]. rewrite Hsize. cbn [bind].
  unfold class_alloc. rewrite decide_True by done. cbn [bind].
  change (upd_type t
            (with_class (Some (length (st_classes (upd_type t (with_class_size size) s)))))
            (set_classes
               (fun l => l ++ [{| oc_type := t;
                    oc_tail := replicate (Z.to_nat (size - sizeof_ObjectClass)) x00 |}])
               (upd_type t (with_class_size size) s)))
    with (class_allocated t size s).
  change (length (st_classes (upd_type t (with_class_size size) s)))
    with (length (st_classes s)).
  inversion Hin as [T0 k tail HT0 Hk Hset Hpar
                   | pn p s1 P T0 pc pk k tl tl' Hp Hbuild HP HT0 Hle HcP Hpk Hk Hcpy Hset Hpar];
    subst s2.
  - cbn [bind]. unfold get_type, get_class. rewrite HT0, Hk. cbn [nonnull bind].
    rewrite Hset. reflexivity.
  - assert (type_get_by_name (Some pn) (class_allocated t size s) = Some p) as ->
      by exact Hp.
    cbn [nonnull bind]. rewrite Hbuild. cbn [bind].
    unfold get_type, get_class. rewrite HP, HT0. cbn [nonnull bind].
    rewrite bool_decide_eq_true_2 by done. cbn [g_assert bind].
    rewrite HcP. cbn [nonnull bind]. rewrite Hpk, Hk. cbn [nonnull bind].
    rewrite Hcpy. cbn [bind].
    change (st_types (upd_class (length (st_classes s)) (with_tail tl) s1))
      with (st_types s1).
    rewrite HT0. cbn [nonnull bind]. st_simpl.
    rewrite list_lookup_alter_eq, Hk. cbn [fmap option_fmap option_map nonnull bind
                                            oc_tail with_tail].
    rewrite Hset. reflexivity.
Qed.

(** A build of a type without class object reaches its hooks in the state
    that [type_class_init_layout] returns: the class object of the type is
    the last one allocated before the class of the parent was ensured, and
    holds the bytes of the class of the parent followed by zeros. *)
Lemma type_class_init_pre_hooks fuel t s s' T :
  wf_state s → st_types s !! t = Some T → ti_class T = None →
  type_class_init (S fuel) t s = Ok s' →
  ∃ size s1 tail,
    let n := length (st_classes s) in
    let s0 := upd_class n (with_tail tail) s1 in
    type_class_init_layout fuel t s = Ok s0 ∧
    type_class_init_hooks fuel t s0 = Ok s' ∧
    type_class_get_size fuel t s = Ok size ∧
    sizeof_ObjectClass ≤ size < 2 ^ 64 ∧
    wf_state s1 ∧
    build_rel None (S n) (class_allocated t size s) s1 ∧
    st_types s1 !! t = Some (with_class (Some n) (with_class_size size T)) ∧
    st_classes s1 !! n
      = Some {| oc_type := t;
                oc_tail := replicate (Z.to_nat (size - sizeof_ObjectClass)) x00 |} ∧
    match ti_parent T with
    | None =>
        s1 = class_allocated t size s ∧
        tail = replicate (Z.to_nat (size - sizeof_ObjectClass)) x00
    | Some pn => ∃ p P pc pk,
        type_table_lookup pn s = Some p ∧
        type_class_init fuel p (class_allocated t size s) = Ok s1 ∧
        st_types s1 !! p = Some P ∧ ti_class P = Some pc ∧
        st_classes s1 !! pc = Some pk ∧
        sizeof_ObjectClass ≤ ti_class_size P ≤ size ∧
        (Z.to_nat (ti_class_size P - sizeof_ObjectClass) ≤ length (oc_tail pk))%nat ∧
        tail = take (Z.to_nat (ti_class_size P - sizeof_ObjectClass)) (oc_tail pk)
               ++ replicate (Z.to_nat (size - ti_class_size P)) x00
    end.
Proof.
  intros Hwf HT Hc H.
  destruct (type_class_init_inv _ _ _ _ T HT Hc H)
    as (size & s2 & T2 & chain & s4 & T4 & Hsize & Hsz & Hin & _).
  pose proof (inherits_layout _ _ _ _ _ _ HT Hc Hsize Hsz Hin) as Hlay.
  rewrite (type_class_init_split _ _ _ _ HT Hc), Hlay in H. cbn [bind] in H.
  set (n := length (st_classes s)) in *.
  assert (0 ≤ size < 2 ^ 64) as Hrange.
  { eapply effective_class_size_range; [done|].
    by eapply type_class_get_size_effective. }
  destruct (class_allocated_frame None t size s T Hwf HT Hc Hrange) as (Hwf0 & Hrel0).
  pose proof (class_allocated_lookup t size s T HT) as HT0. fold n in HT0.
  assert (st_classes (class_allocated t size s) !! n
          = Some {| oc_type := t;
                    oc_tail := replicate (Z.to_nat (size - sizeof_ObjectClass)) x00 |}) as Hk0.
  { rewrite class_allocated_classes. unfold n.
    by rewrite lookup_app_r, Nat.sub_diag by lia. }
  inversion Hin as [T0 k tail0 HT0' Hk0' Hset Hpar
                   | pn p s1 P T0 pc pk k tl tl' Hp Hbuild HP HT0' Hle HcP Hpk Hk Hcpy Hset Hpar];
    subst s2; rewrite <- Hpar in *.
  - (* a root *)
    rewrite HT0 in HT0'. injection HT0' as <-. rewrite Hk0 in Hk0'. injection Hk0' as <-.
    cbn [oc_tail ti_class_size with_class with_class_size] in Hset.
    apply memset_tail_root in Hset; [|lia]. subst tail0.
    exists size, (class_allocated t size s),
      (replicate (Z.to_nat (size - sizeof_ObjectClass)) x00).
    cbn zeta. fold n.
    split_and!;
      [done | done | done | done | lia | done | apply build_rel_refl | done.. ].
  - (* with a parent *)
    pose proof (type_class_init_frame _ _ _ _ Hwf0 Hbuild) as (Hwf1 & Hrel1).
    rewrite class_allocated_classes, length_app in Hrel1. cbn [length] in Hrel1.
    fold n in Hrel1. replace (n + 1)%nat with (S n) in Hrel1 by lia.
    rewrite (br_frozen _ _ _ _ Hrel1 _ _ ltac:(done) HT0 ltac:(simpl; eauto)) in HT0'.
    injection HT0' as <-.
    rewrite (br_classes _ _ _ _ Hrel1), Hk0 in Hk by lia. injection Hk as <-.
    cbn [oc_tail ti_class_size with_class with_class_size] in Hcpy, Hset, Hle.
    destruct (memcpy_memset_tail _ _ _ _ _ (conj Hsz (proj2 Hrange))
                (wf_size _ Hwf1 _ _ HP) Hle Hcpy Hset) as (Hp8 & Hlen & ->).
    rewrite upd_class_twice in *.
    exists size, s1,
      (take (Z.to_nat (ti_class_size P - sizeof_ObjectClass)) (oc_tail pk)
       ++ replicate (Z.to_nat (size - ti_class_size P)) x00).
    cbn zeta. fold n.
    split_and!; [done | done | done | done | lia | done | done | | | ].
    + exact (br_frozen _ _ _ _ Hrel1 _ _ ltac:(done) HT0 ltac:(simpl; eauto)).
    + by rewrite (br_classes _ _ _ _ Hrel1) by lia.
    + eexists _, _, _, _. split_and!; try done; lia.
Qed.

(** ** Parent chains *)

Lemma static_base_init U U' : static U' = static U → ti_base_init U' = ti_base_init U.
Proof. intros H. by apply (f_equal ti_base_init) in H. Qed.

Lemma static_class_init U U' :
  static U' = static U →
  ti_class_init U' = ti_class_init U ∧ ti_class_data U' = ti_class_data U.
Proof.
  intros H. split;
    [by apply (f_equal ti_class_init) in H | by apply (f_equal ti_class_data) in H].
Qed.

Lemma static_num_interfaces U U' :
  static U' = static U → ti_num_interfaces U' = ti_num_interfaces U.
Proof. intros H. by apply (f_equal ti_num_interfaces) in H. Qed.

Lemma parent_chain_elem fuel name s chain u :
  parent_chain fuel name s = Some chain → u ∈ chain → is_Some (st_types s !! u).
Proof.
  revert name chain. induction fuel as [|fuel IH]; intros name chain H Hu; [done|].
  simpl in H. destruct name as [n|]; [|by simplify_eq; set_solver].
  simplify_option_eq. apply elem_of_app in Hu as [Hu|Hu]; [eauto|].
  apply list_elem_of_singleton in Hu as ->. eauto.
Qed.

(** A step that keeps the type table and the static parts of the
    descriptors keeps the parent chains. *)
Lemma parent_chain_mono x n fuel name s s' chain :
  build_rel x n s s' →
  parent_chain fuel name s = Some chain → parent_chain fuel name s' = Some chain.
Proof.
  intros Hrel. revert name chain.
  induction fuel as [|fuel IH]; intros name chain H; [done|].
  simpl in *. destruct name as [nm|]; [|done].
  simplify_option_eq.
  match goal with H : type_table_lookup nm s = Some ?u |- _ =>
    assert (type_table_lookup nm s' = Some u) as ->
      by (eapply lookup_weaken; [exact H | apply Hrel]) end.
  simpl.
  match goal with H : st_types s !! _ = Some ?U |- _ =>
    destruct (br_static _ _ _ _ Hrel _ _ H) as (U' & -> & HU') end.
  simpl. rewrite (static_parent _ _ HU').
  by erewrite IH.
Qed.

Lemma base_init_events_mono x n chain k s s' :
  build_rel x n s s' → (∀ u, u ∈ chain → is_Some (st_types s !! u)) →
  base_init_events chain k s' = base_init_events chain k s.
Proof.
  intros Hrel Hall. unfold base_init_events.
  apply list_omap_ext, Forall2_same_length_lookup. split; [done|].
  intros i u u' Hu Hu'. simplify_eq.
  destruct (Hall u) as [U HU]; [by eapply list_elem_of_lookup_2|].
  destruct (br_static _ _ _ _ Hrel _ _ HU) as (U' & HU' & Hst).
  rewrite HU, HU'. simpl. by rewrite (static_base_init _ _ Hst).
Qed.

Lemma parent_chain_det fuel fuel' name s l l' :
  parent_chain fuel name s = Some l → parent_chain fuel' name s = Some l' → l = l'.
Proof.
  revert fuel' name l l'.
  induction fuel as [|fuel IH]; intros [|fuel'] name l l' H H'; try done.
  simpl in *. destruct name; [|congruence].
  simplify_option_eq. f_equal. eauto.
Qed.

Lemma parent_chain_split fuel name s chain u U :
  parent_chain fuel name s = Some chain → u ∈ chain → st_types s !! u = Some U →
  ∃ fuel' l1 l2, parent_chain fuel' (ti_parent U) s = Some l1 ∧ chain = l1 ++ u :: l2.
Proof.
  revert name chain. induction fuel as [|fuel IH]; intros name chain H Hu HU; [done|].
  simpl in H. destruct name as [n|]; [|by simplify_eq; set_solver].
  simplify_option_eq. apply elem_of_app in Hu as [Hu|Hu].
  - match goal with H : parent_chain fuel _ s = Some _ |- _ =>
      destruct (IH _ _ H Hu HU) as (fuel' & l1 & l2 & Hl1 & ->) end.
    eexists fuel', l1, (l2 ++ [_]). split; [done|]. by rewrite <- app_assoc.
  - apply list_elem_of_singleton in Hu as ->. simplify_eq.
    eexists fuel, _, []. split; done.
Qed.

Lemma parent_chain_not_in fuel s u U chain :
  st_types s !! u = Some U →
  parent_chain fuel (ti_parent U) s = Some chain → u ∉ chain.
Proof.
  intros HU H Hu.
  destruct (parent_chain_split _ _ _ _ _ _ H Hu HU) as (fuel' & l1 & l2 & Hl1 & E).
  assert (l1 = chain) as -> by by eapply parent_chain_det.
  apply (f_equal length) in E. rewrite length_app in E. simpl in E. lia.
Qed.

Lemma parent_chain_NoDup fuel name s chain :
  parent_chain fuel name s = Some chain → NoDup chain.
Proof.
  revert name chain. induction fuel as [|fuel IH]; intros name chain H; [done|].
  simpl in H. destruct name as [n|]; [|simplify_eq; constructor].
  simplify_option_eq. apply NoDup_app. split_and!.
  - eauto.
  - intros u Hu Hu'. apply list_elem_of_singleton in Hu' as ->.
    eapply parent_chain_not_in; eauto.
  - apply NoDup_singleton.
Qed.

(** ** Checking well-formedness by computation *)

Lemma wf_check_sound s : wf_check s = true → wf_state s.
Proof.
  unfold wf_check. intros H. apply andb_true_iff in H as [Hn Ht].
  rewrite forallb_forall in Hn, Ht.
  assert (∀ t T, st_types s !! t = Some T → type_ok s t T = true) as Hok.
  { intros t T HT. apply (Ht (t, T)). apply list_elem_of_In.
    apply list_elem_of_lookup. exists t. by rewrite list_lookup_imap, HT. }
  clear Ht. split.
  - intros n Hcount. destruct (st_type_table s !! anonymous_name n) as [p|] eqn:E; [|done].
    exfalso. apply elem_of_map_to_list in E.
    specialize (Hn (anonymous_name n)).
    rewrite <- list_elem_of_In in Hn.
    assert (name_ok (st_count s) (anonymous_name n) = true) as Hnm.
    { apply Hn. apply list_elem_of_fmap. by exists (anonymous_name n, p). }
    unfold name_ok in Hnm. unfold anonymous_name at 1 in Hnm. simpl in Hnm.
    apply bool_decide_eq_true in Hnm.
    apply list_elem_of_fmap in Hnm as (k & Hk & Hin).
    apply anonymous_name_inj in Hk. apply elem_of_seq in Hin. lia.
  - intros t T c HT Hc. specialize (Hok _ _ HT).
    unfold type_ok in Hok. rewrite !andb_true_iff in Hok.
    destruct Hok as [[_ Hk] _]. rewrite Hc in Hk.
    apply bool_decide_eq_true in Hk.
    destruct (st_classes s !! c) as [k|]; [|done]. simpl in Hk.
    injection Hk as Hk. eauto.
  - intros t T HT. specialize (Hok _ _ HT).
    unfold type_ok in Hok. rewrite !andb_true_iff in Hok.
    destruct Hok as [[Hz _] _]. by apply bool_decide_eq_true in Hz.
  - intros t T i e a HT He Ha. specialize (Hok _ _ HT).
    unfold type_ok in Hok. rewrite !andb_true_iff in Hok.
    destruct Hok as [_ Hi]. rewrite forallb_forall in Hi.
    specialize (Hi e). rewrite <- list_elem_of_In in Hi.
    specialize (Hi (list_elem_of_lookup_2 _ _ _ He)).
    unfold iface_ok in Hi. rewrite Ha in Hi. apply bool_decide_eq_true in Hi.
    destruct (st_types s !! a) as [A|]; [|done]. simpl in Hi.
    injection Hi as Htb Hp. eauto.
Qed.

Lemma wf_chain_registry : wf_state (from_ok chain_registry).
Proof. apply wf_check_sound. vm_compute. reflexivity. Qed.

(** ** Inherited class layout *)

Lemma class_byte_lookup k off :
  sizeof_ObjectClass ≤ off →
  class_byte k off = oc_tail k !! Z.to_nat (off - sizeof_ObjectClass).
Proof. intros. unfold class_byte. by rewrite decide_True. Qed.

(** C3: building the class of a type [t] with registered parent [p]
    ensures the class of [p] first; it aborts on the assertion when the
    class of [p] is larger than the class of [t]; otherwise, in the state
    [s0] that the build has reached after the copy and the [memset], when
    it goes on to call the hooks, the bytes
    [sizeof_ObjectClass, P.class_size) of the class of [t] are those of the
    class of [p] and the bytes [P.class_size, T.class_size) are zero.  The
    two class objects are compared as they are in [s0], whatever the class
    of [p] holds by then.  The class size of [t] is the one found by
    walking up the ancestors. *)
Theorem type_class_init_inherits_layout fuel t s T pn p :
  wf_state s → st_types s !! t = Some T → ti_class T = None →
  ti_parent T = Some pn → type_table_lookup pn s = Some p →
  (∀ size s1 P,
     type_class_get_size fuel t s = Ok size → sizeof_ObjectClass ≤ size →
     type_class_init fuel p (class_allocated t size s) = Ok s1 →
     st_types s1 !! p = Some P → size < ti_class_size P →
     type_class_init (S fuel) t s = Err AssertFail) ∧
  (∀ s', type_class_init (S fuel) t s = Ok s' →
     ∃ s0 T' P c pc k pk,
       type_class_init_layout fuel t s = Ok s0 ∧
       type_class_init_hooks fuel t s0 = Ok s' ∧
       st_types s0 !! t = Some T' ∧ st_types s0 !! p = Some P ∧
       ti_class T' = Some c ∧ ti_class P = Some pc ∧
       st_classes s0 !! c = Some k ∧ st_classes s0 !! pc = Some pk ∧
       oc_type k = t ∧
       effective_class_size s t (ti_class_size T') ∧
       sizeof_ObjectClass ≤ ti_class_size P ≤ ti_class_size T' ∧
       (∀ off, sizeof_ObjectClass ≤ off < ti_class_size P →
               is_Some (class_byte pk off) ∧ class_byte k off = class_byte pk off) ∧
       (∀ off, ti_class_size P ≤ off < ti_class_size T' →
               class_byte k off = Some x00)).
Proof.
  intros Hwf HT Hc Hp Hlook. split.
  - intros size s1 P Hsize Hsz Hbuild HP Hlt.
    assert (0 ≤ size < 2 ^ 64) as Hrange.
    { eapply effective_class_size_range; [done|].
      by eapply type_class_get_size_effective. }
    destruct (class_allocated_frame None t size s T Hwf HT Hc Hrange) as (Hwf0 & Hrel0).
    pose proof (type_class_init_frame _ _ _ _ Hwf0 Hbuild) as (Hwf1 & Hrel1).
    pose proof (class_allocated_lookup t size s T HT) as HT0.
    pose proof (br_frozen _ _ _ _ Hrel1 _ _ ltac:(done) HT0 ltac:(simpl; eauto)) as HT1.
    simpl. unfold get_type. rewrite HT. simpl. rewrite Hc, Hsize. simpl.
    unfold class_alloc. rewrite decide_True by done. simpl. rewrite Hp.
    fold (class_allocated t size s).
    assert (type_get_by_name (Some pn) (class_allocated t size s) = Some p) as ->
      by exact Hlook.
    simpl. rewrite Hbuild. simpl. rewrite HP. simpl. rewrite HT1. simpl.
    rewrite bool_decide_eq_false_2 by lia. done.
  - intros s' H.
    destruct (type_class_init_pre_hooks _ _ _ _ _ Hwf HT Hc H)
      as (size & s1 & tail & Hlay & Hhooks & Hsize & Hsz & Hwf1 & Hrel1 & HT1 & Hk0 & Hpar).
    rewrite Hp in Hpar.
    destruct Hpar as (p' & P & pc & pk & Hlook' & Hbuild & HP & HcP & Hpk & HszP & Hlen & ->).
    assert (p' = p) as -> by congruence.
    set (n := length (st_classes s)) in *.
    set (tail := take _ _ ++ replicate _ _) in *.
    assert (length tail = Z.to_nat (size - sizeof_ObjectClass)) as Hltail.
    { unfold tail. rewrite length_app, length_take, length_replicate. lia. }
    exists (upd_class n (with_tail tail) s1),
      (with_class (Some n) (with_class_size size T)), P, n, pc,
      (with_tail tail
         {| oc_type := t;
            oc_tail := replicate (Z.to_nat (size - sizeof_ObjectClass)) x00 |}),
      (if decide (n = pc) then with_tail tail pk else pk).
    cbn [st_types st_classes upd_class set_classes ti_class ti_class_size with_class
         with_class_size oc_type with_tail].
    split_and!; [done | done | done | done | done | done | | | done | | lia | lia | |].
    + by rewrite list_lookup_alter_eq, Hk0.
    + rewrite list_lookup_alter. case_decide; [subst pc|done]. by rewrite Hpk.
    + by eapply type_class_get_size_effective.
    + intros off Hoff.
      rewrite !class_byte_lookup by lia. case_decide; cbn [oc_tail with_tail].
      * split; [|done]. apply lookup_lt_is_Some_2. lia.
      * split; [apply lookup_lt_is_Some_2; lia|].
        unfold tail. rewrite lookup_app_l by (rewrite length_take; lia).
        apply lookup_take_lt. lia.
    + intros off Hoff.
      rewrite class_byte_lookup by lia. cbn [oc_tail with_tail]. unfold tail.
      rewrite lookup_app_r by (rewrite length_take; lia).
      apply lookup_replicate_2. rewrite length_take. lia.
Qed.

Lemma wf_painted_registry : wf_state painted_registry.
Proof. apply wf_check_sound. vm_compute. reflexivity. Qed.

(** Leaf (class_size 24) is built over Mid, which inherits the sixteen
    bytes of Root: when the hooks of Leaf are called, bytes 8 to 15 of the
    class of Leaf are the painted bytes of Root and bytes 16 to 23 are
    zero. *)
Lemma type_class_init_inherits_layout_witness :
  ∃ s0 T' P c pc k pk,
    type_class_init_layout 9 3 painted_registry = Ok s0 ∧
    type_class_init_hooks 9 3 s0 = Ok (from_ok (type_class_init 10 3 painted_registry)) ∧
    st_types s0 !! 3%nat = Some T' ∧ st_types s0 !! 2%nat = Some P ∧
    ti_class T' = Some c ∧ ti_class P = Some pc ∧
    st_classes s0 !! c = Some k ∧ st_classes s0 !! pc = Some pk ∧
    oc_type k = 3%nat ∧
    effective_class_size painted_registry 3 (ti_class_size T') ∧
    sizeof_ObjectClass ≤ ti_class_size P ≤ ti_class_size T' ∧
    (∀ off, sizeof_ObjectClass ≤ off < ti_class_size P →
            is_Some (class_byte pk off) ∧ class_byte k off = class_byte pk off) ∧
    (∀ off, ti_class_size P ≤ off < ti_class_size T' →
            class_byte k off = Some x00).
Proof.
  eapply (type_class_init_inherits_layout 9 3 painted_registry _ "Mid" 2).
  - exact wf_painted_registry.
  - vm_compute. reflexivity.
  - reflexivity.
  - reflexivity.
  - vm_compute. reflexivity.
  - vm_compute. reflexivity.
Defined.

(** ** Order of the class hooks *)

Lemma class_init_events_static U U' k :
  static U' = static U → class_init_events U' k = class_init_events U k.
Proof.
  intros H. unfold class_init_events.
  destruct (static_class_init _ _ H) as [-> ->]. done.
Qed.

(** The trace of the first class build of [t], whose class object is the
    next one allocated. *)
Lemma type_class_init_trace fuel t s s' T :
  wf_state s → st_types s !! t = Some T → ti_class T = None →
  type_class_init (S fuel) t s = Ok s' →
  ∃ chain pre a0,
    ti_class <$> (st_types s' !! t) = Some (Some (length (st_classes s))) ∧
    parent_chain fuel (ti_parent T) s' = Some chain ∧
    NoDup chain ∧ (t ∉ chain) ∧
    st_trace s' = st_trace s ++ pre
                  ++ base_init_events chain (Some (length (st_classes s))) s'
                  ++ (EvRegistered <$> seq a0 (ti_num_interfaces T))
                  ++ class_init_events T (Some (length (st_classes s))) ∧
    Forall (fun e => event_class e ≠ Some (length (st_classes s))) pre.
Proof.
  intros Hwf HT Hc H.
  destruct (type_class_init_anatomy _ _ _ _ _ Hwf HT Hc H)
    as (size & s1 & tail & chain & s4 & T4 & Hsize & Hsz & Hwf1 & Hrel1 & HT1
        & _ & Hchain & Hloop & HT4 & ->).
  clear H. set (n := length (st_classes s)) in *.
  set (s2 := upd_class n (with_tail tail) s1) in *.
  assert (wf_state s2) as Hwf2 by by apply wf_state_upd_class.
  assert (st_types s2 !! t = Some (with_class (Some n) (with_class_size size T))) as HT2
    by done.
  destruct (build_hooks_frame n t n s2 _ chain s4 T4 Hwf2 HT2 eq_refl (le_n _) Hloop HT4)
    as (_ & Hrel).
  eapply (synthesis_loop t 0) in Hloop
    as (_ & _ & _ & Htr4 & _ & _ & T' & HT' & Hc' & _ & Hst' & _);
    [|by apply wf_state_add_events|exact HT2].
  simpl in Hc', Htr4. assert (T' = T4) as -> by congruence.
  assert (static T4 = static T) as Hst by (by rewrite Hst').
  rewrite Hc' in Hrel. clear Hst' HT'.
  destruct (br_trace _ _ _ _ Hrel1) as (pre & Htr1 & Hpre).
  exists chain, pre, (length (st_types s1)).
  split_and!.
  - st_simpl. rewrite HT4. simpl. by rewrite Hc'.
  - exact (parent_chain_mono _ _ _ _ _ _ _ Hrel Hchain).
  - by eapply parent_chain_NoDup.
  - by eapply (parent_chain_not_in fuel s2 t _ chain HT2).
  - simpl. rewrite Htr4. simpl. rewrite Htr1. simpl.
    rewrite (base_init_events_mono _ _ _ _ _ _ Hrel)
      by (intros u Hu; by eapply parent_chain_elem).
    rewrite (class_init_events_static T T4) by done.
    by rewrite <- !app_assoc.
  - eapply Forall_impl; [exact Hpre|]. intros e He Hce.
    specialize (He _ Hce). lia.
Qed.

(** C2 (as the code has it): the first class build of a type [t] runs,
    after whatever the builds of its ancestors' classes run on their own
    class objects, the base_init hook of every proper ancestor of [t] where
    present, once, root first, each on the class object of [t]; then it
    registers the synthesized interface types; then it runs the class_init
    of [t] on its class object and class_data.  The base_init of [t] itself
    is not run on the class of [t]. *)
Theorem type_class_init_hook_order fuel t s s' T :
  wf_state s → st_types s !! t = Some T → ti_class T = None →
  type_class_init (S fuel) t s = Ok s' →
  ∃ c chain pre a0,
    ti_class <$> (st_types s' !! t) = Some (Some c) ∧
    parent_chain fuel (ti_parent T) s' = Some chain ∧
    NoDup chain ∧ (t ∉ chain) ∧
    st_trace s' = st_trace s ++ pre
                  ++ base_init_events chain (Some c) s'
                  ++ (EvRegistered <$> seq a0 (ti_num_interfaces T))
                  ++ class_init_events T (Some c) ∧
    Forall (fun e => event_class e ≠ Some c) pre.
Proof.
  intros Hwf HT Hc H.
  destruct (type_class_init_trace _ _ _ _ _ Hwf HT Hc H)
    as (chain & pre & a0 & Hcls & Hchain & Hnd & Hnin & Htr & Hpre).
  by exists (length (st_classes s)), chain, pre, a0.
Qed.

Lemma type_class_init_hook_order_witness :
  ∃ c chain pre a0,
    ti_class <$> (st_types (from_ok (type_class_init 10 3 (from_ok chain_registry))) !! 3%nat)
      = Some (Some c) ∧
    parent_chain 9 (ti_parent Leaf_type)
      (from_ok (type_class_init 10 3 (from_ok chain_registry))) = Some chain ∧
    NoDup chain ∧ (3%nat ∉ chain) ∧
    st_trace (from_ok (type_class_init 10 3 (from_ok chain_registry)))
      = st_trace (from_ok chain_registry) ++ pre
        ++ base_init_events chain (Some c)
             (from_ok (type_class_init 10 3 (from_ok chain_registry)))
        ++ (EvRegistered <$> seq a0 (ti_num_interfaces Leaf_type))
        ++ class_init_events Leaf_type (Some c) ∧
    Forall (fun e => event_class e ≠ Some c) pre.
Proof.
  apply (type_class_init_hook_order 9 3 (from_ok chain_registry) _ Leaf_type).
  - exact wf_chain_registry.
  - vm_compute. reflexivity.
  - reflexivity.
  - vm_compute. reflexivity.
Defined.

(** The run on Root -> Mid -> Leaf: on the class of Leaf (object 0) the
    base_init hooks of Root (11) and Mid (21) run, in this order, then the
    class_init of Leaf (32); the base_init of Leaf (31) never runs. *)
Lemma base_init_skips_the_type_itself :
  info_base_init Leaf_info = Some 31%nat ∧
  (do s <- chain_registry;
   do s' <- type_class_init 10 3 s;
   Ok (events_since s s'))
  = Ok [EvClassInit 12 (Some 2) 10; EvBaseInit 11 (Some 1);
        EvClassInit 22 (Some 1) 20; EvBaseInit 11 (Some 0);
        EvBaseInit 21 (Some 0); EvClassInit 32 (Some 0) 30]%nat.
Proof. split; vm_compute; reflexivity. Qed.

(** ** Synthesized interface types *)

(** Building the class of [t] registers, for the interface entries of [t]
    in their order, one anonymous type each, the last descriptors of the
    registry; the descriptor of entry [i] has the parent, the instance size
    of a trampoline, the class size of an interface class and the class_init
    that the entry declares, and its pointer is stored in the entry.  Its
    abstract flag is the zero that g_malloc0 left. *)
Lemma type_class_init_synthesizes_interfaces fuel t s s' T :
  wf_state s → st_types s !! t = Some T → ti_class T = None →
  type_class_init (S fuel) t s = Ok s' →
  ∃ T' a0 n0,
    st_types s' !! t = Some T' ∧
    (length (st_types s) ≤ a0)%nat ∧
    length (st_types s') = (a0 + ti_num_interfaces T)%nat ∧
    ∀ i, (i < ti_num_interfaces T)%nat →
      ∃ e A,
        ti_interfaces T !! i = Some e ∧
        ti_interfaces T' !! i = Some (with_if_type (Some (a0 + i)%nat) e) ∧
        st_types s' !! (a0 + i)%nat = Some A ∧
        st_type_table s' !! ti_name A = Some (a0 + i)%nat ∧
        A = anonymous_type e (n0 + Z.of_nat i) ∧
        ti_parent A = if_parent e ∧
        ti_instance_size A = sizeof_Interface ∧
        ti_class_size A = sizeof_InterfaceClass ∧
        ti_abstract A = false ∧
        ti_class_init A = if_interface_initfn e.
Proof.
  intros Hwf HT Hc H.
  destruct (type_class_init_anatomy _ _ _ _ _ Hwf HT Hc H)
    as (size & s1 & tail & chain & s4 & T4 & Hsize & Hsz & Hwf1 & Hrel1 & HT1
        & _ & Hchain & Hloop & HT4 & ->).
  clear H. set (n := length (st_classes s)) in *.
  set (s2 := upd_class n (with_tail tail) s1) in *.
  assert (wf_state s2) as Hwf2 by by apply wf_state_upd_class.
  assert (st_types s2 !! t = Some (with_class (Some n) (with_class_size size T))) as HT2
    by done.
  eapply (synthesis_loop t 0) in Hloop
    as (_ & _ & _ & _ & Hlen & _ & T' & HT' & _ & _ & _ & Hif & Han);
    [|by apply wf_state_add_events|exact HT2].
  simpl in Hlen, Hif, Han. assert (T' = T4) as -> by congruence.
  exists T4, (length (st_types s1)), (st_count s1). split_and!.
  - done.
  - pose proof (br_types_len _ _ _ _ Hrel1) as Hl.
    unfold class_allocated in Hl. simpl in Hl. rewrite !length_alter in Hl. done.
  - done.
  - intros i Hi. destruct (Han i) as (e & He & HA & Hn); [lia|].
    rewrite Nat.sub_0_r in *.
    exists e, (anonymous_type e (st_count s1 + Z.of_nat i)).
    split_and!; try done.
    rewrite (Hif i e He). rewrite decide_True by lia. by rewrite Nat.sub_0_r.
Qed.

Lemma wf_iface_registry : wf_state (from_ok iface_registry).
Proof. apply wf_check_sound. vm_compute. reflexivity. Qed.

Lemma type_class_init_synthesizes_interfaces_witness :
  ∃ T' a0 n0,
    st_types (from_ok (type_class_init 10 2 (from_ok iface_registry))) !! 2%nat = Some T' ∧
    (length (st_types (from_ok iface_registry)) ≤ a0)%nat ∧
    length (st_types (from_ok (type_class_init 10 2 (from_ok iface_registry))))
      = (a0 + 1)%nat ∧
    ∀ i, (i < 1)%nat →
      ∃ e A,
        (<[0%nat := {| if_parent := Some "iface_a"; if_interface_initfn := Some 77%nat;
                       if_type := None |}]> (replicate MAX_INTERFACES zero_interface))
          !! i = Some e ∧
        ti_interfaces T' !! i = Some (with_if_type (Some (a0 + i)%nat) e) ∧
        st_types (from_ok (type_class_init 10 2 (from_ok iface_registry))) !! (a0 + i)%nat
          = Some A ∧
        st_type_table (from_ok (type_class_init 10 2 (from_ok iface_registry))) !! ti_name A
          = Some (a0 + i)%nat ∧
        A = anonymous_type e (n0 + Z.of_nat i) ∧
        ti_parent A = if_parent e ∧
        ti_instance_size A = sizeof_Interface ∧
        ti_class_size A = sizeof_InterfaceClass ∧
        ti_abstract A = false ∧
        ti_class_init A = if_interface_initfn e.
Proof.
  apply (type_class_init_synthesizes_interfaces 9 2 (from_ok iface_registry) _
           {| ti_name := "impl"; ti_class_size := 8; ti_instance_size := 16;
              ti_base_init := Some 41%nat; ti_base_finalize := None;
              ti_class_init := Some 42%nat; ti_class_finalize := None;
              ti_class_data := 40; ti_instance_init := Some 43%nat;
              ti_instance_finalize := Some 44%nat; ti_abstract := false;
              ti_parent := None; ti_class := None;
              ti_num_interfaces := 1;
              ti_interfaces :=
                <[0%nat := {| if_parent := Some "iface_a";
                              if_interface_initfn := Some 77%nat;
                              if_type := None |}]>
                  (replicate MAX_INTERFACES zero_interface) |}).
  - exact wf_iface_registry.
  - vm_compute. reflexivity.
  - reflexivity.
  - vm_compute. reflexivity.
Defined.

(** C6, at the registry of "impl": [type_class_interface_init] fills a
    TypeInfo with [abstract = true], and [type_register_anonymous], unlike
    [type_register_static], does not copy the flag.  The descriptor
    registered for the interface entry of "impl" has the parent and the
    class_init of the declaration, and is not abstract. *)
Theorem synthesized_type_is_not_abstract :
  (do s <- iface_registry;
   do s <- type_class_init 10 2 s;
   do T <- get_type 2 s;
   do e <- nonnull (ti_interfaces T !! 0%nat);
   do a <- nonnull (if_type e);
   do A <- get_type a s;
   Ok (a, ti_name A, ti_parent A, ti_class_init A, ti_abstract A))
  = Ok (3%nat, "<anonymous-0>", Some "iface_a", Some 77%nat, false).
Proof. vm_compute. reflexivity. Qed.

(** ** Registration *)

Lemma copy_interfaces_Ok l : ∀ i ti,
  (i + length l ≤ MAX_INTERFACES)%nat →
  ∃ ti', copy_interfaces l i ti = Ok ti' ∧ ti_name ti' = ti_name ti ∧
         ti_num_interfaces ti' = (ti_num_interfaces ti + length l)%nat.
Proof.
  induction l as [|e l IH]; intros i ti Hi; simpl in *.
  - exists ti. split_and!; [done | done | lia].
  - rewrite decide_True by lia.
    destruct (IH (S i) (with_interfaces (S (ti_num_interfaces ti))
      (alter (fun slot => {| if_parent := Some (ii_type e);
                             if_interface_initfn := ii_interface_initfn e;
                             if_type := if_type slot |}) i (ti_interfaces ti)) ti))
      as (ti' & -> & Hn & Hc); [lia|].
    exists ti'. split_and!; [done | done | simpl in Hc; lia].
Qed.

(** C7 (as the code has it): registering a type under a name that is
    already in the registry is not an error.  The registration succeeds, the
    new descriptor is allocated after the existing ones, which stay as they
    are, and the entry of the name is replaced: the name resolves to the new
    descriptor, every other name resolves as before.  The registry is a map:
    it holds one descriptor per name. *)
Theorem type_register_static_replaces info name old s :
  info_name info = Some name →
  (∀ l, info_interfaces info = Some l → (length l ≤ MAX_INTERFACES)%nat) →
  type_table_lookup name s = Some old →
  ∃ s' T,
    type_register_static info s = Ok (length (st_types s), s') ∧
    st_types s' = st_types s ++ [T] ∧ ti_name T = name ∧
    type_table_lookup name s' = Some (length (st_types s)) ∧
    (∀ other, other ≠ name →
              type_table_lookup other s' = type_table_lookup other s).
Proof.
  intros Hname Hifs Hold. unfold type_register_static, info_copy_interfaces.
  rewrite Hname. simpl.
  match goal with |- context [match info_interfaces info with _ => _ end] =>
    idtac end.
  set (ti0 := {| ti_name := name |}).
  assert (∃ ti', match info_interfaces info with
                 | Some l => copy_interfaces l 0 ti0
                 | None => Ok ti0
                 end = Ok ti' ∧ ti_name ti' = name) as (ti' & -> & Hn).
  { destruct (info_interfaces info) as [l|] eqn:E.
    - destruct (copy_interfaces_Ok l 0 ti0) as (ti' & H & Hn & _).
      + specialize (Hifs l eq_refl). lia.
      + eauto.
    - eauto. }
  simpl. unfold type_table_add, get_type. st_simpl.
  rewrite lookup_app_r, Nat.sub_diag by lia. simpl.
  eexists _, ti'. split_and!; try done.
  - unfold type_table_lookup. simpl. rewrite Hn. apply lookup_insert_eq.
  - intros other Hne. unfold type_table_lookup. simpl. rewrite Hn.
    by apply lookup_insert_ne.
Qed.

Lemma type_register_static_replaces_witness :
  ∃ s' T,
    type_register_static (plain_info "Root" None 32 32) (from_ok chain_registry)
      = Ok (length (st_types (from_ok chain_registry)), s') ∧
    st_types s' = st_types (from_ok chain_registry) ++ [T] ∧ ti_name T = "Root" ∧
    type_table_lookup "Root" s' = Some (length (st_types (from_ok chain_registry))) ∧
    (∀ other, other ≠ "Root" →
       type_table_lookup other s' = type_table_lookup other (from_ok chain_registry)).
Proof.
  apply (type_register_static_replaces (plain_info "Root" None 32 32) "Root" 1%nat).
  - reflexivity.
  - intros l H. discriminate H.
  - vm_compute. reflexivity.
Defined.

(** Registering "Root" a second time is not fatal: it returns a new
    descriptor, to which "Root" resolves from then on. *)
Lemma duplicate_name_is_not_fatal :
  (do s <- chain_registry;
   do (t, s') <- type_register_static (plain_info "Root" None 32 32) s;
   Ok (type_table_lookup "Root" s, t, type_table_lookup "Root" s',
       ti_instance_size <$> st_types s' !! 1%nat))
  = Ok (Some 1%nat, 4%nat, Some 4%nat, Some 16).
Proof. vm_compute. reflexivity. Qed.

(** ** Dynamic casts *)

Lemma type_is_ancestor_S fuel type target s :
  type_is_ancestor (S fuel) type target s =
  match type with
  | None => Ok false
  | Some t =>
      if decide (type = target) then Ok true
      else do ti <- get_type t s;
           type_is_ancestor fuel (type_get_by_name (ti_parent ti) s) target s
  end.
Proof. reflexivity. Qed.

Lemma object_is_type_S fuel obj typename s :
  object_is_type (S fuel) obj typename s =
  do c <- obj_class obj s;
  do c <- nonnull c;
  do k <- get_class c s;
  do b <- type_is_ancestor fuel (Some (oc_type k)) (type_get_by_name typename s) s;
  if b : bool then Ok true
  else
    do l <- obj_interfaces obj s;
    do r <- find_interface (fun iface => object_is_type fuel iface typename s) l;
    Ok (bool_decide (is_Some r)).
Proof. reflexivity. Qed.

(** Replay in the goal the steps that succeeded in the hypotheses. *)
Ltac replay :=
  repeat match goal with
         | H : ?m = Ok _ |- context [?m] => rewrite H; cbn [bind]
         | H : ?x = Some _ |- context [nonnull ?x] => rewrite H; cbn [bind nonnull]
         end.

Lemma type_is_ancestor_fuel fuel : ∀ type target s b,
  type_is_ancestor fuel type target s = Ok b →
  type_is_ancestor (S fuel) type target s = Ok b.
Proof.
  induction fuel as [|fuel IH]; intros type target s b H; [discriminate|].
  rewrite type_is_ancestor_S in H. rewrite type_is_ancestor_S.
  destruct type as [t|]; [|done].
  case_decide; [done|]. apply bind_Ok in H as (ti & Hti & H).
  rewrite Hti. cbn [bind]. by apply IH.
Qed.

Lemma find_interface_ext (f g : nat → result bool) l r :
  (∀ x b, f x = Ok b → g x = Ok b) →
  find_interface f l = Ok r → find_interface g l = Ok r.
Proof.
  intros Hfg. induction l as [|x l IH]; simpl; [done|]. intros H.
  apply bind_Ok in H as (b & Hb & H). rewrite (Hfg _ _ Hb). cbn [bind].
  destruct b; eauto.
Qed.

Lemma object_is_type_fuel fuel : ∀ obj typename s b,
  object_is_type fuel obj typename s = Ok b →
  object_is_type (S fuel) obj typename s = Ok b.
Proof.
  induction fuel as [|fuel IH]; intros obj typename s b H; [discriminate|].
  rewrite object_is_type_S in H. rewrite object_is_type_S.
  apply bind_Ok in H as (c & Hc & H). apply bind_Ok in H as (c' & Hc' & H).
  apply bind_Ok in H as (k & Hk & H). apply bind_Ok in H as (b0 & Hb0 & H).
  rewrite Hc. cbn [bind]. rewrite Hc'. cbn [bind]. rewrite Hk. cbn [bind].
  rewrite (type_is_ancestor_fuel _ _ _ _ _ Hb0). cbn [bind].
  destruct b0; [done|].
  apply bind_Ok in H as (l & Hl & H). apply bind_Ok in H as (r & Hr & H).
  rewrite Hl. cbn [bind].
  rewrite (find_interface_ext _ (fun iface => object_is_type (S fuel) iface typename s)
             _ _ (fun x b => IH x typename s b) Hr).
  done.
Qed.

Lemma object_dynamic_cast_S fuel obj typename s :
  object_dynamic_cast (S fuel) obj typename s =
  do b <- object_is_type fuel obj typename s;
  if b : bool then Ok (Some obj)
  else
    do l <- obj_interfaces obj s;
    do r <- find_interface (fun iface => object_is_type fuel iface typename s) l;
    match r with
    | Some iface => Ok (Some iface)
    | None =>
        do b <- object_is_type fuel obj (Some TYPE_INTERFACE) s;
        if b : bool then
          do iface <- object_dynamic_cast_assert fuel obj (Some TYPE_INTERFACE) s;
          do owner <- iface_obj iface s;
          do owner <- nonnull owner;
          do b <- object_is_type fuel owner typename s;
          if b : bool then Ok (Some owner) else Ok None
        else Ok None
    end.
Proof. reflexivity. Qed.

(** A cast to TYPE_INTERFACE returns its argument or nothing: an interface
    that the loop of the cast would return is found by [object_is_type]
    before. *)
Lemma object_dynamic_cast_interface fuel obj s r :
  object_dynamic_cast fuel obj (Some TYPE_INTERFACE) s = Ok r →
  r = Some obj ∨ r = None.
Proof.
  destruct fuel as [|fuel]; [discriminate|]. rewrite object_dynamic_cast_S. intros H.
  apply bind_Ok in H as (b & Hb & H). destruct b; [left; congruence|].
  apply bind_Ok in H as (l & Hl & H). apply bind_Ok in H as (r0 & Hr0 & H).
  destruct r0 as [i|].
  - exfalso. destruct fuel as [|fuel]; [discriminate|].
    rewrite object_is_type_S in Hb.
    apply bind_Ok in Hb as (c & Hc & Hb). apply bind_Ok in Hb as (c' & Hc' & Hb).
    apply bind_Ok in Hb as (k & Hk & Hb). apply bind_Ok in Hb as (b0 & Hb0 & Hb).
    destruct b0; [discriminate|].
    apply bind_Ok in Hb as (l' & Hl' & Hb). apply bind_Ok in Hb as (r1 & Hr1 & Hb).
    assert (l' = l) as -> by congruence.
    eapply (find_interface_ext _
      (fun iface => object_is_type (S fuel) iface (Some TYPE_INTERFACE) s)) in Hr1;
      [|intros x b; apply object_is_type_fuel].
    rewrite Hr1 in Hr0. injection Hr0 as ->. discriminate Hb.
  - rewrite Hb in H. cbn [bind] in H. right. congruence.
Qed.

Lemma object_dynamic_cast_assert_interface fuel obj s r :
  object_dynamic_cast_assert fuel obj (Some TYPE_INTERFACE) s = Ok r → r = obj.
Proof.
  destruct fuel as [|fuel]; [discriminate|]. simpl. intros H.
  apply bind_Ok in H as (r0 & Hr0 & H).
  apply object_dynamic_cast_interface in Hr0 as [->| ->]; [congruence | discriminate].
Qed.

(** ** Steps on instances *)

Lemma object_init_S fuel obj typename s :
  object_init (S fuel) obj typename s =
  do t <- nonnull (type_get_by_name typename s);
  do ti <- get_type t s;
  do s <- match ti_parent ti with
          | Some _ => object_init fuel obj (ti_parent ti) s
          | None => Ok s
          end;
  do ti <- get_type t s;
  do s <- for_loop (ti_num_interfaces ti) 0 (object_interface_init fuel obj t) s;
  do ti <- get_type t s;
  match ti_instance_init ti with
  | Some h => Ok (log (EvInstanceInit h obj) s)
  | None => Ok s
  end.
Proof. reflexivity. Qed.

Lemma object_interface_init_S fuel obj t i s :
  object_interface_init (S fuel) obj t i s =
  do owner <- get_type t s;
  do iface <- nonnull (ti_interfaces owner !! i);
  do a <- nonnull (if_type iface);
  do ti <- get_type a s;
  do (o, s) <- object_new fuel (Some (ti_name ti)) s;
  do iface_obj <- object_dynamic_cast_assert fuel o (Some TYPE_INTERFACE) s;
  do s <- set_iface_obj iface_obj (Some obj) s;
  do l <- obj_interfaces obj s;
  do s <- set_obj_interfaces obj (iface_obj :: l) s;
  Ok (log (EvInterfaceAdded obj iface_obj) s).
Proof. reflexivity. Qed.

Lemma object_initialize_S fuel data typename s :
  object_initialize (S fuel) data typename s =
  do t <- nonnull (type_get_by_name typename s);
  do ti <- get_type t s;
  do _ <- g_assert (bool_decide (sizeof_ObjectClass ≤ ti_instance_size ti));
  do s <- type_class_init fuel t s;
  do ti <- get_type t s;
  do _ <- g_assert (bool_decide (ti_abstract ti = false));
  do s <- memset_object data (ti_instance_size ti) s;
  do s <- set_obj_class data (ti_class ti) s;
  object_init fuel data typename s.
Proof. reflexivity. Qed.

Lemma object_new_S fuel typename s :
  object_new (S fuel) typename s =
  do t <- nonnull (type_get_by_name typename s);
  do ti <- get_type t s;
  let (obj, s) := g_malloc (ti_instance_size ti) s in
  do s <- object_initialize fuel obj typename s;
  Ok (obj, s).
Proof. reflexivity. Qed.

Lemma get_object_Ok obj s O :
  get_object obj s = Ok O → st_objects s !! obj = Some (Some O).
Proof.
  unfold get_object. intros H. apply nonnull_Ok in H.
  destruct (st_objects s !! obj) as [[O'|]|]; simpl in H; congruence.
Qed.

Lemma get_object_lookup obj s O :
  st_objects s !! obj = Some (Some O) → get_object obj s = Ok O.
Proof. unfold get_object. by intros ->. Qed.

Lemma upd_object_lookup obj f s x :
  st_objects (upd_object obj f s) !! x =
  if decide (obj = x) then fmap f <$> st_objects s !! obj else st_objects s !! x.
Proof. unfold upd_object. simpl. apply list_lookup_alter. Qed.

Lemma upd_object_length obj f s :
  length (st_objects (upd_object obj f s)) = length (st_objects s).
Proof. unfold upd_object. simpl. apply length_alter. Qed.

Lemma obj_interfaces_Ok obj s l :
  obj_interfaces obj s = Ok l →
  ∃ O, st_objects s !! obj = Some (Some O) ∧ o_interfaces O = l.
Proof.
  unfold obj_interfaces. intros H. apply bind_Ok in H as (O & HO & H).
  apply get_object_Ok in HO. case_decide; [|done]. injection H as <-. eauto.
Qed.

Lemma set_obj_interfaces_Ok obj l s s' :
  set_obj_interfaces obj l s = Ok s' →
  ∃ O, st_objects s !! obj = Some (Some O) ∧
       s' = upd_object obj (fun o => {| o_size := o_size o; o_class := o_class o;
                                        o_interfaces := l; o_obj := o_obj o |}) s.
Proof.
  unfold set_obj_interfaces. intros H. apply bind_Ok in H as (l0 & Hl0 & H).
  apply obj_interfaces_Ok in Hl0 as (O & HO & _). injection H as <-. eauto.
Qed.

Lemma set_iface_obj_Ok obj owner s s' :
  set_iface_obj obj owner s = Ok s' →
  ∃ O, st_objects s !! obj = Some (Some O) ∧
       s' = upd_object obj (fun o => {| o_size := o_size o; o_class := o_class o;
                                        o_interfaces := o_interfaces o;
                                        o_obj := owner |}) s.
Proof.
  unfold set_iface_obj, iface_obj. intros H. apply bind_Ok in H as (l0 & Hl0 & H).
  apply bind_Ok in Hl0 as (O & HO & _). apply get_object_Ok in HO.
  injection H as <-. eauto.
Qed.

Lemma set_obj_class_Ok obj c s s' :
  set_obj_class obj c s = Ok s' →
  ∃ O, st_objects s !! obj = Some (Some O) ∧
       s' = upd_object obj (fun o => {| o_size := o_size o; o_class := c;
                                        o_interfaces := o_interfaces o;
                                        o_obj := o_obj o |}) s.
Proof.
  unfold set_obj_class, obj_class. intros H. apply bind_Ok in H as (l0 & Hl0 & H).
  apply bind_Ok in Hl0 as (O & HO & _). apply get_object_Ok in HO.
  injection H as <-. eauto.
Qed.

Lemma memset_object_Ok obj n s s' :
  memset_object obj n s = Ok s' →
  ∃ O, st_objects s !! obj = Some (Some O) ∧
       s' = upd_object obj (fun o =>
          {| o_size := o_size o;
             o_class := if decide (sizeof_ObjectClass ≤ n) then None else o_class o;
             o_interfaces := if decide (sizeof_Object ≤ n) then [] else o_interfaces o;
             o_obj := if decide (sizeof_Interface ≤ n) then None else o_obj o |}) s.
Proof.
  unfold memset_object. intros H. apply bind_Ok in H as (O & HO & H).
  apply get_object_Ok in HO. case_decide; [|done]. injection H as <-. eauto.
Qed.

Lemma build_rel_set_objects x n f s : build_rel x n s (set_objects f s).
Proof.
  split; simpl; try done; eauto.
  exists []. by rewrite app_nil_r.
Qed.

Lemma wf_state_set_objects f s : wf_state s → wf_state (set_objects f s).
Proof. intros [A C Z I]. split; simpl; eauto. Qed.

Lemma objects_rel_refl obj s : objects_rel obj s s.
Proof. split; [done | done | | done]. intros O HO. exists O. split_and!; done. Qed.

Lemma objects_rel_trans obj s1 s2 s3 :
  objects_rel obj s1 s2 → objects_rel obj s2 s3 → objects_rel obj s1 s3.
Proof.
  intros [L1 O1 S1 E1] [L2 O2 S2 E2]. split.
  - lia.
  - intros x Hx Hne. rewrite O2, O1 by (try done; lia). done.
  - intros O HO. destruct (S1 _ HO) as (O' & HO' & ? & ? & ? & ?).
    destruct (S2 _ HO') as (O'' & HO'' & ? & ? & ? & ?).
    exists O''. split_and!; try congruence. by etrans.
  - intros x Hx Hne. rewrite E2, E1 by (try done; lia). done.
Qed.

Lemma objects_kept_rel obj s s' :
  (obj < length (st_objects s))%nat → objects_kept s s' → objects_rel obj s s'.
Proof.
  intros Hobj [L K]. split; [done | intros; by apply K | | intros; by apply K].
  intros O HO. exists O. rewrite (proj1 (K _ Hobj)). split_and!; done.
Qed.

Lemma filter_none {A} (P : A → Prop) `{∀ x, Decision (P x)} (l : list A) :
  Forall (fun x => ¬ P x) l → filter P l = [].
Proof.
  induction 1 as [|x l Hx _ IH]; [done|]. by rewrite filter_cons_False.
Qed.

Lemma instance_events_log x e s :
  instance_events x (log e s)
  = instance_events x s ++ (if decide (event_instance e = Some x) then [e] else []).
Proof.
  unfold instance_events. simpl. rewrite filter_app. f_equal.
Qed.

Lemma instance_events_add x ev s :
  instance_events x (add_events ev s)
  = instance_events x s ++ filter (fun e => event_instance e = Some x) ev.
Proof. unfold instance_events. simpl. by rewrite filter_app. Qed.

Lemma build_rel_weaken_len s0 s s' :
  (length (st_classes s0) ≤ length (st_classes s))%nat →
  build_rel None (length (st_classes s)) s s' →
  build_rel None (length (st_classes s0)) s s'.
Proof. intros. by eapply build_rel_weaken. Qed.

(** ** Frame of the instance operations *)

Lemma synthesis_loop_objects t n : ∀ i s s',
  for_loop n i (type_class_interface_init t) s = Ok s' →
  st_objects s' = st_objects s.
Proof.
  induction n as [|n IH]; intros i s s' H; simpl in H; [by injection H as <-|].
  apply bind_Ok in H as (s1 & H1 & H). apply IH in H. rewrite H.
  apply type_class_interface_init_Ok in H1 as (T & e & _ & _ & _ & ->). done.
Qed.

Lemma type_class_init_objects fuel : ∀ t s s',
  type_class_init fuel t s = Ok s' → st_objects s' = st_objects s.
Proof.
  induction fuel as [|fuel IH]; intros t s s' H; [discriminate|].
  destruct (st_types s !! t) as [T|] eqn:HT;
    [|simpl in H; unfold get_type in H; rewrite HT in H; discriminate].
  destruct (ti_class T) as [c0|] eqn:Hc.
  { rewrite (type_class_init_built fuel t s T) in H by (by rewrite ?Hc).
    by injection H as <-. }
  destruct (type_class_init_inv _ _ _ _ T HT Hc H)
    as (size & s2 & T2 & chain & s4 & T4 & _ & _ & Hin & _ & _ & Hloop & _ & ->).
  apply synthesis_loop_objects in Hloop. simpl in *. rewrite Hloop.
  inversion Hin; subst; simpl; [done|].
  match goal with H : type_class_init fuel _ _ = Ok _ |- _ => by apply IH in H end.
Qed.

Lemma base_init_events_instance x chain k s :
  filter (fun e => event_instance e = Some x) (base_init_events chain k s) = [].
Proof.
  apply filter_none, Forall_forall. intros e He. unfold base_init_events in He.
  apply list_elem_of_omap in He as (u & _ & Hu).
  destruct (st_types s !! u) as [U|]; [|done]. simpl in Hu.
  destruct (ti_base_init U); [|done]. simpl in Hu. by injection Hu as <-.
Qed.

Lemma class_init_events_instance x T k :
  filter (fun e => event_instance e = Some x) (class_init_events T k) = [].
Proof. unfold class_init_events. by destruct (ti_class_init T). Qed.

Lemma synthesis_loop_instance_events x t n : ∀ i s s',
  for_loop n i (type_class_interface_init t) s = Ok s' →
  instance_events x s' = instance_events x s.
Proof.
  induction n as [|n IH]; intros i s s' H; simpl in H; [by injection H as <-|].
  apply bind_Ok in H as (s1 & H1 & H). apply IH in H. rewrite H.
  apply type_class_interface_init_Ok in H1 as (T & e & _ & _ & _ & ->).
  unfold instance_events. simpl. rewrite filter_app. simpl.
  by rewrite app_nil_r.
Qed.

(** A class build logs nothing about instances. *)
Lemma type_class_init_instance_events x fuel : ∀ t s s',
  type_class_init fuel t s = Ok s' → instance_events x s' = instance_events x s.
Proof.
  induction fuel as [|fuel IH]; intros t s s' H; [discriminate|].
  destruct (st_types s !! t) as [T|] eqn:HT;
    [|simpl in H; unfold get_type in H; rewrite HT in H; discriminate].
  destruct (ti_class T) as [c0|] eqn:Hc.
  { rewrite (type_class_init_built fuel t s T) in H by (by rewrite ?Hc).
    by injection H as <-. }
  destruct (type_class_init_inv _ _ _ _ T HT Hc H)
    as (size & s2 & T2 & chain & s4 & T4 & _ & _ & Hin & _ & _ & Hloop & _ & ->).
  apply (synthesis_loop_instance_events x) in Hloop.
  rewrite instance_events_add, class_init_events_instance, app_nil_r, Hloop.
  rewrite instance_events_add, base_init_events_instance, app_nil_r.
  inversion Hin; subst; [done|].
  match goal with H : type_class_init fuel _ _ = Ok _ |- _ => by apply IH in H end.
Qed.

Lemma type_class_init_builds fuel t s s' :
  wf_state s → type_class_init fuel t s = Ok s' →
  ∃ T' c, st_types s' !! t = Some T' ∧ ti_class T' = Some c.
Proof.
  intros Hwf H. destruct fuel as [|fuel]; [discriminate|].
  destruct (st_types s !! t) as [T|] eqn:HT;
    [|simpl in H; unfold get_type in H; rewrite HT in H; discriminate].
  destruct (ti_class T) as [c0|] eqn:Hc.
  { rewrite (type_class_init_built fuel t s T) in H by (by rewrite ?Hc).
    injection H as <-. eauto. }
  destruct (type_class_init_anatomy _ _ _ _ _ Hwf HT Hc H)
    as (size & s1 & tail & chain & s4 & T4 & _ & _ & Hwf1 & _ & HT1
        & _ & _ & Hloop & HT4 & ->).
  eapply (synthesis_loop t 0) in Hloop as (_ & _ & _ & _ & _ & _ & T' & HT' & Hc' & _);
    [| by apply wf_state_add_events, wf_state_upd_class | exact HT1].
  simpl in *. exists T4, (length (st_classes s)). split; [done|]. congruence.
Qed.

Lemma for_loop_frame (body : nat → state → result state) obj :
  (∀ i s s', wf_state s → body i s = Ok s' →
     wf_state s' ∧ build_rel None (length (st_classes s)) s s' ∧ objects_rel obj s s') →
  ∀ n i s s', wf_state s → for_loop n i body s = Ok s' →
     wf_state s' ∧ build_rel None (length (st_classes s)) s s' ∧ objects_rel obj s s'.
Proof.
  intros Hbody. induction n as [|n IH]; intros i s s' Hwf H; simpl in H.
  - injection H as <-. split_and!; [done | apply build_rel_refl | apply objects_rel_refl].
  - apply bind_Ok in H as (s1 & H1 & H).
    destruct (Hbody _ _ _ Hwf H1) as (Hwf1 & Hrel1 & Hobj1).
    destruct (IH _ _ _ Hwf1 H) as (Hwf' & Hrel' & Hobj').
    split_and!; [done | | by eapply objects_rel_trans].
    eapply build_rel_trans; [exact Hrel1|].
    eapply build_rel_weaken_len; [|exact Hrel']. apply (br_classes_len _ _ _ _ Hrel1).
Qed.

Lemma object_ops_frame fuel :
  (∀ obj name s s', wf_state s → object_init fuel obj name s = Ok s' →
     wf_state s' ∧ build_rel None (length (st_classes s)) s s' ∧
     objects_rel obj s s') ∧
  (∀ obj t i s s', wf_state s → object_interface_init fuel obj t i s = Ok s' →
     wf_state s' ∧ build_rel None (length (st_classes s)) s s' ∧
     objects_rel obj s s') ∧
  (∀ data name s s', wf_state s → object_initialize fuel data name s = Ok s' →
     wf_state s' ∧ build_rel None (length (st_classes s)) s s' ∧
     (length (st_objects s) ≤ length (st_objects s'))%nat ∧
     (∀ x, (x < length (st_objects s))%nat → x ≠ data →
           st_objects s' !! x = st_objects s !! x ∧
           instance_events x s' = instance_events x s) ∧
     instance_of data name s s') ∧
  (∀ name s o s', wf_state s → object_new fuel name s = Ok (o, s') →
     wf_state s' ∧ build_rel None (length (st_classes s)) s s' ∧
     o = length (st_objects s) ∧ objects_kept s s' ∧ instance_of o name s s').
Proof.
  induction fuel as [|fuel (IH1 & IH2 & IH3 & IH4)]; [by split_and!|].
  split_and!.
  - (* object_init *)
    intros obj name s s' Hwf H. rewrite object_init_S in H.
    apply bind_Ok in H as (t & Ht & H). apply bind_Ok in H as (ti & Hti & H).
    apply bind_Ok in H as (s1 & H1 & H). apply bind_Ok in H as (ti1 & Hti1 & H).
    apply bind_Ok in H as (s2 & H2 & H). apply bind_Ok in H as (ti2 & Hti2 & H).
    assert (wf_state s1 ∧ build_rel None (length (st_classes s)) s s1 ∧
            objects_rel obj s s1) as (Hwf1 & Hrel1 & Hobj1).
    { destruct (ti_parent ti); [by eapply IH1|].
      injection H1 as <-. split_and!; [done | apply build_rel_refl | apply objects_rel_refl]. }
    destruct (for_loop_frame _ obj (fun i => IH2 obj t i) _ _ _ _ Hwf1 H2)
      as (Hwf2 & Hrel2 & Hobj2).
    assert (build_rel None (length (st_classes s)) s s2) as Hrel.
    { eapply build_rel_trans; [exact Hrel1|].
      eapply build_rel_weaken_len; [|exact Hrel2]. apply (br_classes_len _ _ _ _ Hrel1). }
    assert (objects_rel obj s s2) as Hobj by by eapply objects_rel_trans.
    destruct (ti_instance_init ti2); injection H as <-; [|done].
    split_and!.
    + by apply wf_state_add_events.
    + eapply build_rel_trans; [exact Hrel|]. apply build_rel_add_events.
      constructor; [|done]. by intros c.
    + destruct Hobj as [L K S E]. split; try done.
      intros x Hx Hne. rewrite instance_events_log, E by done.
      rewrite decide_False by (simpl; congruence). by rewrite app_nil_r.
  - (* object_interface_init *)
    intros obj t i s s' Hwf H. rewrite object_interface_init_S in H.
    apply bind_Ok in H as (owner & Howner & H). apply bind_Ok in H as (iface & Hiface & H).
    apply bind_Ok in H as (a & Ha & H). apply bind_Ok in H as (ti & Hti & H).
    apply bind_Ok in H as ([o s1] & Hnew & H).
    apply bind_Ok in H as (io & Hcast & H).
    apply bind_Ok in H as (s2 & Hset & H). apply bind_Ok in H as (l & Hl & H).
    apply bind_Ok in H as (s3 & Hadd & H). injection H as <-.
    apply object_dynamic_cast_assert_interface in Hcast as ->.
    destruct (IH4 _ _ _ _ Hwf Hnew) as (Hwf1 & Hrel1 & -> & [Hlen Hkept] & _).
    apply set_iface_obj_Ok in Hset as (O1 & HO1 & ->).
    apply obj_interfaces_Ok in Hl as (O2 & HO2 & <-).
    apply set_obj_interfaces_Ok in Hadd as (O2' & HO2' & ->).
    split_and!.
    + by apply wf_state_add_events; do 2 apply wf_state_set_objects.
    + eapply build_rel_trans; [exact Hrel1|].
      eapply build_rel_trans; [apply build_rel_set_objects|].
      eapply build_rel_trans; [apply build_rel_set_objects|].
      apply build_rel_add_events. constructor; [|done]. by intros c.
    + split.
      * st_simpl. rewrite !length_alter. done.
      * intros x Hx Hne. change (st_objects (log ?e ?s)) with (st_objects s).
        rewrite !upd_object_lookup.
        rewrite !decide_False by (try done; lia). by apply Hkept.
      * intros O HO. apply lookup_lt_Some in HO as Hlt.
        rewrite upd_object_lookup in HO2. rewrite decide_False in HO2 by lia.
        rewrite (proj1 (Hkept _ Hlt)), HO in HO2. injection HO2 as <-.
        change (st_objects (log ?e ?s)) with (st_objects s).
        rewrite upd_object_lookup, decide_True by done.
        rewrite upd_object_lookup, decide_False by lia.
        rewrite (proj1 (Hkept _ Hlt)), HO. simpl. eexists. split; [done|]. simpl.
        split_and!; try done. by apply suffix_cons_r.
      * intros x Hx Hne. rewrite instance_events_log.
        rewrite decide_False by (simpl; congruence). rewrite app_nil_r.
        by apply Hkept.
  - (* object_initialize *)
    intros data name s s' Hwf H. rewrite object_initialize_S in H.
    apply bind_Ok in H as (t & Ht & H). apply bind_Ok in H as (ti & Hti & H).
    apply bind_Ok in H as (? & Hsz & H). apply bind_Ok in H as (s1 & Hbuild & H).
    apply bind_Ok in H as (ti1 & Hti1 & H). apply bind_Ok in H as (? & Habs & H).
    apply bind_Ok in H as (s2 & Hmem & H). apply bind_Ok in H as (s3 & Hcls & H).
    apply nonnull_Ok in Ht, Hti1.
    destruct (type_class_init_frame _ _ _ _ Hwf Hbuild) as (Hwf1 & Hrel1).
    pose proof (type_class_init_objects _ _ _ _ Hbuild) as Hobj1.
    pose proof (fun x => type_class_init_instance_events x _ _ _ _ Hbuild) as Hev1.
    destruct (type_class_init_builds _ _ _ _ Hwf Hbuild) as (T1 & c & HT1 & Hc).
    assert (ti1 = T1) as -> by congruence.
    apply memset_object_Ok in Hmem as (O1 & HO1 & ->).
    apply set_obj_class_Ok in Hcls as (O2 & HO2 & ->).
    set (s3 := upd_object data _ (upd_object data _ s1)) in *.
    assert (wf_state s3) as Hwf3 by by do 2 apply wf_state_set_objects.
    destruct (IH1 _ _ _ _ Hwf3 H) as (Hwf' & Hrel' & [L K S E]).
    unfold s3 in L, K, S, E. rewrite ?upd_object_length, ?Hobj1 in *.
    split_and!.
    + done.
    + eapply build_rel_trans; [exact Hrel1|].
      eapply build_rel_trans; [apply build_rel_set_objects|].
      eapply build_rel_trans; [apply build_rel_set_objects|].
      eapply build_rel_weaken_len; [|exact Hrel']. apply (br_classes_len _ _ _ _ Hrel1).
    + done.
    + intros y Hy Hne. rewrite K, E by done.
      rewrite !upd_object_lookup, !decide_False by done. rewrite Hobj1.
      split; [done|]. apply Hev1.
    + destruct (S {| o_size := o_size O2; o_class := ti_class T1;
                     o_interfaces := o_interfaces O2; o_obj := o_obj O2 |})
        as (O' & HO' & _ & Hc' & _).
      { rewrite upd_object_lookup, decide_True by done. by rewrite HO2. }
      assert (st_types s3 !! t = Some T1) as HT3 by done.
      destruct (br_kept _ _ _ _ Hrel' _ _ _ HT3 Hc) as (T' & HT' & HcT' & _).
      exists t, T', c, O'. split_and!; try done. simpl in Hc'. congruence.
  - (* object_new *)
    intros name s o s' Hwf H. rewrite object_new_S in H.
    apply bind_Ok in H as (t & Ht & H). apply bind_Ok in H as (ti & Hti & H).
    unfold g_malloc in H. apply bind_Ok in H as (s1 & Hinit & H).
    injection H as <- <-.
    match type of Hinit with object_initialize _ _ _ ?st = _ => set (s0 := st) in * end.
    assert (wf_state s0) as Hwf0 by by apply wf_state_set_objects.
    destruct (IH3 _ _ _ _ Hwf0 Hinit) as (Hwf1 & Hrel1 & L & K & Hinst).
    unfold s0 in L, K. simpl in L, K. rewrite length_app in L, K. simpl in L, K.
    split_and!; try done.
    + eapply build_rel_trans; [|exact Hrel1]. apply build_rel_set_objects.
    + split; [lia|]. intros x Hx. destruct (K x) as [-> ->]; [lia..|].
      split; [by apply lookup_app_l | done].
Qed.

(** ** Interface trampolines *)

Lemma static_iface_parent U U' i e :
  static U' = static U → ti_interfaces U !! i = Some e →
  ∃ e', ti_interfaces U' !! i = Some e' ∧ if_parent e' = if_parent e.
Proof.
  intros H He. apply (f_equal ti_interfaces) in H. simpl in H.
  apply (f_equal (fun l => l !! i)) in H. rewrite !list_lookup_fmap, He in H.
  destruct (ti_interfaces U' !! i) as [e'|]; [|done]. simpl in H.
  exists e'. split; [done|]. by injection H.
Qed.

Lemma static_instance_init U U' :
  static U' = static U → ti_instance_init U' = ti_instance_init U.
Proof. intros H. by apply (f_equal ti_instance_init) in H. Qed.

(** A trampoline stays one as long as it is left alone. *)
Lemma trampoline_of_stable s s' obj u i tr :
  build_rel None (length (st_classes s)) s s' →
  st_objects s' !! tr = st_objects s !! tr →
  trampoline_of s obj u i tr → trampoline_of s' obj u i tr.
Proof.
  intros Hrel Htr (U & e & O & k & K & A & HU & He & HO & Hobj & Hk & HK & HA & Hp).
  destruct (br_static _ _ _ _ Hrel _ _ HU) as (U' & HU' & HsU).
  destruct (static_iface_parent _ _ _ _ HsU He) as (e' & He' & Hpe).
  destruct (br_static _ _ _ _ Hrel _ _ HA) as (A' & HA' & HsA).
  exists U', e', O, k, K, A'. split_and!; try done.
  - by rewrite Htr.
  - rewrite (br_classes _ _ _ _ Hrel); [done|]. by eapply lookup_lt_Some.
  - rewrite (static_parent _ _ HsA). congruence.
Qed.

Lemma level_trampolines_stable s s' obj u trs :
  build_rel None (length (st_classes s)) s s' →
  (∀ tr, tr ∈ trs → st_objects s' !! tr = st_objects s !! tr) →
  level_trampolines s obj u trs → level_trampolines s' obj u trs.
Proof.
  intros Hrel Htrs [(U & HU & Hlen) Hall]. split.
  - destruct (br_static _ _ _ _ Hrel _ _ HU) as (U' & HU' & HsU).
    exists U'. split; [done|]. by rewrite (static_num_interfaces _ _ HsU).
  - intros i tr Hi. eapply trampoline_of_stable; [done | | by apply Hall].
    apply Htrs. by eapply list_elem_of_lookup_2.
Qed.

(** One interface entry: a new instance becomes the trampoline. *)
Lemma object_interface_init_trampoline fuel obj t i s s' O :
  wf_state s → st_objects s !! obj = Some (Some O) →
  object_interface_init fuel obj t i s = Ok s' →
  trampoline_of s' obj t i (length (st_objects s)) ∧
  (length (st_objects s) < length (st_objects s'))%nat ∧
  (∃ O', st_objects s' !! obj = Some (Some O') ∧
         o_interfaces O' = length (st_objects s) :: o_interfaces O) ∧
  instance_events obj s'
    = instance_events obj s ++ [EvInterfaceAdded obj (length (st_objects s))].
Proof.
  intros Hwf HO H. destruct fuel as [|fuel]; [discriminate|].
  rewrite object_interface_init_S in H.
  apply bind_Ok in H as (U & HU & H). apply bind_Ok in H as (e & He & H).
  apply bind_Ok in H as (a & Ha & H). apply bind_Ok in H as (A & HA & H).
  apply bind_Ok in H as ([o s1] & Hnew & H).
  apply bind_Ok in H as (io & Hcast & H).
  apply bind_Ok in H as (s2 & Hset & H). apply bind_Ok in H as (l & Hl & H).
  apply bind_Ok in H as (s3 & Hadd & H). injection H as <-.
  apply nonnull_Ok in HU, He, Ha, HA.
  apply object_dynamic_cast_assert_interface in Hcast as ->.
  destruct (object_ops_frame fuel) as (_ & _ & _ & IH4).
  destruct (IH4 _ _ _ _ Hwf Hnew)
    as (Hwf1 & Hrel1 & -> & [Hlen Hkept] & (a' & A1 & c & O1 & Hlook & HA1 & Hc & HO1 & HcO1)).
  destruct (wf_ifaces _ Hwf _ _ _ _ _ HU He Ha) as (A0 & HA0 & Htb & Hp).
  assert (A0 = A) as -> by congruence.
  assert (a' = a) as -> by (simpl in Hlook; unfold type_table_lookup in Hlook; congruence).
  destruct (wf_class _ Hwf1 _ _ _ HA1 Hc) as (K & HK & HtK).
  destruct (br_static _ _ _ _ Hrel1 _ _ HA) as (A1' & HA1' & HsA).
  assert (A1' = A1) as -> by congruence.
  destruct (br_static _ _ _ _ Hrel1 _ _ HU) as (U1 & HU1 & HsU).
  destruct (static_iface_parent _ _ _ _ HsU He) as (e1 & He1 & Hpe1).
  apply lookup_lt_Some in HO as Hlt.
  apply set_iface_obj_Ok in Hset as (O1' & HO1' & ->).
  assert (O1' = O1) as -> by congruence.
  apply obj_interfaces_Ok in Hl as (O2 & HO2 & <-).
  rewrite upd_object_lookup, decide_False in HO2 by lia.
  rewrite (proj1 (Hkept _ Hlt)), HO in HO2. injection HO2 as <-.
  apply set_obj_interfaces_Ok in Hadd as (O2' & HO2' & ->).
  split_and!.
  - eexists U1, e1, _, c, K, A1. st_simpl.
    rewrite list_lookup_alter_ne by lia. rewrite list_lookup_alter_eq, HO1. simpl.
    split_and!; try done.
    + by rewrite HtK.
    + rewrite (static_parent _ _ HsA). congruence.
  - st_simpl. rewrite !length_alter.
    apply lookup_lt_Some in HO1. done.
  - st_simpl. rewrite list_lookup_alter_eq, list_lookup_alter_ne by lia.
    rewrite (proj1 (Hkept _ Hlt)), HO. simpl. eauto.
  - rewrite instance_events_log. simpl. rewrite decide_True by done.
    f_equal. apply (proj2 (Hkept _ Hlt)).
Qed.

Lemma trampoline_of_add_events s ev obj u i tr :
  trampoline_of (add_events ev s) obj u i tr ↔ trampoline_of s obj u i tr.
Proof. done. Qed.

Lemma objects_rel_lt obj s s' x :
  objects_rel obj s s' → (x < length (st_objects s))%nat →
  (x < length (st_objects s'))%nat.
Proof. intros [L _ _ _] ?. lia. Qed.

(** The loop over the interface entries of one level. *)
Lemma interface_loop_trampolines fuel obj t n : ∀ i s s' O,
  wf_state s → st_objects s !! obj = Some (Some O) →
  for_loop n i (object_interface_init fuel obj t) s = Ok s' →
  ∃ trs O',
    length trs = n ∧
    (∀ j tr, trs !! j = Some tr → trampoline_of s' obj t (i + j) tr) ∧
    Forall (fun tr => length (st_objects s) ≤ tr < length (st_objects s'))%nat trs ∧
    NoDup trs ∧
    st_objects s' !! obj = Some (Some O') ∧
    o_interfaces O' = rev trs ++ o_interfaces O ∧
    instance_events obj s'
      = instance_events obj s ++ (EvInterfaceAdded obj <$> trs).
Proof.
  destruct (object_ops_frame fuel) as (_ & IH2 & _ & _).
  induction n as [|n IH]; intros i s s' O Hwf HO H; simpl in H.
  - injection H as <-. exists [], O. simpl. rewrite app_nil_r.
    split_and!; try done. constructor.
  - apply bind_Ok in H as (s1 & H1 & H).
    destruct (IH2 _ _ _ _ _ Hwf H1) as (Hwf1 & Hrel1 & Hobj1).
    destruct (object_interface_init_trampoline _ _ _ _ _ _ _ Hwf HO H1)
      as (Htr & Hlt & (O1 & HO1 & Hi1) & Hev1).
    destruct (IH _ _ _ _ Hwf1 HO1 H) as (trs & O' & Hlen & Hall & Hbnd & Hnd & HO' & Hi' & Hev').
    destruct (for_loop_frame _ obj (fun i => IH2 obj t i) _ _ _ _ Hwf1 H)
      as (Hwf' & Hrel' & Hobj').
    apply lookup_lt_Some in HO as Hobjlt.
    exists (length (st_objects s) :: trs), O'. split_and!.
    + simpl. by rewrite Hlen.
    + intros [|j] tr Hj; simpl in Hj.
      * injection Hj as <-. rewrite Nat.add_0_r.
        eapply trampoline_of_stable; [exact Hrel' | | exact Htr].
        apply (or_others _ _ _ Hobj'); lia.
      * replace (i + S j)%nat with (S i + j)%nat by lia. by apply Hall.
    + constructor.
      * split; [lia|]. pose proof (or_len _ _ _ Hobj'). lia.
      * eapply Forall_impl; [exact Hbnd|]. simpl. intros tr ?. lia.
    + constructor; [|done]. intros Hin.
      rewrite Forall_forall in Hbnd. specialize (Hbnd _ Hin). lia.
    + done.
    + rewrite Hi', Hi1. simpl. by rewrite <- app_assoc.
    + rewrite Hev', Hev1. simpl. by rewrite <- app_assoc.
Qed.

Lemma Forall2_Forall_impl {A B} (P P' : A → B → Prop) (Q : B → Prop) l k :
  Forall2 P l k → Forall Q k → (∀ x y, P x y → Q y → P' x y) → Forall2 P' l k.
Proof.
  intros H HQ Himp. induction H as [|x y l k Hxy H IH]; [constructor|].
  apply Forall_cons in HQ as [Hy HQ]. constructor; eauto.
Qed.

Lemma instance_init_events_stable x n s s' obj u :
  build_rel x n s s' → is_Some (st_types s !! u) →
  instance_init_events s' obj u = instance_init_events s obj u.
Proof.
  intros Hrel [U HU]. destruct (br_static _ _ _ _ Hrel _ _ HU) as (U' & HU' & Hst).
  unfold instance_init_events. rewrite HU, HU'. simpl.
  by rewrite (static_instance_init _ _ Hst).
Qed.

Lemma parent_chain_fuel fuel name s chain :
  parent_chain fuel name s = Some chain → parent_chain (S fuel) name s = Some chain.
Proof.
  revert name chain. induction fuel as [|fuel IH]; intros name chain H; [done|].
  change (parent_chain (S (S fuel)) name s)
    with (match name with
          | None => Some []
          | Some _ =>
              t ← type_get_by_name name s; ti ← st_types s !! t;
              l ← parent_chain (S fuel) (ti_parent ti) s; Some (l ++ [t])
          end).
  simpl in H. destruct name as [nm|]; [|done].
  destruct (type_get_by_name (Some nm) s) as [t|]; [|done]. simpl in *.
  destruct (st_types s !! t) as [T|]; [|done]. simpl in *.
  destruct (parent_chain fuel (ti_parent T) s) as [l|] eqn:E; [|done].
  by rewrite (IH _ _ E).
Qed.

Lemma level_events_stable x n s s' obj chain levels :
  build_rel x n s s' → Forall2 (level_trampolines s obj) chain levels →
  zip_with (level_events s' obj) chain levels
  = zip_with (level_events s obj) chain levels.
Proof.
  intros Hrel H. induction H as [|u trs chain levels [(U & HU & _) _] H IH]; [done|].
  simpl. rewrite IH. f_equal. unfold level_events.
  by rewrite (instance_init_events_stable _ _ _ _ obj u Hrel) by eauto.
Qed.

Lemma type_get_by_name_mono x n s s' name t :
  build_rel x n s s' → type_get_by_name name s = Some t →
  type_get_by_name name s' = Some t.
Proof.
  intros Hrel. destruct name as [nm|]; [|done]. simpl. intros H.
  eapply lookup_weaken; [exact H | apply Hrel].
Qed.

Lemma get_type_Ok t s T : get_type t s = Ok T → st_types s !! t = Some T.
Proof.
  unfold get_type. intros H. apply nonnull_Ok in H. done.
Qed.

(** The levels of [object_init]: the parent's levels first, then the
    trampolines of the type, then its instance_init. *)
Lemma object_init_levels fuel : ∀ obj name s s' O,
  wf_state s → st_objects s !! obj = Some (Some O) →
  object_init fuel obj name s = Ok s' →
  ∃ chain levels O',
    parent_chain (S fuel) name s' = Some chain ∧
    Forall2 (level_trampolines s' obj) chain levels ∧
    Forall (fun tr => length (st_objects s) ≤ tr < length (st_objects s'))%nat
           (concat levels) ∧
    NoDup (concat levels) ∧
    st_objects s' !! obj = Some (Some O') ∧
    o_interfaces O' = rev (concat levels) ++ o_interfaces O ∧
    instance_events obj s'
      = instance_events obj s ++ concat (zip_with (level_events s' obj) chain levels).
Proof.
  induction fuel as [|fuel IH]; intros obj name s s' O Hwf HO H; [done|].
  destruct (object_ops_frame fuel) as (F1 & F2 & _ & _).
  rewrite object_init_S in H.
  apply bind_Ok in H as (t & Ht & H). apply nonnull_Ok in Ht.
  apply bind_Ok in H as (T & HT & H).
  apply bind_Ok in H as (s1 & H1 & H). apply bind_Ok in H as (T1 & HT1 & H).
  apply bind_Ok in H as (s2 & H2 & H). apply bind_Ok in H as (T2 & HT2 & H).
  apply get_type_Ok in HT, HT1, HT2.
  apply lookup_lt_Some in HO as Hlt.
  (* the parent's levels *)
  assert (∃ chain1 levels1 O1,
    wf_state s1 ∧ build_rel None (length (st_classes s)) s s1 ∧
    objects_rel obj s s1 ∧
    parent_chain (S fuel) (ti_parent T) s1 = Some chain1 ∧
    Forall2 (level_trampolines s1 obj) chain1 levels1 ∧
    Forall (fun tr => length (st_objects s) ≤ tr < length (st_objects s1))%nat
           (concat levels1) ∧
    NoDup (concat levels1) ∧
    st_objects s1 !! obj = Some (Some O1) ∧
    o_interfaces O1 = rev (concat levels1) ++ o_interfaces O ∧
    instance_events obj s1
      = instance_events obj s ++ concat (zip_with (level_events s1 obj) chain1 levels1))
    as (chain1 & levels1 & O1 & Hwf1 & Hrel1 & Hobj1 & Hch1 & Hlv1 & Hbnd1 & Hnd1
        & HO1 & Hi1 & Hev1).
  { destruct (ti_parent T) as [p|] eqn:Hp.
    - destruct (F1 _ _ _ _ Hwf H1) as (? & ? & ?).
      destruct (IH _ _ _ _ _ Hwf HO H1) as (c & l & O1 & ? & ? & ? & ? & ? & ? & ?).
      exists c, l, O1. split_and!; done.
    - injection H1 as <-. exists [], [], O. simpl. rewrite app_nil_r.
      split_and!; try done;
        [apply build_rel_refl | apply objects_rel_refl | constructor.. ]. }
  (* the level of the type *)
  destruct (interface_loop_trampolines _ _ _ _ _ _ _ _ Hwf1 HO1 H2)
    as (trs & O2 & Hlen & Hall & Hbnd & Hnd & HO2 & Hi2 & Hev2).
  destruct (for_loop_frame _ obj (fun i => F2 obj t i) _ _ _ _ Hwf1 H2)
    as (Hwf2 & Hrel2 & Hobj2).
  set (ev := match ti_instance_init T2 with
             | Some h => [EvInstanceInit h obj] | None => [] end).
  assert (s' = add_events ev s2) as ->.
  { unfold ev. destruct (ti_instance_init T2); injection H as <-; [done|].
    destruct s2. unfold add_events. simpl. by rewrite app_nil_r. }
  assert (build_rel None (length (st_classes s1)) s1 (add_events ev s2)) as Hrel'.
  { eapply build_rel_trans; [exact Hrel2|]. apply build_rel_add_events.
    unfold ev. destruct (ti_instance_init T2); repeat constructor. by intros c. }
  assert (instance_init_events (add_events ev s2) obj t = ev) as Hiev.
  { unfold instance_init_events. simpl. rewrite HT2. done. }
  destruct (br_static _ _ _ _ Hrel1 _ _ HT) as (T1' & HT1' & Hst1).
  assert (T1' = T1) as -> by congruence.
  exists (chain1 ++ [t]), (levels1 ++ [trs]), O2.
  pose proof (Forall2_length _ _ _ Hlv1) as Hlen1.
  split_and!.
  - change (parent_chain (S (S fuel)) name (add_events ev s2))
      with (match name with
            | None => Some []
            | Some _ =>
                t ← type_get_by_name name (add_events ev s2);
                ti ← st_types (add_events ev s2) !! t;
                l ← parent_chain (S fuel) (ti_parent ti) (add_events ev s2);
                Some (l ++ [t])
            end).
    destruct name as [nm|]; [|done].
    rewrite (type_get_by_name_mono _ _ _ _ _ _ Hrel'
               (type_get_by_name_mono _ _ _ _ _ _ Hrel1 Ht)).
    cbn [mbind option_bind]. change (st_types (add_events ev s2)) with (st_types s2).
    rewrite HT2. cbn [mbind option_bind].
    destruct (br_static _ _ _ _ Hrel2 _ _ HT1) as (T2' & HT2' & Hst2).
    assert (T2' = T2) as -> by congruence.
    rewrite (static_parent _ _ Hst2), (static_parent _ _ Hst1).
    by rewrite (parent_chain_mono _ _ _ _ _ _ _ Hrel' Hch1).
  - apply Forall2_app.
    + rewrite Forall_concat in Hbnd1.
      eapply Forall2_Forall_impl; [exact Hlv1 | exact Hbnd1 |].
      intros u l Hl Hb. eapply level_trampolines_stable; [exact Hrel' | | exact Hl].
      intros tr Hin. rewrite Forall_forall in Hb. specialize (Hb _ Hin).
      simpl. apply (or_others _ _ _ Hobj2); lia.
    + constructor; [|constructor]. split.
      * exists T2. split; [done|].
        destruct (br_static _ _ _ _ Hrel2 _ _ HT1) as (T2' & HT2' & Hst2).
        assert (T2' = T2) as -> by congruence.
        by rewrite (static_num_interfaces _ _ Hst2).
      * intros j tr Hj. apply trampoline_of_add_events. by apply (Hall j).
  - rewrite concat_app. simpl. rewrite app_nil_r. apply Forall_app. split.
    + eapply Forall_impl; [exact Hbnd1|]. simpl. intros tr ?.
      pose proof (or_len _ _ _ Hobj2). lia.
    + eapply Forall_impl; [exact Hbnd|]. simpl. intros tr ?.
      pose proof (or_len _ _ _ Hobj1). lia.
  - rewrite concat_app. simpl. rewrite app_nil_r. apply NoDup_app. split_and!; [done| |done].
    intros tr Hin1 Hin2. rewrite Forall_forall in Hbnd1, Hbnd.
    specialize (Hbnd1 _ Hin1). specialize (Hbnd _ Hin2). lia.
  - done.
  - rewrite concat_app. simpl. rewrite app_nil_r, rev_app_distr, Hi2, Hi1.
    by rewrite app_assoc.
  - rewrite zip_with_app by done. rewrite concat_app. simpl. rewrite app_nil_r.
    rewrite (level_events_stable _ _ _ _ _ _ _ Hrel' Hlv1).
    rewrite instance_events_add, Hev2, Hev1. unfold level_events.
    rewrite Hiev, <- !app_assoc. do 3 f_equal.
    unfold ev. destruct (ti_instance_init T2); [|done].
    rewrite filter_cons. simpl. by rewrite decide_True.
Qed.

(** ** Interface trampolines of a new instance *)

Lemma object_initialize_levels fuel data name s s' O :
  wf_state s → st_objects s !! data = Some (Some O) → o_interfaces O = [] →
  object_initialize fuel data name s = Ok s' →
  ∃ chain levels O',
    parent_chain fuel name s' = Some chain ∧
    Forall2 (level_trampolines s' data) chain levels ∧
    Forall (fun tr => length (st_objects s) ≤ tr < length (st_objects s'))%nat
           (concat levels) ∧
    NoDup (concat levels) ∧
    st_objects s' !! data = Some (Some O') ∧
    o_interfaces O' = rev (concat levels) ∧
    instance_events data s'
      = instance_events data s ++ concat (zip_with (level_events s' data) chain levels).
Proof.
  intros Hwf HO Hnil H. destruct fuel as [|fuel]; [done|].
  rewrite object_initialize_S in H.
  apply bind_Ok in H as (t & Ht & H). apply bind_Ok in H as (ti & Hti & H).
  apply bind_Ok in H as (? & Hsz & H). apply bind_Ok in H as (s1 & Hbuild & H).
  apply bind_Ok in H as (ti1 & Hti1 & H). apply bind_Ok in H as (? & Habs & H).
  apply bind_Ok in H as (s2 & Hmem & H). apply bind_Ok in H as (s3 & Hcls & H).
  destruct (type_class_init_frame _ _ _ _ Hwf Hbuild) as (Hwf1 & Hrel1).
  pose proof (type_class_init_objects _ _ _ _ Hbuild) as Hobj1.
  pose proof (type_class_init_instance_events data _ _ _ _ Hbuild) as Hev1.
  apply memset_object_Ok in Hmem as (O1 & HO1 & ->).
  apply set_obj_class_Ok in Hcls as (O2 & HO2 & ->).
  rewrite Hobj1, HO in HO1. injection HO1 as <-.
  rewrite upd_object_lookup, decide_True, Hobj1, HO in HO2 by done.
  simpl in HO2. injection HO2 as <-.
  match type of H with object_init _ _ _ ?st = _ => set (s3 := st) in * end.
  assert (wf_state s3) as Hwf3 by by do 2 apply wf_state_set_objects.
  assert (∃ O3, st_objects s3 !! data = Some (Some O3) ∧ o_interfaces O3 = [])
    as (O3 & HO3 & Hnil3).
  { unfold s3. rewrite upd_object_lookup, decide_True by done.
    rewrite upd_object_lookup, decide_True, Hobj1, HO by done. simpl.
    eexists. split; [done|]. cbn [o_interfaces]. case_match; [done | exact Hnil]. }
  destruct (object_init_levels _ _ _ _ _ _ Hwf3 HO3 H)
    as (chain & levels & O' & Hch & Hlv & Hbnd & Hnd & HO' & Hi & Hev).
  exists chain, levels, O'.
  assert (length (st_objects s3) = length (st_objects s)) as Hlen.
  { unfold s3. by rewrite !upd_object_length, Hobj1. }
  rewrite Hlen in Hbnd. rewrite Hnil3, app_nil_r in Hi.
  split_and!; try done.
  rewrite Hev. f_equal. by rewrite <- Hev1.
Qed.

(** C8 (as the code has it): [object_new] returns a fresh instance [o].
    With [chain] the ancestors of its type, the root first and the type
    itself last, [o] carries exactly one trampoline for each interface
    entry declared at each level: a distinct instance created during the
    call, whose [obj] field points to [o] and whose class is the class of a
    type whose parent is the interface the entry declares.  The interface
    list of [o] holds these trampolines and nothing else, the one installed
    last first; and the events of the call on [o] are, level by level, the
    installation of the level's trampolines in the order of its entries
    followed by the level's instance_init. *)
Theorem object_new_installs_trampolines fuel name s o s' :
  wf_state s → object_new fuel name s = Ok (o, s') →
  ∃ chain levels O,
    o = length (st_objects s) ∧
    parent_chain fuel name s' = Some chain ∧
    Forall2 (level_trampolines s' o) chain levels ∧
    Forall (fun tr => o < tr < length (st_objects s'))%nat (concat levels) ∧
    NoDup (concat levels) ∧
    st_objects s' !! o = Some (Some O) ∧
    o_interfaces O = rev (concat levels) ∧
    instance_events o s'
      = instance_events o s ++ concat (zip_with (level_events s' o) chain levels).
Proof.
  intros Hwf H. destruct fuel as [|fuel]; [done|].
  rewrite object_new_S in H.
  apply bind_Ok in H as (t & Ht & H). apply bind_Ok in H as (ti & Hti & H).
  unfold g_malloc in H. apply bind_Ok in H as (s1 & Hinit & H).
  injection H as <- <-.
  match type of Hinit with object_initialize _ _ _ ?st = _ => set (s0 := st) in * end.
  assert (wf_state s0) as Hwf0 by by apply wf_state_set_objects.
  assert (st_objects s0 !! length (st_objects s)
          = Some (Some {| o_size := ti_instance_size ti; o_class := None;
                          o_interfaces := []; o_obj := None |})) as HO0.
  { unfold s0. simpl. by rewrite lookup_app_r, Nat.sub_diag by done. }
  destruct (object_initialize_levels _ _ _ _ _ _ Hwf0 HO0 eq_refl Hinit)
    as (chain & levels & O' & Hch & Hlv & Hbnd & Hnd & HO' & Hi & Hev).
  exists chain, levels, O'. split_and!; try done.
  - by apply parent_chain_fuel.
  - eapply Forall_impl; [exact Hbnd|]. simpl. intros tr.
    unfold s0. simpl. rewrite length_app. simpl. lia.
Qed.

Lemma object_new_installs_trampolines_witness :
  ∃ chain levels O,
    0%nat = length (st_objects (from_ok iface_registry)) ∧
    parent_chain 10 (Some "impl") impl_instance = Some chain ∧
    Forall2 (level_trampolines impl_instance 0) chain levels ∧
    Forall (fun tr => 0 < tr < length (st_objects impl_instance))%nat (concat levels) ∧
    NoDup (concat levels) ∧
    st_objects impl_instance !! 0%nat = Some (Some O) ∧
    o_interfaces O = rev (concat levels) ∧
    instance_events 0 impl_instance
      = instance_events 0 (from_ok iface_registry)
        ++ concat (zip_with (level_events impl_instance 0) chain levels).
Proof.
  apply (object_new_installs_trampolines 10 (Some "impl") (from_ok iface_registry)
           0 impl_instance).
  - apply wf_check_sound. vm_compute. reflexivity.
  - vm_compute. reflexivity.
Defined.

(** "twice" declares the interface "iface_a" in two entries: its instance
    carries two trampolines, each of a class that descends from "iface_a",
    each pointing back to the instance. *)
Lemma interface_declared_twice_has_two_trampolines :
  (do s <- twice_registry;
   do (o, s) <- object_new 10 (Some "twice") s;
   do l <- obj_interfaces o s;
   do a <- nonnull (l !! 0%nat);
   do b <- nonnull (l !! 1%nat);
   do a_is <- object_is_type 10 a (Some "iface_a") s;
   do b_is <- object_is_type 10 b (Some "iface_a") s;
   do a_obj <- iface_obj a s;
   do b_obj <- iface_obj b s;
   Ok (o, l, (a_is, a_obj), (b_is, b_obj)))
  = Ok (0%nat, [2%nat; 1%nat], (true, Some 0%nat), (true, Some 0%nat)).
Proof. vm_compute. reflexivity. Qed.

(** ** Class construction happens once *)

Lemma build_rel_class_kept s s' t T c :
  wf_state s → st_types s !! t = Some T → ti_class T = Some c →
  build_rel None (length (st_classes s)) s s' → class_kept t c s s'.
Proof.
  intros Hwf HT Hc Hrel.
  destruct (wf_class _ Hwf _ _ _ HT Hc) as (k & Hk & _).
  apply lookup_lt_Some in Hk as Hlt.
  split_and!.
  - destruct (br_kept _ _ _ _ Hrel _ _ _ HT Hc) as (T' & HT' & Hc' & _). eauto.
  - by apply (br_classes _ _ _ _ Hrel).
  - destruct (br_trace _ _ _ _ Hrel) as (ev & Htr & Hev).
    unfold class_events. rewrite Htr, filter_app, (filter_none _ ev), app_nil_r; [done|].
    eapply Forall_impl; [exact Hev|]. intros e He Hce. specialize (He _ Hce). lia.
Qed.

Lemma base_init_events_class chain c s :
  filter (fun e => event_class e = Some c) (base_init_events chain (Some c) s)
  = base_init_events chain (Some c) s.
Proof.
  unfold base_init_events. induction chain as [|u chain IH]; [done|].
  cbn [omap list_omap].
  destruct (st_types s !! u ≫= _) as [e|] eqn:He; [|done].
  assert (event_class e = Some c) as Hce.
  { destruct (st_types s !! u) as [U|]; [|done]. simpl in He.
    destruct (ti_base_init U); [|done]. simpl in He. by injection He as <-. }
  rewrite filter_cons_True by done. by rewrite IH.
Qed.

Lemma class_init_events_class T c :
  filter (fun e => event_class e = Some c) (class_init_events T (Some c))
  = class_init_events T (Some c).
Proof.
  unfold class_init_events. destruct (ti_class_init T); [|done].
  by rewrite filter_cons_True.
Qed.

Lemma registered_events_class c l :
  filter (fun e => event_class e = Some c) (EvRegistered <$> l) = [].
Proof. apply filter_none, Forall_fmap, Forall_forall. by intros. Qed.

(** C5 (as the code has it): after a class build of [t] the descriptor of
    [t] has a class object [c].  If the build was the first one, the hooks
    it ran on [c] are the base_init of the proper ancestors of [t], root
    first, and then the class_init of [t], each once.  From then on a build
    of [t] returns at once and leaves the state as it is, and the class
    build of any type and the creation of any instance keep [c] as the class
    of [t], keep its content and run no hook on it. *)
Theorem type_class_init_idempotent fuel t s0 s T0 :
  wf_state s0 → st_types s0 !! t = Some T0 →
  type_class_init (S fuel) t s0 = Ok s →
  ∃ T c,
    st_types s !! t = Some T ∧ ti_class T = Some c ∧
    (ti_class T0 = None →
     ∃ chain, parent_chain fuel (ti_parent T0) s = Some chain ∧ NoDup chain ∧
              (t ∉ chain) ∧
              class_events c s = class_events c s0
                                 ++ base_init_events chain (Some c) s
                                 ++ class_init_events T0 (Some c)) ∧
    (∀ fuel', type_class_init (S fuel') t s = Ok s) ∧
    (∀ fuel' u s', type_class_init fuel' u s = Ok s' → class_kept t c s s') ∧
    (∀ fuel' name o s', object_new fuel' name s = Ok (o, s') → class_kept t c s s').
Proof.
  intros Hwf0 HT0 H.
  destruct (type_class_init_frame _ _ _ _ Hwf0 H) as (Hwf & _).
  destruct (type_class_init_builds _ _ _ _ Hwf0 H) as (T & c & HT & Hc).
  exists T, c. split_and!; [done | done | | | |].
  - intros Hc0.
    destruct (type_class_init_trace _ _ _ _ _ Hwf0 HT0 Hc0 H)
      as (chain & pre & a0 & Hcls & Hchain & Hnd & Hnin & Htr & Hpre).
    rewrite HT in Hcls. simpl in Hcls. rewrite Hc in Hcls.
    injection Hcls as ->.
    exists chain. split_and!; [done..|].
    unfold class_events. rewrite Htr, !filter_app.
    rewrite (filter_none _ pre) by done.
    by rewrite base_init_events_class, registered_events_class, class_init_events_class.
  - intros fuel'. by apply (type_class_init_built _ _ _ T).
  - intros fuel' u s' H'.
    destruct (type_class_init_frame _ _ _ _ Hwf H') as (_ & Hrel).
    by eapply build_rel_class_kept.
  - intros fuel' name o s' H'.
    destruct (object_ops_frame fuel') as (_ & _ & _ & F4).
    destruct (F4 _ _ _ _ Hwf H') as (_ & Hrel & _).
    by eapply build_rel_class_kept.
Qed.

Lemma type_class_init_idempotent_witness :
  ∃ T c,
    st_types (from_ok (type_class_init 10 3 (from_ok chain_registry))) !! 3%nat = Some T ∧
    ti_class T = Some c ∧
    (ti_class Leaf_type = None →
     ∃ chain,
       parent_chain 9 (ti_parent Leaf_type)
         (from_ok (type_class_init 10 3 (from_ok chain_registry))) = Some chain ∧
       NoDup chain ∧ (3%nat ∉ chain) ∧
       class_events c (from_ok (type_class_init 10 3 (from_ok chain_registry)))
       = class_events c (from_ok chain_registry)
         ++ base_init_events chain (Some c)
              (from_ok (type_class_init 10 3 (from_ok chain_registry)))
         ++ class_init_events Leaf_type (Some c)) ∧
    (∀ fuel', type_class_init (S fuel') 3
                (from_ok (type_class_init 10 3 (from_ok chain_registry)))
              = Ok (from_ok (type_class_init 10 3 (from_ok chain_registry)))) ∧
    (∀ fuel' u s',
       type_class_init fuel' u (from_ok (type_class_init 10 3 (from_ok chain_registry)))
       = Ok s' →
       class_kept 3 c (from_ok (type_class_init 10 3 (from_ok chain_registry))) s') ∧
    (∀ fuel' name o s',
       object_new fuel' name (from_ok (type_class_init 10 3 (from_ok chain_registry)))
       = Ok (o, s') →
       class_kept 3 c (from_ok (type_class_init 10 3 (from_ok chain_registry))) s').
Proof.
  apply (type_class_init_idempotent 9 3 (from_ok chain_registry) _ Leaf_type).
  - exact wf_chain_registry.
  - vm_compute. reflexivity.
  - vm_compute. reflexivity.
Defined.

(** The run on Root -> Mid -> Leaf: building the class of Leaf builds the
    classes of Mid (object 1) and Root (object 2) on the way, and the
    base_init of Root (11) runs twice, once on the class of Mid and once on
    the class of Leaf (object 0). *)
Lemma base_init_runs_for_every_descendant :
  info_base_init Root_info = Some 11%nat ∧
  (do s <- chain_registry;
   do s' <- type_class_init 10 3 s;
   Ok (base_init_runs 11 (events_since s s')))
  = Ok [EvBaseInit 11 (Some 1); EvBaseInit 11 (Some 0)]%nat.
Proof. split; vm_compute; reflexivity. Qed.

(** * Further properties of the code *)

(** ** Registration *)

Lemma copy_interfaces_name l : ∀ i ti ti',
  copy_interfaces l i ti = Ok ti' → ti_name ti' = ti_name ti.
Proof.
  induction l as [|e l IH]; intros i ti ti' H; simpl in H.
  - by injection H as <-.
  - case_decide; [|done]. by apply IH in H.
Qed.

Lemma copy_interfaces_spec l : ∀ i ti pre,
  ti_interfaces ti = pre ++ replicate (MAX_INTERFACES - i) zero_interface →
  length pre = i → (i + length l ≤ MAX_INTERFACES)%nat →
  copy_interfaces l i ti
  = Ok (with_interfaces (ti_num_interfaces ti + length l)
          (pre ++ (declared_entry <$> l)
               ++ replicate (MAX_INTERFACES - i - length l) zero_interface) ti).
Proof.
  induction l as [|e l IH]; intros i ti pre Hti Hpre Hi; simpl in *.
  - rewrite Nat.add_0_r, Nat.sub_0_r, <- Hti. by destruct ti.
  - rewrite decide_True by lia.
    replace (MAX_INTERFACES - i)%nat with (S (MAX_INTERFACES - S i)) in Hti by lia.
    rewrite (IH (S i) _ (pre ++ [declared_entry e])).
    + f_equal. unfold with_interfaces. cbn [ti_num_interfaces]. f_equal; [lia|].
      rewrite <- app_assoc. cbn [app fmap list_fmap].
      by replace (MAX_INTERFACES - S i - length l)%nat
        with (MAX_INTERFACES - i - S (length l))%nat by lia.
    + cbn [ti_interfaces with_interfaces]. rewrite Hti.
      rewrite alter_app_r_alt, Hpre, Nat.sub_diag by lia.
      by rewrite <- app_assoc.
    + rewrite length_app. simpl. lia.
    + lia.
Qed.

Lemma copy_interfaces_overflow l : ∀ i ti,
  (MAX_INTERFACES < i + length l)%nat → (i ≤ MAX_INTERFACES)%nat →
  copy_interfaces l i ti = Err Undefined.
Proof.
  induction l as [|e l IH]; intros i ti Hl Hi; simpl in *; [lia|].
  case_decide; [|done]. apply IH; lia.
Qed.

Lemma type_register_static_Ok info name s :
  info_name info = Some name → (length (declared info) ≤ MAX_INTERFACES)%nat →
  type_register_static info s
  = Ok (length (st_types s), state_registered name (registered_type name info) s).
Proof.
  intros Hname Hlen. unfold type_register_static, info_copy_interfaces.
  rewrite Hname. cbn [g_assert bool_decide decide_rel bind nonnull].
  set (ti0 := {| ti_name := name |}).
  assert (match info_interfaces info with
          | Some l => copy_interfaces l 0 ti0
          | None => Ok ti0
          end = Ok (registered_type name info)) as ->.
  { unfold declared in Hlen. unfold registered_type, declared.
    destruct (info_interfaces info) as [l|]; simpl in *.
    - rewrite (copy_interfaces_spec l 0 ti0 []) by (done || (simpl; lia)).
      unfold with_interfaces. cbn [app ti_num_interfaces ti0 Nat.add].
      by rewrite Nat.sub_0_r.
    - done. }
  cbn [bind]. unfold type_table_add, get_type. st_simpl.
  by rewrite lookup_app_r, Nat.sub_diag by lia.
Qed.

(** Registration of a TypeInfo with a name and at most MAX_INTERFACES
    interface declarations succeeds.  It appends one descriptor, a copy of
    the TypeInfo with no class and with the declarations in the first slots
    of the array, and enters it in the table under its name; the name
    resolves to it, and no class object, instance or counter changes. *)
Theorem type_register_static_registers info name s :
  info_name info = Some name → (length (declared info) ≤ MAX_INTERFACES)%nat →
  ∃ s',
    type_register_static info s = Ok (length (st_types s), s') ∧
    st_types s' = st_types s ++ [registered_type name info] ∧
    st_type_table s' = <[name := length (st_types s)]> (st_type_table s) ∧
    type_get_by_name (Some name) s' = Some (length (st_types s)) ∧
    get_type (length (st_types s)) s' = Ok (registered_type name info) ∧
    st_classes s' = st_classes s ∧ st_objects s' = st_objects s ∧
    st_count s' = st_count s.
Proof.
  intros Hname Hlen. eexists. split; [by apply type_register_static_Ok|].
  split_and!; try done.
  - unfold type_get_by_name, type_table_lookup. simpl. apply lookup_insert_eq.
  - unfold get_type. simpl. by rewrite lookup_app_r, Nat.sub_diag by lia.
Qed.

Lemma type_register_static_registers_witness :
  ∃ s',
    type_register_static impl_info (from_ok chain_registry)
      = Ok (length (st_types (from_ok chain_registry)), s') ∧
    st_types s' = st_types (from_ok chain_registry) ++ [registered_type "impl" impl_info] ∧
    st_type_table s'
      = <["impl" := length (st_types (from_ok chain_registry))]>
          (st_type_table (from_ok chain_registry)) ∧
    type_get_by_name (Some "impl") s' = Some (length (st_types (from_ok chain_registry))) ∧
    get_type (length (st_types (from_ok chain_registry))) s'
      = Ok (registered_type "impl" impl_info) ∧
    st_classes s' = st_classes (from_ok chain_registry) ∧
    st_objects s' = st_objects (from_ok chain_registry) ∧
    st_count s' = st_count (from_ok chain_registry).
Proof.
  apply (type_register_static_registers impl_info "impl" (from_ok chain_registry)).
  - reflexivity.
  - vm_compute. lia.
Defined.

(** Registration of a TypeInfo with more than MAX_INTERFACES declarations
    never completes: whatever the rest of the TypeInfo and the registry
    are, the copy loop writes past the array of the descriptor. *)
Theorem type_register_static_overflow info name s :
  info_name info = Some name → (MAX_INTERFACES < length (declared info))%nat →
  type_register_static info s = Err Undefined.
Proof.
  intros Hname Hlen. unfold type_register_static, info_copy_interfaces.
  rewrite Hname. cbn [g_assert bool_decide decide_rel bind nonnull].
  unfold declared in Hlen. destruct (info_interfaces info) as [l|]; simpl in Hlen.
  - rewrite copy_interfaces_overflow; [done | lia | lia].
  - unfold MAX_INTERFACES in Hlen. lia.
Qed.

Lemma type_register_static_overflow_witness :
  type_register_static crowded_info (from_ok iface_registry) = Err Undefined.
Proof.
  apply (type_register_static_overflow crowded_info "crowded").
  - reflexivity.
  - vm_compute. lia.
Defined.

Lemma registered_type_if_type name info i e :
  ti_interfaces (registered_type name info) !! i = Some e → if_type e = None.
Proof.
  simpl. intros H. apply lookup_app_Some in H as [H|[_ H]].
  - rewrite list_lookup_fmap in H.
    destruct (declared info !! i); [|done]. by injection H as <-.
  - apply lookup_replicate in H as [-> _]. done.
Qed.

(** The invariant of the registry is kept by the registration of a type
    under a name that is free and that is not the name of an anonymous
    type. *)
Theorem type_register_static_wf info name s :
  wf_state s →
  info_name info = Some name → (length (declared info) ≤ MAX_INTERFACES)%nat →
  type_table_lookup name s = None → (∀ n, name ≠ anonymous_name n) →
  0 ≤ info_class_size info < 2 ^ 64 →
  ∃ t s', type_register_static info s = Ok (t, s') ∧ wf_state s'.
Proof.
  intros [A C Z I] Hname Hlen Hfree Hanon Hsize.
  eexists _, _. split; [by apply type_register_static_Ok|].
  split; simpl.
  - intros n Hn. rewrite lookup_insert_ne by apply Hanon. by apply A.
  - intros t T c HT Hc. apply lookup_app_Some in HT as [HT|[_ HT]]; [by eapply C|].
    apply list_lookup_singleton_Some in HT as [_ <-]. done.
  - intros t T HT. apply lookup_app_Some in HT as [HT|[_ HT]]; [by eapply Z|].
    apply list_lookup_singleton_Some in HT as [_ <-]. done.
  - intros t T i e a HT He Ha. apply lookup_app_Some in HT as [HT|[_ HT]].
    + destruct (I _ _ _ _ _ HT He Ha) as (A' & HA' & Hn & Hp).
      exists A'. split_and!; [by apply lookup_app_l_Some | | done].
      rewrite lookup_insert_ne; [done|]. intros ->.
      unfold type_table_lookup in Hfree. congruence.
    + apply list_lookup_singleton_Some in HT as [_ <-].
      apply registered_type_if_type in He. congruence.
Qed.

Lemma type_register_static_wf_witness :
  ∃ t s', type_register_static impl_info (from_ok chain_registry) = Ok (t, s') ∧
          wf_state s'.
Proof.
  apply (type_register_static_wf impl_info "impl").
  - exact wf_chain_registry.
  - reflexivity.
  - vm_compute. lia.
  - vm_compute. reflexivity.
  - intros n. unfold anonymous_name. discriminate.
  - vm_compute. split; [discriminate | reflexivity].
Defined.

(** An anonymous registration never replaces an entry of the table: in a
    well-formed registry the name it issues, made of the counter, is free;
    every name registered before resolves as before, the new name resolves
    to the new descriptor, the counter advances by one and the names of the
    later counter values stay free. *)
Theorem type_register_anonymous_fresh info s a s' :
  wf_state s → type_register_anonymous info s = Ok (a, s') →
  a = length (st_types s) ∧
  type_table_lookup (anonymous_name (st_count s)) s = None ∧
  st_type_table s' = <[anonymous_name (st_count s) := a]> (st_type_table s) ∧
  (∀ nm t, type_table_lookup nm s = Some t → type_table_lookup nm s' = Some t) ∧
  ti_name <$> st_types s' !! a = Some (anonymous_name (st_count s)) ∧
  st_count s' = st_count s + 1 ∧
  (∀ n, st_count s' ≤ n → type_table_lookup (anonymous_name n) s' = None).
Proof.
  intros [A C Z I] H. unfold type_register_anonymous in H.
  apply bind_Ok in H as (? & Hcount & H). apply bind_Ok in H as (ti & Hti & H).
  apply bind_Ok in H as (s1 & Hadd & H). injection H as <- <-.
  assert (ti_name ti = anonymous_name (st_count s)) as Hn.
  { unfold info_copy_interfaces in Hti. destruct (info_interfaces info).
    - by apply copy_interfaces_name in Hti.
    - by injection Hti as <-. }
  unfold type_table_add, get_type in Hadd. st_simpl.
  rewrite lookup_app_r, Nat.sub_diag in Hadd by lia. simpl in Hadd.
  injection Hadd as <-. simpl. rewrite Hn.
  assert (st_type_table s !! anonymous_name (st_count s) = None) as Hfree
    by (apply A; lia).
  split_and!; try done.
  - intros nm t Hnm. unfold type_table_lookup in *. simpl.
    rewrite lookup_insert_ne; [done|]. intros <-. congruence.
  - by rewrite lookup_app_r, Nat.sub_diag, <- Hn by lia.
  - intros n Hle. unfold type_table_lookup. simpl.
    rewrite lookup_insert_ne; [apply A; lia|].
    intros E. apply anonymous_name_inj in E. lia.
Qed.

Lemma type_register_anonymous_fresh_witness :
  3%nat = length (st_types (from_ok iface_registry)) ∧
  type_table_lookup (anonymous_name (st_count (from_ok iface_registry)))
    (from_ok iface_registry) = None ∧
  st_type_table (ok_state (type_register_anonymous iface_a_info (from_ok iface_registry)))
    = <[anonymous_name (st_count (from_ok iface_registry)) := 3%nat]>
        (st_type_table (from_ok iface_registry)) ∧
  (∀ nm t, type_table_lookup nm (from_ok iface_registry) = Some t →
           type_table_lookup nm
             (ok_state (type_register_anonymous iface_a_info (from_ok iface_registry)))
           = Some t) ∧
  ti_name <$> st_types
      (ok_state (type_register_anonymous iface_a_info (from_ok iface_registry))) !! 3%nat
    = Some (anonymous_name (st_count (from_ok iface_registry))) ∧
  st_count (ok_state (type_register_anonymous iface_a_info (from_ok iface_registry)))
    = st_count (from_ok iface_registry) + 1 ∧
  (∀ n, st_count (ok_state (type_register_anonymous iface_a_info (from_ok iface_registry)))
        ≤ n →
        type_table_lookup (anonymous_name n)
          (ok_state (type_register_anonymous iface_a_info (from_ok iface_registry)))
        = None).
Proof.
  apply (type_register_anonymous_fresh iface_a_info (from_ok iface_registry)).
  - exact wf_iface_registry.
  - vm_compute. reflexivity.
Defined.

(** ** Ancestry and casts *)

Lemma elem_of_chain_snoc (target : option nat) l t :
  target ∈ Some <$> (l ++ [t]) ↔ target ∈ Some <$> l ∨ target = Some t.
Proof. rewrite fmap_app, elem_of_app. simpl. by rewrite list_elem_of_singleton. Qed.

(** The walk up the parents decides membership in the parent chain. *)
Lemma type_is_ancestor_chain fuel : ∀ name chain target s,
  parent_chain fuel name s = Some chain →
  type_is_ancestor fuel (type_get_by_name name s) target s
  = Ok (bool_decide (target ∈ Some <$> chain)).
Proof.
  induction fuel as [|fuel IH]; intros name chain target s H; [done|].
  rewrite type_is_ancestor_S. simpl in H. destruct name as [nm|].
  - simpl in *. destruct (type_table_lookup nm s) as [t|]; [|done]. simpl in *.
    destruct (st_types s !! t) as [T|] eqn:HT; [|done]. simpl in *.
    destruct (parent_chain fuel (ti_parent T) s) as [l|] eqn:Hl; [|done].
    injection H as <-. case_decide as Heq.
    + f_equal. symmetry. apply bool_decide_eq_true. subst target.
      apply elem_of_chain_snoc. by right.
    + unfold get_type. rewrite HT. cbn [nonnull bind].
      rewrite (IH _ _ _ _ Hl). f_equal. apply bool_decide_ext.
      rewrite elem_of_chain_snoc. split; [by left | by intros [?|?]].
  - injection H as <-. simpl. f_equal; symmetry; apply bool_decide_eq_false;
      apply not_elem_of_nil.
Qed.




Lemma find_interface_None (f : nat → result bool) l :
  find_interface f l = Ok None → ∀ x, x ∈ l → f x = Ok false.
Proof.
  induction l as [|y l IH]; simpl; intros H x Hx; [by apply elem_of_nil in Hx|].
  apply bind_Ok in H as (b & Hb & H). destruct b; [done|].
  apply elem_of_cons in Hx as [->|Hx]; [done|]. by apply IH.
Qed.

Lemma find_interface_all_false (f : nat → result bool) l :
  (∀ x, x ∈ l → f x = Ok false) → find_interface f l = Ok None.
Proof.
  induction l as [|y l IH]; simpl; intros H; [done|].
  rewrite (H y) by (apply elem_of_cons; by left). cbn [bind].
  apply IH. intros x Hx. apply H. apply elem_of_cons. by right.
Qed.

(** When [object_is_type] says no, no interface of the list passes the
    test either: the second loop of [object_dynamic_cast] finds nothing. *)
Lemma object_is_type_false_interfaces fuel obj typename s l :
  object_is_type fuel obj typename s = Ok false →
  obj_interfaces obj s = Ok l →
  find_interface (fun iface => object_is_type fuel iface typename s) l = Ok None.
Proof.
  intros H Hl. destruct fuel as [|fuel]; [discriminate|].
  rewrite object_is_type_S in H.
  apply bind_Ok in H as (c & Hc & H). apply bind_Ok in H as (c' & Hc' & H).
  apply bind_Ok in H as (k & Hk & H). apply bind_Ok in H as (b0 & Hb0 & H).
  destruct b0; [discriminate|].
  apply bind_Ok in H as (l' & Hl' & H). apply bind_Ok in H as (r & Hr & H).
  assert (l' = l) as -> by congruence.
  destruct r as [i|]; [discriminate|].
  apply find_interface_all_false. intros x Hx.
  apply object_is_type_fuel.
  exact (find_interface_None (fun iface => object_is_type fuel iface typename s)
           l Hr x Hx).
Qed.

(** A cast that succeeds returns the object it was given or, when that
    object is an interface trampoline, the instance the trampoline points
    back to, never a trampoline of the interface list of the object; and
    what it returns passes [object_is_type] for the target. *)
Theorem object_dynamic_cast_sound fuel obj typename s r :
  object_dynamic_cast fuel obj typename s = Ok (Some r) →
  (r = obj ∨ iface_obj obj s = Ok (Some r)) ∧
  object_is_type fuel r typename s = Ok true.
Proof.
  destruct fuel as [|fuel]; [discriminate|]. rewrite object_dynamic_cast_S. intros H.
  apply bind_Ok in H as (b & Hb & H). destruct b.
  { injection H as <-. split; [by left|]. by apply object_is_type_fuel. }
  apply bind_Ok in H as (l & Hl & H). apply bind_Ok in H as (r0 & Hr0 & H).
  rewrite (object_is_type_false_interfaces _ _ _ _ _ Hb Hl) in Hr0.
  injection Hr0 as <-.
  apply bind_Ok in H as (b & Hb' & H). destruct b; [|discriminate].
  apply bind_Ok in H as (iface & Hiface & H).
  apply object_dynamic_cast_assert_interface in Hiface as ->.
  apply bind_Ok in H as (owner & Howner & H). apply bind_Ok in H as (ow & How & H).
  apply nonnull_Ok in How. subst owner.
  apply bind_Ok in H as (b & Hb'' & H). destruct b; [|discriminate].
  injection H as <-. split; [by right|]. by apply object_is_type_fuel.
Qed.

Lemma object_dynamic_cast_sound_witness :
  (0%nat = 1%nat ∨ iface_obj 1 impl_instance = Ok (Some 0%nat)) ∧
  object_is_type 10 0 (Some "impl") impl_instance = Ok true.
Proof.
  apply (object_dynamic_cast_sound 10 1 (Some "impl") impl_instance 0).
  vm_compute. reflexivity.
Defined.



(** ** Instances *)

Lemma static_abstract U U' : static U' = static U → ti_abstract U' = ti_abstract U.
Proof. intros H. by apply (f_equal ti_abstract) in H. Qed.

Lemma static_instance_size U U' :
  static U' = static U → ti_instance_size U' = ti_instance_size U.
Proof. intros H. by apply (f_equal ti_instance_size) in H. Qed.

Lemma object_initialize_instance fuel data name s s' O :
  wf_state s → st_objects s !! data = Some (Some O) →
  object_initialize fuel data name s = Ok s' →
  ∃ t T T' c O',
    type_get_by_name name s = Some t ∧ st_types s !! t = Some T ∧
    sizeof_ObjectClass ≤ ti_instance_size T ≤ o_size O ∧ ti_abstract T = false ∧
    st_types s' !! t = Some T' ∧ static T' = static T ∧ ti_class T' = Some c ∧
    st_objects s' !! data = Some (Some O') ∧ o_class O' = Some c ∧
    o_size O' = o_size O.
Proof.
  intros Hwf HO H. destruct fuel as [|fuel]; [done|].
  destruct (object_ops_frame fuel) as (F1 & _ & _ & _).
  rewrite object_initialize_S in H.
  apply bind_Ok in H as (t & Ht & H). apply bind_Ok in H as (T & HT & H).
  apply bind_Ok in H as (? & Hsz & H). apply bind_Ok in H as (s1 & Hbuild & H).
  apply bind_Ok in H as (T1 & HT1 & H). apply bind_Ok in H as (? & Habs & H).
  apply bind_Ok in H as (s2 & Hmem & H). apply bind_Ok in H as (s3 & Hcls & H).
  apply nonnull_Ok in Ht, HT, HT1. apply g_assert_Ok in Hsz, Habs.
  apply bool_decide_eq_true in Hsz, Habs.
  destruct (type_class_init_frame _ _ _ _ Hwf Hbuild) as (Hwf1 & Hrel1).
  pose proof (type_class_init_objects _ _ _ _ Hbuild) as Hobj1.
  destruct (type_class_init_builds _ _ _ _ Hwf Hbuild) as (T1' & c & HT1' & Hc).
  assert (T1' = T1) as -> by congruence.
  destruct (br_static _ _ _ _ Hrel1 _ _ HT) as (T1' & HT1'' & Hst1).
  assert (T1' = T1) as -> by congruence.
  assert (ti_instance_size T1 ≤ o_size O) as Hfit.
  { unfold memset_object in Hmem. apply bind_Ok in Hmem as (O0 & HO0 & Hmem).
    apply get_object_Ok in HO0. rewrite Hobj1, HO in HO0. injection HO0 as <-.
    by case_decide. }
  apply memset_object_Ok in Hmem as (O1 & HO1 & ->).
  apply set_obj_class_Ok in Hcls as (O2 & HO2 & ->).
  rewrite Hobj1, HO in HO1. injection HO1 as <-.
  match type of H with object_init _ _ _ ?st = _ => set (s3 := st) in * end.
  assert (wf_state s3) as Hwf3 by by do 2 apply wf_state_set_objects.
  destruct (F1 _ _ _ _ Hwf3 H) as (Hwf' & Hrel' & [L K S E]).
  destruct (S {| o_size := o_size O2; o_class := ti_class T1;
                 o_interfaces := o_interfaces O2; o_obj := o_obj O2 |})
    as (O' & HO' & Hsize' & Hc' & _).
  { unfold s3. rewrite upd_object_lookup, decide_True by done. by rewrite HO2. }
  assert (o_size O2 = o_size O) as HszO.
  { rewrite upd_object_lookup, decide_True, Hobj1, HO in HO2 by done.
    simpl in HO2. by injection HO2 as <-. }
  assert (st_types s3 !! t = Some T1) as HT3 by done.
  destruct (br_kept _ _ _ _ Hrel' _ _ _ HT3 Hc) as (T' & HT' & HcT' & _).
  destruct (br_static _ _ _ _ Hrel' _ _ HT3) as (T'' & HT'' & Hst').
  assert (T'' = T') as -> by congruence.
  exists t, T, T', c, O'. simpl in *.
  rewrite (static_instance_size _ _ Hst1) in Hfit.
  split_and!; try done; try congruence.
  by rewrite <- (static_abstract _ _ Hst1).
Qed.

Lemma object_new_instance fuel name s o s' :
  wf_state s → object_new fuel name s = Ok (o, s') →
  ∃ t T T' c k O,
    wf_state s' ∧ build_rel None (length (st_classes s)) s s' ∧ objects_kept s s' ∧
    o = length (st_objects s) ∧
    type_get_by_name name s = Some t ∧ st_types s !! t = Some T ∧
    sizeof_ObjectClass ≤ ti_instance_size T ∧ ti_abstract T = false ∧
    st_types s' !! t = Some T' ∧ static T' = static T ∧ ti_class T' = Some c ∧
    st_classes s' !! c = Some k ∧ oc_type k = t ∧
    st_objects s' !! o = Some (Some O) ∧ o_class O = Some c ∧
    o_size O = ti_instance_size T.
Proof.
  intros Hwf H.
  destruct (object_ops_frame fuel) as (_ & _ & _ & F4).
  destruct (F4 _ _ _ _ Hwf H) as (Hwf' & Hrel & -> & Hkept & _).
  destruct fuel as [|fuel]; [done|]. rewrite object_new_S in H.
  apply bind_Ok in H as (t & Ht & H). apply bind_Ok in H as (T & HT & H).
  unfold g_malloc in H. apply bind_Ok in H as (s1 & Hinit & H).
  injection H as <-. apply nonnull_Ok in Ht, HT.
  match type of Hinit with object_initialize _ _ _ ?st = _ => set (s0 := st) in * end.
  assert (wf_state s0) as Hwf0 by by apply wf_state_set_objects.
  assert (st_objects s0 !! length (st_objects s)
          = Some (Some {| o_size := ti_instance_size T; o_class := None;
                          o_interfaces := []; o_obj := None |})) as HO0.
  { unfold s0. simpl. by rewrite lookup_app_r, Nat.sub_diag by done. }
  destruct (object_initialize_instance _ _ _ _ _ _ Hwf0 HO0 Hinit)
    as (t' & T0 & T' & c & O' & Ht' & HT0 & Hsz & Habs & HT' & Hst & Hc & HO' & HcO & HszO).
  assert (t' = t) as -> by (change (type_get_by_name name s = Some t') in Ht'; congruence).
  assert (T0 = T) as -> by (change (st_types s !! t = Some T0) in HT0; congruence).
  destruct (wf_class _ Hwf' _ _ _ HT' Hc) as (k & Hk & Hkt).
  exists t, T, T', c, k, O'. simpl in *. split_and!; try done. lia.
Qed.

(** Creating an instance keeps the invariant of the registry and disturbs
    nothing that exists: the new instance is the next allocation, every
    earlier instance is as it was, every registered name resolves as
    before, every class object that existed has the content it had, and
    every descriptor keeps its class once it has one. *)
Theorem object_new_frame fuel name s o s' :
  wf_state s → object_new fuel name s = Ok (o, s') →
  wf_state s' ∧ o = length (st_objects s) ∧
  (∀ x, (x < length (st_objects s))%nat → st_objects s' !! x = st_objects s !! x) ∧
  (∀ nm t, type_table_lookup nm s = Some t → type_table_lookup nm s' = Some t) ∧
  (∀ c, (c < length (st_classes s))%nat → st_classes s' !! c = st_classes s !! c) ∧
  (∀ u U c, st_types s !! u = Some U → ti_class U = Some c →
            ti_class <$> st_types s' !! u = Some (Some c)).
Proof.
  intros Hwf H.
  destruct (object_new_instance _ _ _ _ _ Hwf H)
    as (t & T & T' & c & k & O & Hwf' & Hrel & [_ Hkept] & Ho & _).
  split_and!; try done.
  - intros x Hx. by apply Hkept.
  - intros nm u Hnm. eapply lookup_weaken; [exact Hnm | apply Hrel].
  - apply (br_classes _ _ _ _ Hrel).
  - intros u U c' HU Hc'.
    destruct (br_kept _ _ _ _ Hrel _ _ _ HU Hc') as (U' & -> & HcU' & _).
    simpl. by rewrite HcU'.
Qed.

Lemma object_new_frame_witness :
  wf_state impl_instance ∧ 0%nat = length (st_objects (from_ok iface_registry)) ∧
  (∀ x, (x < length (st_objects (from_ok iface_registry)))%nat →
        st_objects impl_instance !! x = st_objects (from_ok iface_registry) !! x) ∧
  (∀ nm t, type_table_lookup nm (from_ok iface_registry) = Some t →
           type_table_lookup nm impl_instance = Some t) ∧
  (∀ c, (c < length (st_classes (from_ok iface_registry)))%nat →
        st_classes impl_instance !! c = st_classes (from_ok iface_registry) !! c) ∧
  (∀ u U c, st_types (from_ok iface_registry) !! u = Some U → ti_class U = Some c →
            ti_class <$> st_types impl_instance !! u = Some (Some c)).
Proof.
  apply (object_new_frame 10 (Some "impl") (from_ok iface_registry) 0 impl_instance).
  - exact wf_iface_registry.
  - vm_compute. reflexivity.
Defined.

(** The instance that [object_new] returns for a name has the class of
    the type the name resolves to: [object_get_class] returns that class,
    and [object_get_type] and [object_class_get_name] return the name of
    that type. *)
Theorem object_new_get_type fuel name s o s' t T :
  wf_state s → type_get_by_name name s = Some t → st_types s !! t = Some T →
  object_new fuel name s = Ok (o, s') →
  object_get_type o s' = Ok (ti_name T) ∧
  ∃ c, ti_class <$> st_types s' !! t = Some (Some c) ∧
       object_get_class o s' = Ok (Some c) ∧
       object_class_get_name c s' = Ok (ti_name T).
Proof.
  intros Hwf Ht HT H.
  destruct (object_new_instance _ _ _ _ _ Hwf H)
    as (t' & T0 & T' & c & k & O & Hwf' & Hrel & _ & Ho & Ht' & HT0 & Hsz & _ & HT'
        & Hst & Hc & Hk & Hkt & HO & HcO & HszO).
  assert (t' = t) as -> by congruence. assert (T0 = T) as -> by congruence.
  unfold object_get_type, object_get_class, object_class_get_name, obj_class,
    get_object, get_class, get_type.
  rewrite HO. cbn [mjoin option_join nonnull bind].
  rewrite decide_True by lia. rewrite HcO. cbn [nonnull bind].
  rewrite Hk. cbn [nonnull bind]. rewrite Hkt, HT'. cbn [nonnull bind].
  rewrite (static_name _ _ Hst). split; [done|].
  exists c. rewrite ?HT'. simpl. rewrite Hc. split_and!; try done.
  rewrite Hk. cbn [nonnull bind]. rewrite Hkt, HT'. cbn [nonnull bind].
  by rewrite (static_name _ _ Hst).
Qed.

Lemma object_new_get_type_witness :
  object_get_type 0 impl_instance = Ok "impl" ∧
  ∃ c, ti_class <$> st_types impl_instance !! 2%nat = Some (Some c) ∧
       object_get_class 0 impl_instance = Ok (Some c) ∧
       object_class_get_name c impl_instance = Ok "impl".
Proof.
  apply (object_new_get_type 10 (Some "impl") (from_ok iface_registry) 0 impl_instance
           2 (registered_type "impl" impl_info)).
  - exact wf_iface_registry.
  - vm_compute. reflexivity.
  - vm_compute. reflexivity.
  - vm_compute. reflexivity.
Defined.

Lemma object_new_chain fuel name s o s' :
  wf_state s → object_new fuel name s = Ok (o, s') →
  ∃ chain, parent_chain fuel name s' = Some chain.
Proof.
  intros Hwf H. destruct fuel as [|fuel]; [done|]. rewrite object_new_S in H.
  apply bind_Ok in H as (t & Ht & H). apply bind_Ok in H as (T & HT & H).
  unfold g_malloc in H. apply bind_Ok in H as (s1 & Hinit & H).
  injection H as <- <-.
  match type of Hinit with object_initialize _ _ _ ?st = _ => set (s0 := st) in * end.
  assert (wf_state s0) as Hwf0 by by apply wf_state_set_objects.
  assert (st_objects s0 !! length (st_objects s)
          = Some (Some {| o_size := ti_instance_size T; o_class := None;
                          o_interfaces := []; o_obj := None |})) as HO0.
  { unfold s0. simpl. by rewrite lookup_app_r, Nat.sub_diag by done. }
  destruct (object_initialize_levels _ _ _ _ _ _ Hwf0 HO0 eq_refl Hinit)
    as (chain & _ & _ & Hch & _).
  exists chain. by apply parent_chain_fuel.
Qed.

(** An instance passes [object_is_type] for the name of every type of its
    parent chain, its own type included, and the casts to such a name
    return the instance itself, whether it carries trampolines or not. *)
Theorem object_new_upcast fuel name s o s' :
  wf_state s → object_new fuel name s = Ok (o, s') →
  ∃ chain,
    parent_chain fuel name s' = Some chain ∧
    ∀ nm u, u ∈ chain → type_table_lookup nm s' = Some u →
      object_is_type (S fuel) o (Some nm) s' = Ok true ∧
      object_dynamic_cast (S (S fuel)) o (Some nm) s' = Ok (Some o) ∧
      object_dynamic_cast_assert (S (S (S fuel))) o (Some nm) s' = Ok o.
Proof.
  intros Hwf H.
  destruct (object_new_chain _ _ _ _ _ Hwf H) as (chain & Hchain).
  destruct (object_new_instance _ _ _ _ _ Hwf H)
    as (t & T & T' & c & k & O & Hwf' & Hrel & _ & Ho & Ht & HT & Hsz & _ & HT'
        & Hst & Hc & Hk & Hkt & HO & HcO & HszO).
  exists chain. split; [done|]. intros nm u Hu Hnm.
  assert (object_is_type (S fuel) o (Some nm) s' = Ok true) as Hty.
  { rewrite object_is_type_S. unfold obj_class, get_object, get_class.
    rewrite HO. cbn [mjoin option_join nonnull bind].
    rewrite decide_True by lia. rewrite HcO. cbn [nonnull bind].
    rewrite Hk. cbn [nonnull bind]. rewrite Hkt.
    rewrite <- (type_get_by_name_mono _ _ _ _ _ _ Hrel Ht).
    rewrite (type_is_ancestor_chain _ _ _ _ _ Hchain). cbn [bind].
    rewrite bool_decide_eq_true_2; [done|].
    simpl. rewrite Hnm. by apply list_elem_of_fmap_2. }
  split_and!; [done | |].
  - rewrite object_dynamic_cast_S, Hty. done.
  - change (object_dynamic_cast_assert (S (S (S fuel))) o (Some nm) s')
      with (do inst <- object_dynamic_cast (S (S fuel)) o (Some nm) s';
            match inst with
            | Some inst => Ok inst
            | None => Err AssertFail
            end).
    rewrite object_dynamic_cast_S, Hty. done.
Qed.

Lemma object_new_upcast_witness :
  ∃ chain,
    parent_chain 10 (Some "Leaf") leaf_instance = Some chain ∧
    ∀ nm u, u ∈ chain → type_table_lookup nm leaf_instance = Some u →
      object_is_type 11 0 (Some nm) leaf_instance = Ok true ∧
      object_dynamic_cast 12 0 (Some nm) leaf_instance = Ok (Some 0%nat) ∧
      object_dynamic_cast_assert 13 0 (Some nm) leaf_instance = Ok 0%nat.
Proof.
  apply (object_new_upcast 10 (Some "Leaf") (from_ok chain_registry) 0 leaf_instance).
  - exact wf_chain_registry.
  - vm_compute. reflexivity.
Defined.

(** [object_new] never returns an instance of an abstract type; and when
    the class of the abstract type can be built, [object_initialize] builds
    it and then fails on its second assertion. *)
Theorem object_new_abstract fuel name s t T :
  wf_state s → type_get_by_name name s = Some t → st_types s !! t = Some T →
  ti_abstract T = true →
  (∀ o s', object_new fuel name s ≠ Ok (o, s')) ∧
  (∀ data s1, sizeof_ObjectClass ≤ ti_instance_size T →
              type_class_init fuel t s = Ok s1 →
              object_initialize (S fuel) data name s = Err AssertFail).
Proof.
  intros Hwf Ht HT Habs. split.
  - intros o s' H.
    destruct (object_new_instance _ _ _ _ _ Hwf H)
      as (t' & T0 & T' & c & k & O & _ & _ & _ & _ & Ht' & HT0 & _ & Habs' & _).
    assert (t' = t) as -> by congruence. assert (T0 = T) as -> by congruence.
    congruence.
  - intros data s1 Hsz Hbuild. rewrite object_initialize_S.
    rewrite Ht. cbn [nonnull bind]. unfold get_type at 1. rewrite HT.
    cbn [nonnull bind].
    rewrite bool_decide_eq_true_2 by done. cbn [g_assert bind].
    rewrite Hbuild. cbn [bind].
    destruct (type_class_init_frame _ _ _ _ Hwf Hbuild) as (_ & Hrel).
    destruct (br_static _ _ _ _ Hrel _ _ HT) as (T1 & HT1 & Hst).
    unfold get_type. rewrite HT1. cbn [nonnull bind].
    rewrite (static_abstract _ _ Hst), Habs. done.
Qed.

Lemma object_new_abstract_witness :
  (∀ o s', object_new 10 (Some TYPE_INTERFACE) (from_ok iface_registry) ≠ Ok (o, s')) ∧
  (∀ data s1,
     sizeof_ObjectClass
       ≤ ti_instance_size (registered_type TYPE_INTERFACE interface_info) →
     type_class_init 10 0 (from_ok iface_registry) = Ok s1 →
     object_initialize 11 data (Some TYPE_INTERFACE) (from_ok iface_registry)
     = Err AssertFail).
Proof.
  apply (object_new_abstract 10 (Some TYPE_INTERFACE) (from_ok iface_registry) 0
           (registered_type TYPE_INTERFACE interface_info)).
  - exact wf_iface_registry.
  - vm_compute. reflexivity.
  - vm_compute. reflexivity.
  - reflexivity.
Defined.

(** ** Deletion *)

Lemma object_delete_S fuel obj s :
  object_delete (S fuel) obj s = do s <- object_finalize fuel obj s; g_free obj s.
Proof. reflexivity. Qed.

Lemma object_finalize_S fuel data s :
  object_finalize (S fuel) data s =
  do c <- obj_class data s;
  do c <- nonnull c;
  do k <- get_class c s;
  do ti <- get_type (oc_type k) s;
  object_deinit fuel data (Some (ti_name ti)) s.
Proof. reflexivity. Qed.

Lemma object_deinit_S fuel obj typename s :
  object_deinit (S fuel) obj typename s =
  do t <- nonnull (type_get_by_name typename s);
  do ti <- get_type t s;
  let s := match ti_instance_finalize ti with
           | Some h => log (EvInstanceFinalize h obj) s
           | None => s
           end in
  do s <- object_deinit_interfaces fuel obj s;
  do ti <- get_type t s;
  match ti_parent ti with
  | Some _ => object_init fuel obj (ti_parent ti) s
  | None => Ok s
  end.
Proof. reflexivity. Qed.

Lemma object_deinit_interfaces_S fuel obj s :
  object_deinit_interfaces (S fuel) obj s =
  do l <- obj_interfaces obj s;
  match l with
  | [] => Ok s
  | iface_obj :: rest =>
      do s <- set_obj_interfaces obj rest s;
      do s <- object_delete fuel iface_obj s;
      object_deinit_interfaces fuel obj s
  end.
Proof. reflexivity. Qed.

(** A deleted instance is freed, and a second deletion of it does not
    fail on an assertion: it reads the class pointer of the freed
    allocation. *)
Theorem object_delete_twice fuel obj s s' :
  object_delete fuel obj s = Ok s' →
  st_objects s' !! obj = Some None ∧
  ∀ fuel', object_delete (S (S fuel')) obj s' = Err Undefined.
Proof.
  intros H. destruct fuel as [|fuel]; [done|]. rewrite object_delete_S in H.
  apply bind_Ok in H as (s1 & _ & H). unfold g_free in H.
  apply bind_Ok in H as (O & HO & H). injection H as <-.
  apply get_object_Ok in HO. apply lookup_lt_Some in HO as Hlt.
  assert (st_objects (set_objects (alter (fun _ => None) obj) s1) !! obj = Some None)
    as Hfreed.
  { simpl. rewrite list_lookup_alter_eq, HO. done. }
  split; [done|]. intros fuel'.
  rewrite object_delete_S, object_finalize_S. unfold obj_class, get_object.
  by rewrite Hfreed.
Qed.

Lemma object_delete_twice_witness :
  st_objects (from_ok (object_delete 10 0 root_instance)) !! 0%nat = Some None ∧
  ∀ fuel', object_delete (S (S fuel')) 0 (from_ok (object_delete 10 0 root_instance))
           = Err Undefined.
Proof.
  apply (object_delete_twice 10 0 root_instance).
  vm_compute. reflexivity.
Defined.

Lemma object_init_plain fuel obj name s t T :
  type_get_by_name name s = Some t → st_types s !! t = Some T →
  ti_parent T = None → ti_num_interfaces T = 0%nat →
  object_init (S fuel) obj name s = Ok (add_events (init_events T obj) s).
Proof.
  intros Ht HT Hp Hn. rewrite object_init_S, Ht. cbn [nonnull bind].
  unfold get_type. rewrite HT. cbn [nonnull bind]. rewrite Hp. cbn [bind].
  rewrite HT. cbn [nonnull bind]. rewrite Hn. cbn [for_loop bind].
  rewrite HT. cbn [nonnull bind]. unfold init_events.
  destruct (ti_instance_init T); [done|]. by rewrite add_events_nil.
Qed.

Lemma alter_snoc {A} (f : A → A) (l : list A) (x : A) :
  alter f (length l) (l ++ [x]) = l ++ [f x].
Proof. by rewrite alter_app_r_alt, Nat.sub_diag by lia. Qed.

(** What [object_new] does for a type without parent and without interface
    declarations. *)
Lemma object_new_plain fuel name s t T o s1 :
  wf_state s → type_get_by_name name s = Some t → st_types s !! t = Some T →
  ti_parent T = None → ti_num_interfaces T = 0%nat →
  object_new fuel name s = Ok (o, s1) →
  ∃ O, st_objects s1 = st_objects s ++ [Some O] ∧ o_interfaces O = [] ∧
       instance_events o s1 = instance_events o s ++ init_events T o.
Proof.
  intros Hwf Ht HT Hp Hn H.
  destruct fuel as [|fuel]; [done|]. rewrite object_new_S in H.
  rewrite Ht in H. cbn [nonnull bind] in H. unfold get_type in H.
  rewrite HT in H. cbn [nonnull bind] in H.
  unfold g_malloc in H. apply bind_Ok in H as (s' & Hinit & H).
  injection H as <- <-.
  destruct fuel as [|fuel]; [done|]. rewrite object_initialize_S in Hinit.
  apply bind_Ok in Hinit as (t' & Ht' & H). apply bind_Ok in H as (T0 & HT0 & H).
  apply bind_Ok in H as (? & Hsz & H). apply bind_Ok in H as (s1 & Hbuild & H).
  apply bind_Ok in H as (T1 & HT1 & H). apply bind_Ok in H as (? & Habs & H).
  apply bind_Ok in H as (s2 & Hmem & H). apply bind_Ok in H as (s3 & Hcls & H).
  apply nonnull_Ok in Ht', HT0, HT1.
  assert (t' = t) as -> by (change (type_get_by_name name s = Some t') in Ht'; congruence).
  match type of Hbuild with type_class_init _ _ ?st = _ => set (s0 := st) in * end.
  assert (wf_state s0) as Hwf0 by by apply wf_state_set_objects.
  destruct (type_class_init_frame _ _ _ _ Hwf0 Hbuild) as (Hwf1 & Hrel1).
  pose proof (type_class_init_objects _ _ _ _ Hbuild) as Hobj1.
  pose proof (type_class_init_instance_events (length (st_objects s)) _ _ _ _ Hbuild)
    as Hev1.
  assert (st_types s0 !! t = Some T) as HTs0 by done.
  destruct (br_static _ _ _ _ Hrel1 _ _ HTs0) as (T1' & HT1' & Hst1).
  assert (T1' = T1) as -> by congruence.
  apply memset_object_Ok in Hmem as (O1 & HO1 & ->).
  apply set_obj_class_Ok in Hcls as (O2 & HO2 & ->).
  destruct fuel as [|fuel]; [done|].
  rewrite (object_init_plain _ _ _ _ t T1) in H;
    [| exact (type_get_by_name_mono _ _ _ _ _ _ Hrel1 Ht) | done
     | by rewrite (static_parent _ _ Hst1)
     | by rewrite (static_num_interfaces _ _ Hst1)].
  injection H as <-.
  assert (init_events T1 (length (st_objects s)) = init_events T (length (st_objects s)))
    as Hie by (unfold init_events; by rewrite (static_instance_init _ _ Hst1)).
  st_simpl. rewrite Hobj1. unfold s0. st_simpl. rewrite !alter_snoc.
  eexists. split; [done|]. split.
  - cbn [o_interfaces]. by destruct (decide (sizeof_Object ≤ ti_instance_size T1)).
  - rewrite instance_events_add, Hie.
    change (instance_events (length (st_objects s)) s1
            ++ filter (fun e => event_instance e = Some (length (st_objects s)))
                 (init_events T (length (st_objects s)))
            = instance_events (length (st_objects s)) s
              ++ init_events T (length (st_objects s))).
    rewrite Hev1. f_equal. unfold init_events.
    destruct (ti_instance_init T); [|done]. by rewrite filter_cons_True.
Qed.

(** Creation and deletion of an instance of a type without parent and
    without interface declarations, whose instances hold the instance
    header: [object_new] appends one instance and runs the instance_init of
    the type, [object_delete] runs its instance_finalize and frees the
    instance; no other instance, descriptor, class object or table entry
    changes. *)
Theorem object_new_delete_plain fuel fuel' s t T o s1 :
  wf_state s → type_table_lookup (ti_name T) s = Some t → st_types s !! t = Some T →
  ti_parent T = None → ti_num_interfaces T = 0%nat →
  sizeof_Object ≤ ti_instance_size T →
  object_new fuel (Some (ti_name T)) s = Ok (o, s1) →
  ∃ O s2,
    st_objects s1 = st_objects s ++ [Some O] ∧
    instance_events o s1 = instance_events o s ++ init_events T o ∧
    object_delete (S (S (S (S fuel')))) o s1 = Ok s2 ∧
    st_objects s2 = st_objects s ++ [None] ∧
    st_trace s2 = st_trace s1 ++ finalize_events T o ∧
    st_types s2 = st_types s1 ∧ st_classes s2 = st_classes s1 ∧
    st_type_table s2 = st_type_table s1.
Proof.
  intros Hwf Ht HT Hp Hn Hsz H.
  destruct (object_new_plain _ (Some (ti_name T)) _ _ _ _ _ Hwf Ht HT Hp Hn H)
    as (O & Hobjs & Hnil & Hev).
  destruct (object_new_instance _ _ _ _ _ Hwf H)
    as (t' & T0 & T' & c & k & O' & Hwf' & Hrel & _ & Ho & Ht' & HT0 & _ & _ & HT'
        & Hst & Hc & Hk & Hkt & HO & HcO & HszO).
  assert (t' = t) as -> by (simpl in Ht'; congruence).
  assert (T0 = T) as -> by congruence.
  assert (O' = O) as ->.
  { rewrite Hobjs, Ho, lookup_app_r, Nat.sub_diag in HO by done. by injection HO. }
  set (s2 := add_events (finalize_events T o) s1).
  assert (object_deinit (S (S fuel')) o (Some (ti_name T')) s1 = Ok s2) as Hdeinit.
  { rewrite object_deinit_S, (static_name _ _ Hst).
    rewrite (type_get_by_name_mono _ _ _ _ _ _ Hrel Ht').
    cbn [nonnull bind]. unfold get_type at 1. rewrite HT'. cbn [nonnull bind].
    assert (match ti_instance_finalize T' with
            | Some h => log (EvInstanceFinalize h o) s1
            | None => s1
            end = s2) as ->.
    { unfold s2, finalize_events.
      replace (ti_instance_finalize T') with (ti_instance_finalize T)
        by (by apply (f_equal ti_instance_finalize) in Hst).
      destruct (ti_instance_finalize T); [done|]. by rewrite add_events_nil. }
    rewrite object_deinit_interfaces_S. unfold obj_interfaces, get_object.
    change (st_objects s2) with (st_objects s1). rewrite HO.
    cbn [mjoin option_join nonnull bind]. rewrite decide_True by lia.
    rewrite Hnil. cbn [bind]. unfold get_type.
    change (st_types s2) with (st_types s1). rewrite HT'. cbn [nonnull bind].
    by rewrite (static_parent _ _ Hst), Hp. }
  exists O, (set_objects (alter (fun _ => None) o) s2). split_and!; try done.
  - rewrite object_delete_S, object_finalize_S. unfold obj_class, get_object.
    rewrite HO. cbn [mjoin option_join nonnull bind].
    rewrite decide_True by (unfold sizeof_ObjectClass, sizeof_Object in *; lia).
    rewrite HcO. cbn [nonnull bind]. unfold get_class. rewrite Hk.
    cbn [nonnull bind]. rewrite Hkt. unfold get_type. rewrite HT'.
    cbn [nonnull bind]. rewrite Hdeinit. cbn [bind]. unfold g_free, get_object.
    change (st_objects s2) with (st_objects s1). by rewrite HO.
  - simpl. rewrite Hobjs, Ho. by rewrite alter_snoc.
Qed.

Lemma object_new_delete_plain_witness :
  ∃ O s2,
    st_objects root_instance = st_objects (from_ok chain_registry) ++ [Some O] ∧
    instance_events 0 root_instance
      = instance_events 0 (from_ok chain_registry)
        ++ init_events (registered_type "Root" Root_info) 0 ∧
    object_delete 7 0 root_instance = Ok s2 ∧
    st_objects s2 = st_objects (from_ok chain_registry) ++ [None] ∧
    st_trace s2 = st_trace root_instance
                  ++ finalize_events (registered_type "Root" Root_info) 0 ∧
    st_types s2 = st_types root_instance ∧ st_classes s2 = st_classes root_instance ∧
    st_type_table s2 = st_type_table root_instance.
Proof.
  apply (object_new_delete_plain 10 3 (from_ok chain_registry) 1
           (registered_type "Root" Root_info) 0 root_instance).
  - exact wf_chain_registry.
  - vm_compute. reflexivity.
  - vm_compute. reflexivity.
  - reflexivity.
  - reflexivity.
  - vm_compute. discriminate.
  - vm_compute. reflexivity.
Defined.

(** ** Registries that the class builder cannot serve *)

(** A name that is not registered is used as a NULL descriptor: building
    the class of a type whose parent is such a name, and creating an
    instance under such a name, read through the NULL pointer. *)
Theorem unregistered_parent_undefined fuel t T pn s :
  st_types s !! t = Some T → ti_class T = None →
  ti_parent T = Some pn → type_table_lookup pn s = None →
  type_class_init (S (S fuel)) t s = Err Undefined ∧
  object_new (S fuel) (Some pn) s = Err Undefined.
Proof.
  intros HT Hc Hp Hpn. split.
  - cbn [type_class_init type_class_get_size]. unfold get_type. rewrite HT.
    cbn [nonnull bind]. rewrite Hc, Hp. case_decide.
    + cbn [bind]. unfold class_alloc. case_decide; [|done]. cbn [bind].
      unfold type_get_by_name, type_table_lookup in *. st_simpl. by rewrite Hpn.
    + unfold type_get_by_name. by rewrite Hpn.
  - rewrite object_new_S. unfold type_get_by_name. by rewrite Hpn.
Qed.

Lemma unregistered_parent_undefined_witness :
  type_class_init 10 0 (from_ok edge_registry) = Err Undefined ∧
  object_new 9 (Some "nowhere") (from_ok edge_registry) = Err Undefined.
Proof.
  apply (unregistered_parent_undefined 8 0 (registered_type "orphan" orphan_info)
           "nowhere").
  - vm_compute. reflexivity.
  - reflexivity.
  - reflexivity.
  - vm_compute. reflexivity.
Defined.

(** A type whose class_size is not zero and is smaller than the class
    header cannot be built: the header is written past the allocation. *)
Theorem type_class_init_short_class fuel t T s :
  st_types s !! t = Some T → ti_class T = None →
  ti_class_size T ≠ 0 → ti_class_size T < sizeof_ObjectClass →
  type_class_init (S (S fuel)) t s = Err Undefined.
Proof.
  intros HT Hc Hnz Hlt.
  cbn [type_class_init type_class_get_size]. unfold get_type. rewrite HT.
  cbn [nonnull bind]. rewrite Hc. rewrite decide_True by done. cbn [bind].
  unfold class_alloc. by rewrite decide_False by lia.
Qed.

Lemma type_class_init_short_class_witness :
  type_class_init 10 1 (from_ok edge_registry) = Err Undefined.
Proof.
  apply (type_class_init_short_class 8 1 (registered_type "short" short_info)).
  - vm_compute. reflexivity.
  - reflexivity.
  - vm_compute. discriminate.
  - vm_compute. reflexivity.
Defined.

Lemma parent_chain_cycle nm t T s :
  type_table_lookup nm s = Some t → st_types s !! t = Some T →
  ti_parent T = Some nm → ∀ fuel, parent_chain fuel (Some nm) s = None.
Proof.
  intros Ht HT Hp. induction fuel as [|fuel IH]; [done|].
  simpl. rewrite Ht. simpl. rewrite HT. simpl. rewrite Hp, IH. done.
Qed.

Lemma object_init_cycle nm t T s obj :
  type_table_lookup nm s = Some t → st_types s !! t = Some T →
  ti_parent T = Some nm → ∀ fuel, object_init fuel obj (Some nm) s = Err OutOfFuel.
Proof.
  intros Ht HT Hp. induction fuel as [|fuel IH]; [done|].
  rewrite object_init_S. simpl. rewrite Ht. cbn [nonnull bind].
  unfold get_type. rewrite HT. cbn [nonnull bind]. rewrite Hp, IH. done.
Qed.

(** Registration accepts a type that names itself as its parent, but such
    a type is never served: whatever the fuel, the initialisation of an
    instance runs out of it, no class of the type is built and no instance
    of it is returned.  The walks up the parents do not end. *)
Theorem self_parent_never_ends nm t T s :
  wf_state s → type_table_lookup nm s = Some t → st_types s !! t = Some T →
  ti_parent T = Some nm → ti_class T = None →
  (∀ fuel obj, object_init fuel obj (Some nm) s = Err OutOfFuel) ∧
  (∀ fuel s', type_class_init fuel t s ≠ Ok s') ∧
  (∀ fuel o s', object_new fuel (Some nm) s ≠ Ok (o, s')).
Proof.
  intros Hwf Ht HT Hp Hc. split_and!.
  - intros fuel obj. by eapply object_init_cycle.
  - intros [|fuel] s' H; [done|].
    destruct (type_class_init_anatomy _ _ _ _ _ Hwf HT Hc H)
      as (size & s1 & tail & chain & s4 & T4 & _ & _ & _ & Hrel1 & HT1 & _ & Hchain & _).
    rewrite Hp in Hchain.
    rewrite (parent_chain_cycle nm t (with_class (Some (length (st_classes s)))
                                        (with_class_size size T))) in Hchain;
      [done | | done | done].
    eapply lookup_weaken; [exact Ht | apply (br_table _ _ _ _ Hrel1)].
  - intros fuel o s' H.
    destruct (object_new_chain _ _ _ _ _ Hwf H) as (chain & Hchain).
    destruct (object_new_instance _ _ _ _ _ Hwf H)
      as (t' & T0 & T' & c & k & O & _ & Hrel & _ & _ & Ht' & HT0 & _ & _ & HT'
          & Hst & _).
    assert (t' = t) as -> by (simpl in Ht'; congruence).
    assert (T0 = T) as -> by congruence.
    rewrite (parent_chain_cycle nm t T') in Hchain; [done | | done |].
    + eapply lookup_weaken; [exact Ht | apply (br_table _ _ _ _ Hrel)].
    + by rewrite (static_parent _ _ Hst).
Qed.

Lemma self_parent_never_ends_witness :
  (∀ fuel obj, object_init fuel obj (Some "loop") (from_ok loop_registry)
               = Err OutOfFuel) ∧
  (∀ fuel s', type_class_init fuel 0 (from_ok loop_registry) ≠ Ok s') ∧
  (∀ fuel o s', object_new fuel (Some "loop") (from_ok loop_registry) ≠ Ok (o, s')).
Proof.
  apply (self_parent_never_ends "loop" 0 (registered_type "loop" loop_info)).
  - apply wf_check_sound. vm_compute. reflexivity.
  - vm_compute. reflexivity.
  - vm_compute. reflexivity.
  - reflexivity.
  - reflexivity.
Defined.

(** ** The class of a type without parent *)

Lemma type_class_get_size_root fuel t T s :
  st_types s !! t = Some T → ti_parent T = None →
  type_class_get_size (S fuel) t s
  = Ok (if decide (ti_class_size T = 0) then sizeof_ObjectClass else ti_class_size T).
Proof.
  intros HT Hp. simpl. unfold get_type. rewrite HT. cbn [nonnull bind].
  rewrite Hp. by repeat case_decide.
Qed.

(** The first class build of a type without parent allocates one class
    object, the next one, of the class_size of the type, or of the size of
    the class header when that is zero.  In the state [s0] that the build
    has reached after the [memset], when it goes on to synthesize the
    interface types and to call class_init, the header of this class object
    points to the type and every byte after it is zero, and nothing was
    logged.  No base_init runs: the build registers the synthesized
    interface types and then runs the class_init of the type, and
    allocates no other class object. *)
Theorem type_class_init_root fuel t s s' T :
  wf_state s → st_types s !! t = Some T → ti_class T = None → ti_parent T = None →
  type_class_init (S fuel) t s = Ok s' →
  ∃ s0 T',
    type_class_init_layout fuel t s = Ok s0 ∧
    type_class_init_hooks fuel t s0 = Ok s' ∧
    st_classes s0
      = st_classes s
        ++ [{| oc_type := t;
               oc_tail := replicate (Z.to_nat (ti_class_size T' - sizeof_ObjectClass))
                            x00 |}] ∧
    st_trace s0 = st_trace s ∧
    st_types s' !! t = Some T' ∧ ti_class T' = Some (length (st_classes s)) ∧
    ti_class_size T'
      = (if decide (ti_class_size T = 0) then sizeof_ObjectClass else ti_class_size T) ∧
    length (st_classes s') = S (length (st_classes s)) ∧
    st_trace s'
      = st_trace s ++ (EvRegistered <$> seq (length (st_types s)) (ti_num_interfaces T))
        ++ class_init_events T (Some (length (st_classes s))).
Proof.
  intros Hwf HT Hc Hp H.
  destruct (type_class_init_pre_hooks _ _ _ _ _ Hwf HT Hc H)
    as (size0 & s1' & tail' & Hlay & Hhooks & Hsize0 & _ & _ & _ & _ & _ & Hpar').
  rewrite Hp in Hpar'. destruct Hpar' as [-> ->].
  destruct (type_class_init_anatomy _ _ _ _ _ Hwf HT Hc H)
    as (size & s1 & tail & chain & s4 & T4 & Hsize & Hsz & Hwf1 & Hrel1 & HT1
        & Hpar & Hchain & Hloop & HT4 & ->).
  rewrite Hp in Hpar, Hchain. destruct Hpar as [-> ->].
  assert (size0 = size) as -> by congruence.
  destruct fuel as [|fuel]; [done|]. injection Hchain as <-.
  rewrite (type_class_get_size_root _ _ _ _ HT Hp) in Hsize. injection Hsize as Hsize.
  set (n := length (st_classes s)) in *.
  set (tail := replicate (Z.to_nat (size - sizeof_ObjectClass)) x00) in *.
  set (s2 := upd_class n (with_tail tail) (class_allocated t size s)) in *.
  assert (wf_state s2) as Hwf2 by by apply wf_state_upd_class.
  assert (st_types s2 !! t = Some (with_class (Some n) (with_class_size size T))) as HT2
    by done.
  eapply (synthesis_loop t 0) in Hloop
    as (_ & _ & Hcl4 & Htr4 & _ & _ & T' & HT' & Hc' & Hs' & Hst' & _);
    [|by apply wf_state_add_events|exact HT2].
  assert (T' = T4) as -> by congruence.
  simpl in Hc', Hs', Hcl4, Htr4.
  exists s2, T4. split_and!.
  - done.
  - done.
  - rewrite Hs'. unfold s2, n. simpl. by rewrite alter_snoc.
  - done.
  - done.
  - done.
  - by rewrite Hs', <- Hsize.
  - simpl. rewrite Hcl4, length_alter, length_app. simpl. unfold n. lia.
  - simpl. rewrite Htr4, app_nil_r, !length_alter.
    rewrite (class_init_events_static T T4) by (by rewrite Hst').
    by rewrite <- app_assoc.
Qed.

Lemma type_class_init_root_witness :
  ∃ s0 T',
    type_class_init_layout 9 1 (from_ok chain_registry) = Ok s0 ∧
    type_class_init_hooks 9 1 s0
      = Ok (from_ok (type_class_init 10 1 (from_ok chain_registry))) ∧
    st_classes s0
      = st_classes (from_ok chain_registry)
        ++ [{| oc_type := 1%nat;
               oc_tail := replicate (Z.to_nat (ti_class_size T' - sizeof_ObjectClass))
                            x00 |}] ∧
    st_trace s0 = st_trace (from_ok chain_registry) ∧
    st_types (from_ok (type_class_init 10 1 (from_ok chain_registry))) !! 1%nat = Some T' ∧
    ti_class T' = Some (length (st_classes (from_ok chain_registry))) ∧
    ti_class_size T'
      = (if decide (ti_class_size (registered_type "Root" Root_info) = 0)
         then sizeof_ObjectClass else ti_class_size (registered_type "Root" Root_info)) ∧
    length (st_classes (from_ok (type_class_init 10 1 (from_ok chain_registry))))
      = S (length (st_classes (from_ok chain_registry))) ∧
    st_trace (from_ok (type_class_init 10 1 (from_ok chain_registry)))
      = st_trace (from_ok chain_registry)
        ++ (EvRegistered <$> seq (length (st_types (from_ok chain_registry)))
                               (ti_num_interfaces (registered_type "Root" Root_info)))
        ++ class_init_events (registered_type "Root" Root_info)
             (Some (length (st_classes (from_ok chain_registry)))).
Proof.
  apply (type_class_init_root 9 1 (from_ok chain_registry) _
           (registered_type "Root" Root_info)).
  - exact wf_chain_registry.
  - vm_compute. reflexivity.
  - reflexivity.
  - reflexivity.
  - vm_compute. reflexivity.
Defined.

(** ** Types without parent and without interfaces are always served *)

Lemma type_class_init_plain_Ok fuel t T s size :
  st_types s !! t = Some T → ti_class T = None → ti_parent T = None →
  ti_num_interfaces T = 0%nat →
  size = (if decide (ti_class_size T = 0) then sizeof_ObjectClass else ti_class_size T) →
  sizeof_ObjectClass ≤ size < 2 ^ 64 →
  type_class_init (S (S fuel)) t s
  = Ok (add_events (class_init_events T (Some (length (st_classes s))))
          (upd_class (length (st_classes s))
             (with_tail (replicate (Z.to_nat (size - sizeof_ObjectClass)) x00))
             (class_allocated t size s))).
Proof.
  intros HT Hc Hp Hn Hsize Hsz.
  assert (type_class_get_size (S fuel) t s = Ok size) as Hgs.
  { rewrite Hsize. by apply type_class_get_size_root. }
  change (type_class_init (S (S fuel)) t s)
    with (do ti <- get_type t s;
          match ti_class ti with
          | Some _ => Ok s
          | None =>
              do size <- type_class_get_size (S fuel) t s;
              let s := upd_type t (with_class_size size) s in
              do (c, s) <- class_alloc size t s;
              let s := upd_type t (with_class (Some c)) s in
              do (class_size, s) <-
                match ti_parent ti with
                | Some _ =>
                    do p <- nonnull (type_get_by_name (ti_parent ti) s);
                    do s <- type_class_init (S fuel) p s;
                    do ti_parent <- get_type p s;
                    do ti <- get_type t s;
                    do _ <- g_assert (bool_decide (ti_class_size ti_parent ≤ ti_class_size ti));
                    do pc <- nonnull (ti_class ti_parent);
                    do pk <- get_class pc s;
                    do k <- get_class c s;
                    do tail <- memcpy_tail (oc_tail k) (oc_tail pk)
                                 (size_t_sub (ti_class_size ti_parent) sizeof_ObjectClass);
                    Ok (ti_class_size ti_parent, upd_class c (with_tail tail) s)
                | None => Ok (sizeof_ObjectClass, s)
                end;
              do ti <- get_type t s;
              do k <- get_class c s;
              do tail <- memset_tail (oc_tail k) class_size
                           (size_t_sub (ti_class_size ti) class_size);
              let s := upd_class c (with_tail tail) s in
              do s <- type_class_base_init (S fuel) t (ti_parent ti) s;
              do s <- for_loop (ti_num_interfaces ti) 0 (type_class_interface_init t) s;
              do ti <- get_type t s;
              match ti_class_init ti with
              | Some h => Ok (log (EvClassInit h (ti_class ti) (ti_class_data ti)) s)
              | None => Ok s
              end
          end).
  unfold get_type at 1. rewrite HT. cbn [nonnull bind]. rewrite Hc, Hgs, Hp.
  cbn [bind]. unfold class_alloc. rewrite decide_True by lia. cbn [bind].
  unfold get_type at 1. rewrite upd_type_lookup, decide_True by done.
  st_simpl. rewrite list_lookup_alter_eq, HT. cbn [fmap option_fmap option_map nonnull bind].
  unfold get_class. st_simpl. rewrite lookup_app_r, Nat.sub_diag by done.
  cbn [lookup list_lookup nonnull bind oc_tail with_class with_class_size ti_class_size].
  assert (size_t_sub size sizeof_ObjectClass = size - sizeof_ObjectClass) as Hsub
    by (apply size_t_sub_le; unfold sizeof_ObjectClass in *; lia).
  unfold memset_tail. rewrite Hsub.
  rewrite decide_True
    by (rewrite length_replicate; unfold sizeof_ObjectClass in *; lia).
  cbn [bind ti_parent with_class with_class_size]. rewrite Hp.
  cbn [type_class_base_init bind].
  change (ti_num_interfaces (with_class _ (with_class_size size T)))
    with (ti_num_interfaces T).
  rewrite Hn. cbn [for_loop bind].
  replace (sizeof_ObjectClass - sizeof_ObjectClass) with 0 by lia.
  rewrite Z.add_0_l. cbn [Z.to_nat take app].
  rewrite drop_ge, app_nil_r by (by rewrite length_replicate).
  unfold get_type. st_simpl. rewrite list_lookup_alter_eq.
  rewrite list_lookup_alter_eq, HT. cbn [fmap option_fmap option_map nonnull bind].
  unfold class_init_events. cbn [ti_class_init ti_class ti_class_data with_class
                                   with_class_size].
  destruct (ti_class_init T); [done|]. by rewrite add_events_nil.
Qed.

(** For a type without parent and without interface declarations that is
    not abstract, whose instances hold the class pointer and whose class,
    if it is still to be built, holds the class header, [object_new]
    returns: the instance is the next allocation. *)
Theorem object_new_plain_returns fuel name s t T :
  wf_state s → type_get_by_name name s = Some t → st_types s !! t = Some T →
  ti_parent T = None → ti_num_interfaces T = 0%nat → ti_abstract T = false →
  sizeof_ObjectClass ≤ ti_instance_size T →
  (ti_class T = None → ti_class_size T = 0 ∨ sizeof_ObjectClass ≤ ti_class_size T) →
  ∃ s', object_new (S (S (S (S fuel)))) name s = Ok (length (st_objects s), s').
Proof.
  intros Hwf Ht HT Hp Hn Habs Hsz Hcs.
  rewrite object_new_S, Ht. cbn [nonnull bind]. unfold get_type at 1. rewrite HT.
  cbn [nonnull bind]. unfold g_malloc.
  set (O0 := {| o_size := ti_instance_size T; o_class := None;
                o_interfaces := []; o_obj := None |}).
  set (s0 := set_objects (fun l => l ++ [Some O0]) s).
  assert (wf_state s0) as Hwf0 by by apply wf_state_set_objects.
  assert (st_types s0 !! t = Some T) as HT0 by done.
  assert (st_objects s0 !! length (st_objects s) = Some (Some O0)) as HO0.
  { unfold s0. simpl. by rewrite lookup_app_r, Nat.sub_diag by done. }
  assert (∃ s1, type_class_init (S (S fuel)) t s0 = Ok s1) as (s1 & Hbuild).
  { destruct (ti_class T) as [c|] eqn:Hc.
    - exists s0. apply (type_class_init_built _ _ _ T); [done | by rewrite Hc].
    - eexists. apply (type_class_init_plain_Ok _ _ T); [done.. | reflexivity |].
      pose proof (wf_size _ Hwf _ _ HT) as Hr.
      destruct (Hcs eq_refl) as [Hz|Hge].
      + rewrite decide_True by done. unfold sizeof_ObjectClass. lia.
      + rewrite decide_False by (unfold sizeof_ObjectClass in *; lia). lia. }
  destruct (type_class_init_frame _ _ _ _ Hwf0 Hbuild) as (Hwf1 & Hrel1).
  pose proof (type_class_init_objects _ _ _ _ Hbuild) as Hobj1.
  destruct (br_static _ _ _ _ Hrel1 _ _ HT0) as (T1 & HT1 & Hst1).
  rewrite object_initialize_S.
  change (type_get_by_name name s0) with (type_get_by_name name s). rewrite Ht.
  cbn [nonnull bind]. unfold get_type at 1. rewrite HT0. cbn [nonnull bind].
  rewrite bool_decide_eq_true_2 by done. cbn [g_assert bind].
  rewrite Hbuild. cbn [bind]. unfold get_type at 1. rewrite HT1. cbn [nonnull bind].
  rewrite (static_abstract _ _ Hst1), Habs. cbn [bool_decide decide_rel g_assert bind].
  rewrite bool_decide_eq_true_2 by done. cbn [g_assert bind].
  unfold memset_object, get_object. rewrite Hobj1, HO0.
  cbn [mjoin option_join nonnull bind].
  rewrite (static_instance_size _ _ Hst1).
  rewrite decide_True by (simpl; lia). cbn [bind].
  unfold set_obj_class, obj_class, get_object.
  rewrite upd_object_lookup, decide_True, Hobj1, HO0 by done.
  cbn [fmap option_fmap option_map mjoin option_join nonnull bind o_size].
  rewrite decide_True by (simpl; lia). cbn [bind].
  erewrite (object_init_plain _ _ _ _ t T1); [by eexists | | done | |].
  - exact (type_get_by_name_mono _ _ _ _ _ _ Hrel1 Ht).
  - by rewrite (static_parent _ _ Hst1).
  - by rewrite (static_num_interfaces _ _ Hst1).
Qed.

Lemma object_new_plain_returns_witness :
  ∃ s', object_new 5 (Some "Root") (from_ok chain_registry)
        = Ok (length (st_objects (from_ok chain_registry)), s').
Proof.
  apply (object_new_plain_returns 1 (Some "Root") (from_ok chain_registry) 1
           (registered_type "Root" Root_info)).
  - exact wf_chain_registry.
  - vm_compute. reflexivity.
  - vm_compute. reflexivity.
  - reflexivity.
  - reflexivity.
  - reflexivity.
  - vm_compute. discriminate.
  - intros _. right. vm_compute. discriminate.
Defined.

(** ** The class builder returns *)

Lemma parent_chain_S fuel name s :
  parent_chain (S fuel) name s =
  match name with
  | None => Some []
  | Some _ =>
      t ← type_get_by_name name s;
      ti ← st_types s !! t;
      l ← parent_chain fuel (ti_parent ti) s;
      Some (l ++ [t])
  end.
Proof. reflexivity. Qed.

Lemma parent_chain_parent fuel T s chain :
  parent_chain fuel (ti_parent T) s = Some chain →
  match ti_parent T with
  | None => chain = []
  | Some pn => ∃ fuel' p P l,
      fuel = S fuel' ∧ type_table_lookup pn s = Some p ∧ st_types s !! p = Some P ∧
      parent_chain fuel' (ti_parent P) s = Some l ∧ chain = l ++ [p]
  end.
Proof.
  intros H. destruct fuel as [|fuel]; [done|]. rewrite parent_chain_S in H.
  destruct (ti_parent T) as [pn|]; [|by injection H].
  simpl in H. destruct (type_table_lookup pn s) as [p|]; [|done]. simpl in H.
  destruct (st_types s !! p) as [P|] eqn:HP; [|done]. simpl in H.
  destruct (parent_chain fuel (ti_parent P) s) as [l|] eqn:Hl; [|done].
  injection H as <-. by exists fuel, p, P, l.
Qed.

(** [type_class_get_size] computes [esize]. *)
Lemma type_class_get_size_esize fuel : ∀ t T s chain,
  st_types s !! t = Some T → parent_chain fuel (ti_parent T) s = Some chain →
  type_class_get_size fuel t s = Ok (esize s (t :: rev chain)).
Proof.
  induction fuel as [|fuel IH]; intros t T s chain HT Hchain; [done|].
  cbn [type_class_get_size esize]. unfold get_type. rewrite HT. cbn [nonnull bind].
  destruct (decide (ti_class_size T = 0)) as [Hz|Hz].
  - rewrite decide_False by (by intros ?).
    apply parent_chain_parent in Hchain. destruct (ti_parent T) as [pn|].
    + destruct Hchain as (fuel' & p & P & l & [= ->] & Hp & HP & Hl & ->).
      simpl. rewrite Hp. cbn [nonnull bind]. rewrite rev_unit.
      by apply (IH p P).
    + by subst chain.
  - by rewrite decide_True.
Qed.

Lemma type_class_base_init_Ok fuel b B : ∀ name s chain,
  st_types s !! b = Some B → parent_chain fuel name s = Some chain →
  type_class_base_init fuel b name s
  = Ok (add_events (base_init_events chain (ti_class B) s) s).
Proof.
  induction fuel as [|fuel IH]; intros name s chain HB H; [done|].
  rewrite parent_chain_S in H. cbn [type_class_base_init].
  destruct name as [nm|]; [|injection H as <-; by rewrite add_events_nil].
  simpl in H. simpl. destruct (type_table_lookup nm s) as [t|]; [|done]. simpl in H.
  destruct (st_types s !! t) as [T|] eqn:HT; [|done]. simpl in H.
  destruct (parent_chain fuel (ti_parent T) s) as [l|] eqn:Hl; [|done].
  injection H as <-. cbn [nonnull bind]. unfold get_type at 1. rewrite HT.
  cbn [nonnull bind]. rewrite (IH _ _ _ HB Hl). cbn [bind].
  unfold get_type. change (st_types (add_events ?ev s)) with (st_types s).
  rewrite HT. cbn [nonnull bind].
  unfold base_init_events. rewrite omap_app. simpl. rewrite HT. simpl.
  destruct (ti_base_init T) as [h|]; simpl.
  - rewrite HB. cbn [nonnull bind]. by rewrite log_add_events, add_events_app.
  - by rewrite app_nil_r.
Qed.

Lemma type_class_interface_init_forward t i s T e :
  st_types s !! t = Some T → ti_interfaces T !! i = Some e → st_count s < INT_MAX →
  type_class_interface_init t i s = Ok (synthesized t i e s).
Proof.
  intros HT He Hc.
  unfold type_class_interface_init, type_register_anonymous, type_table_add,
    info_copy_interfaces, get_type.
  rewrite HT. cbn [nonnull bind]. rewrite He. cbn [nonnull bind info_interfaces].
  rewrite decide_True by done. cbn [bind]. st_simpl.
  rewrite lookup_app_r, Nat.sub_diag by done. done.
Qed.

Lemma synthesis_loop_Ok t : ∀ n i s T,
  st_types s !! t = Some T → (i + n ≤ length (ti_interfaces T))%nat →
  st_count s + Z.of_nat n ≤ INT_MAX →
  ∃ s', for_loop n i (type_class_interface_init t) s = Ok s' ∧
        st_count s' = st_count s + Z.of_nat n.
Proof.
  induction n as [|n IH]; intros i s T HT Hn Hc; simpl.
  - exists s. split; [done|lia].
  - destruct (lookup_lt_is_Some_2 (ti_interfaces T) i) as [e He]; [lia|].
    rewrite (type_class_interface_init_forward _ _ _ _ _ HT He) by lia. cbn [bind].
    apply lookup_lt_Some in HT as Ht.
    destruct (IH (S i) (synthesized t i e s) (set_iface_type i (length (st_types s)) T))
      as (s' & -> & Hc').
    + rewrite synthesized_types_lookup. rewrite decide_False by lia.
      rewrite decide_True by done. by rewrite HT.
    + simpl. rewrite length_alter. lia.
    + simpl. lia.
    + exists s'. split; [done|]. simpl in Hc'. lia.
Qed.

(** *** The sizes of the class objects are kept *)

Lemma classes_sized_class_allocated t size s T :
  classes_sized s → st_types s !! t = Some T → sizeof_ObjectClass ≤ size →
  classes_sized (class_allocated t size s).
Proof.
  intros Hs HT Hsz u U c HU Hc. unfold class_allocated in HU.
  rewrite upd_type_lookup in HU. rewrite class_allocated_classes.
  case_decide as Htu.
  - subst u. st_simpl. rewrite list_lookup_alter_eq, HT in HU. simpl in HU.
    injection HU as <-. simpl in *. injection Hc as <-. split; [done|].
    eexists. rewrite lookup_app_r, Nat.sub_diag by done. split; [done|].
    simpl. rewrite length_replicate. lia.
  - st_simpl. rewrite list_lookup_alter_ne in HU by done.
    destruct (Hs _ _ _ HU Hc) as (Hge & k & Hk & Hlen). split; [done|].
    exists k. split; [|done]. by apply lookup_app_l_Some.
Qed.

Lemma classes_sized_upd_class t T n tail s :
  wf_state s → classes_sized s → st_types s !! t = Some T → ti_class T = Some n →
  Z.of_nat (length tail) = ti_class_size T - sizeof_ObjectClass →
  classes_sized (upd_class n (with_tail tail) s).
Proof.
  intros Hwf Hs HT Hn Hlen u U c HU Hc.
  change (st_types (upd_class n (with_tail tail) s)) with (st_types s) in HU.
  destruct (Hs _ _ _ HU Hc) as (Hge & k & Hk & Hl). split; [done|].
  simpl. rewrite list_lookup_alter. case_decide as Hcn.
  - subst c. rewrite Hk. simpl. eexists. split; [done|]. simpl.
    destruct (wf_class _ Hwf _ _ _ HU Hc) as (k1 & Hk1 & Hu).
    destruct (wf_class _ Hwf _ _ _ HT Hn) as (k2 & Hk2 & Ht).
    assert (u = t) as -> by congruence. assert (U = T) as -> by congruence. done.
  - eauto.
Qed.

Lemma classes_sized_loop t n i s s' T :
  wf_state s → classes_sized s → st_types s !! t = Some T →
  for_loop n i (type_class_interface_init t) s = Ok s' → classes_sized s'.
Proof.
  intros Hwf Hs HT H.
  eapply (synthesis_loop t 0) in H
    as (_ & _ & Hcl & _ & Hlen & Hother & T' & HT' & Hc' & Hs' & _ & _ & Hnew);
    [|done|exact HT].
  intros u U c HU Hc. rewrite Hcl.
  destruct (decide (u = t)) as [->|Hne].
  - assert (U = T') as -> by congruence. rewrite Hs'. rewrite Hc' in Hc. by eapply Hs.
  - destruct (decide (u < length (st_types s))%nat) as [Hlt|Hge].
    + rewrite Hother in HU by done. by eapply Hs.
    + apply lookup_lt_Some in HU as Hu.
      destruct (Hnew (i + (u - length (st_types s)))%nat) as (e & _ & HA & _); [lia|].
      replace (length (st_types s) + (i + (u - length (st_types s)) - i))%nat
        with u in HA by lia.
      rewrite HA in HU. injection HU as <-. done.
Qed.

Lemma type_class_init_sized fuel : ∀ t s s',
  wf_state s → classes_sized s → type_class_init fuel t s = Ok s' → classes_sized s'.
Proof.
  induction fuel as [|fuel IH]; intros t s s' Hwf Hs H; [discriminate|].
  destruct (st_types s !! t) as [T|] eqn:HT;
    [|simpl in H; unfold get_type in H; rewrite HT in H; discriminate].
  destruct (ti_class T) as [c0|] eqn:Hc.
  { rewrite (type_class_init_built fuel t s T) in H by (by rewrite ?Hc).
    by injection H as <-. }
  destruct (type_class_init_anatomy _ _ _ _ _ Hwf HT Hc H)
    as (size & s1 & tail & chain & s4 & T4 & Hsize & Hsz & Hwf1 & Hrel1 & HT1
        & Hpar & Hchain & Hloop & HT4 & ->).
  clear H. set (n := length (st_classes s)) in *.
  assert (0 ≤ size < 2 ^ 64) as Hrange by (unfold sizeof_ObjectClass in *; lia).
  destruct (class_allocated_frame None t size s T Hwf HT Hc Hrange) as (Hwf0 & _).
  pose proof (classes_sized_class_allocated t size s T Hs HT (proj1 Hsz)) as Hs0.
  assert (classes_sized s1 ∧
          Z.of_nat (length tail) = size - sizeof_ObjectClass) as (Hs1 & Hlen).
  { destruct (ti_parent T) as [pn|].
    - destruct Hpar as (p & P & pc & pk & _ & Hbuild & _ & _ & _ & HszP & Hl & ->).
      split; [by eapply IH|].
      rewrite length_app, length_take, length_replicate. lia.
    - destruct Hpar as [-> ->]. split; [done|]. rewrite length_replicate. lia. }
  set (s2 := upd_class n (with_tail tail) s1) in *.
  assert (wf_state s2) as Hwf2 by by apply wf_state_upd_class.
  assert (classes_sized s2) as Hs2.
  { eapply (classes_sized_upd_class t); [done | done | exact HT1 | done | done]. }
  assert (st_types s2 !! t = Some (with_class (Some n) (with_class_size size T))) as HT2
    by done.
  eapply (classes_sized_loop t) in Hloop; [done | by apply wf_state_add_events | | exact HT2].
  done.
Qed.

(** *** The build, step by step *)

Lemma type_class_init_unbuilt fuel t T s size :
  st_types s !! t = Some T → ti_class T = None →
  type_class_get_size fuel t s = Ok size → sizeof_ObjectClass ≤ size →
  type_class_init (S fuel) t s =
  do r <- type_class_init_inherit fuel t (length (st_classes s)) (ti_parent T)
            (class_allocated t size s);
  type_class_init_finish fuel t (length (st_classes s)) (fst r) (snd r).
Proof.
  intros HT Hc Hsize Hsz. cbn [type_class_init]. unfold get_type at 1.
  rewrite HT. cbn [nonnull bind]. rewrite Hc, Hsize. cbn [bind].
  unfold class_alloc. rewrite decide_True by done. cbn [bind].
  unfold type_class_init_inherit, type_class_init_finish.
  destruct (ti_parent T) as [pn|]; [|reflexivity].
  cbn [bind]. fold (class_allocated t size s).
  change (upd_type t
            (with_class (Some (length (st_classes (upd_type t (with_class_size size) s)))))
            (set_classes
               (fun l => l ++ [{| oc_type := t;
                    oc_tail := replicate (Z.to_nat (size - sizeof_ObjectClass)) x00 |}])
               (upd_type t (with_class_size size) s)))
    with (class_allocated t size s).
  destruct (nonnull (type_get_by_name (Some pn) (class_allocated t size s))) as [p|];
    [|reflexivity].
  cbn [bind]. destruct (type_class_init fuel p (class_allocated t size s)) as [s1|];
    [|reflexivity].
  cbn [bind]. destruct (get_type p s1) as [P|]; [|reflexivity]. cbn [bind].
  destruct (get_type t s1) as [T1|]; [|reflexivity]. cbn [bind].
  destruct (g_assert _) as [?|]; [|reflexivity]. cbn [bind].
  destruct (nonnull (ti_class P)) as [pc|]; [|reflexivity]. cbn [bind].
  destruct (get_class pc s1) as [pk|]; [|reflexivity]. cbn [bind].
  destruct (get_class _ s1) as [k|]; [|reflexivity]. cbn [bind].
  destruct (memcpy_tail _ _ _) as [tail|]; reflexivity.
Qed.

Lemma parent_chain_ext fuel s s' : ∀ name,
  st_types s' = st_types s → st_type_table s' = st_type_table s →
  parent_chain fuel name s' = parent_chain fuel name s.
Proof.
  induction fuel as [|fuel IH]; intros name Ht Htab; [done|].
  rewrite !parent_chain_S. destruct name as [nm|]; [|done].
  unfold type_get_by_name, type_table_lookup. rewrite Ht, Htab.
  destruct (st_type_table s !! nm) as [t|]; [|done]. simpl.
  destruct (st_types s !! t) as [T|]; [|done]. simpl. by rewrite IH.
Qed.

Lemma type_class_init_finish_Ok fuel t T1 c cs k s chain :
  wf_state s → st_types s !! t = Some T1 → ti_class T1 = Some c →
  st_classes s !! c = Some k →
  Z.of_nat (length (oc_tail k)) = ti_class_size T1 - sizeof_ObjectClass →
  sizeof_ObjectClass ≤ cs ≤ ti_class_size T1 → ti_class_size T1 < 2 ^ 64 →
  parent_chain fuel (ti_parent T1) s = Some chain →
  (ti_num_interfaces T1 ≤ length (ti_interfaces T1))%nat →
  st_count s + Z.of_nat (ti_num_interfaces T1) ≤ INT_MAX →
  ∃ s' T',
    type_class_init_finish fuel t c cs s = Ok s' ∧
    st_count s' = st_count s + Z.of_nat (ti_num_interfaces T1) ∧
    st_types s' !! t = Some T' ∧ ti_class T' = Some c ∧
    ti_class_size T' = ti_class_size T1.
Proof.
  intros Hwf HT Hc Hk Hlen Hcs Hlt Hchain Hent Hcount.
  unfold type_class_init_finish, get_type, get_class.
  rewrite HT. cbn [nonnull bind]. rewrite Hk. cbn [nonnull bind].
  assert (size_t_sub (ti_class_size T1) cs = ti_class_size T1 - cs) as ->
    by (apply size_t_sub_le; unfold sizeof_ObjectClass in *; lia).
  unfold memset_tail. rewrite decide_True by lia. cbn [bind].
  match goal with |- context [upd_class c (with_tail ?tl) s] =>
    set (tail := tl); set (s2 := upd_class c (with_tail tail) s) end.
  assert (wf_state s2) as Hwf2 by by apply wf_state_upd_class.
  assert (st_types s2 !! t = Some T1) as HT2 by done.
  rewrite (type_class_base_init_Ok fuel t T1 _ s2 chain HT2)
    by (by rewrite (parent_chain_ext _ s s2)).
  cbn [bind]. set (s3 := add_events _ s2).
  assert (wf_state s3) as Hwf3 by by apply wf_state_add_events.
  assert (st_types s3 !! t = Some T1) as HT3 by done.
  destruct (synthesis_loop_Ok t (ti_num_interfaces T1) 0 s3 T1 HT3)
    as (s4 & Hloop & Hcount4); [lia | done |].
  rewrite Hloop. cbn [bind].
  eapply (synthesis_loop t 0) in Hloop
    as (_ & _ & _ & _ & _ & _ & T' & HT' & Hc' & Hs' & _); [|done|exact HT3].
  rewrite HT'. cbn [nonnull bind].
  destruct (ti_class_init T'); eexists _, T';
    (split; [done|]); simpl; split_and!; try done; congruence.
Qed.

Lemma elem_of_rev {A} (x : A) (l : list A) : x ∈ rev l ↔ x ∈ l.
Proof. rewrite !list_elem_of_In. symmetry. apply in_rev. Qed.

Lemma esize_ext s s' up :
  (∀ u, u ∈ up → st_types s' !! u = st_types s !! u) →
  esize s' up = esize s up ∧ (buildable s up → buildable s' up) ∧
  pending s' up = pending s up.
Proof.
  induction up as [|u up IH]; intros H; [done|].
  destruct IH as (He & Hb & Hp); [intros v Hv; apply H; by apply elem_of_cons; right|].
  simpl. rewrite (H u) by (apply elem_of_cons; by left).
  destruct (st_types s !! u) as [U|]; [|done]. rewrite He, Hp.
  split_and!; [done | | done].
  destruct (ti_class U); [done|]. intros (? & ? & ?). split_and!; [| |done|by apply Hb].
  - destruct (decide (ti_class_size U = 0)); lia.
  - destruct (decide (ti_class_size U = 0)); lia.
Qed.

Lemma esize_ge s up :
  classes_sized s → buildable s up → sizeof_ObjectClass ≤ esize s up.
Proof.
  intros Hs. induction up as [|u up IH]; simpl; [done|].
  destruct (st_types s !! u) as [U|] eqn:HU; [|done].
  destruct (ti_class U) as [c|] eqn:Hc.
  - intros _. destruct (Hs _ _ _ HU Hc) as (Hge & _).
    rewrite decide_False; [done|]. unfold sizeof_ObjectClass in Hge. lia.
  - intros (Hle & _ & Hb). specialize (IH Hb).
    destruct (decide (ti_class_size U = 0)); lia.
Qed.

(** The build of a class returns when the parent chain of the type is
    registered and [buildable], and the counter of anonymous names leaves
    room for the interface types to be synthesized. *)
Lemma type_class_init_progress fuel : ∀ t s T chain,
  wf_state s → classes_sized s → st_types s !! t = Some T →
  parent_chain fuel (ti_parent T) s = Some chain →
  buildable s (t :: rev chain) →
  st_count s + Z.of_nat (pending s (t :: rev chain)) ≤ INT_MAX →
  ∃ s' T' c,
    type_class_init (S fuel) t s = Ok s' ∧
    st_count s' = st_count s + Z.of_nat (pending s (t :: rev chain)) ∧
    st_types s' !! t = Some T' ∧ ti_class T' = Some c ∧
    ti_class_size T' = esize s (t :: rev chain).
Proof.
  induction fuel as [|fuel IH]; intros t s T chain Hwf Hs HT Hchain Hb Hcount; [done|].
  pose proof (esize_ge _ _ Hs Hb) as Hge.
  cbn [buildable pending esize] in Hb, Hcount, Hge |- *.
  rewrite HT in Hb, Hcount, Hge |- *.
  destruct (ti_class T) as [c|] eqn:Hc.
  { exists s, T, c. destruct (Hs _ _ _ HT Hc) as (Hge' & _).
    rewrite decide_False by (unfold sizeof_ObjectClass in Hge'; lia).
    split_and!; [|simpl; lia|done..].
    apply (type_class_init_built _ _ _ T); [done | by rewrite Hc]. }
  destruct Hb as (Hsz & Hent & Hb').
  set (size := if decide (ti_class_size T = 0) then esize s (rev chain)
               else ti_class_size T) in *.
  assert (type_class_get_size (S fuel) t s = Ok size) as Hgs.
  { rewrite (type_class_get_size_esize _ _ _ _ _ HT Hchain). cbn [esize]. by rewrite HT. }
  rewrite (type_class_init_unbuilt _ _ _ _ _ HT Hc Hgs Hge).
  set (n := length (st_classes s)) in *.
  assert (0 ≤ size < 2 ^ 64) as Hrange by (unfold sizeof_ObjectClass in *; lia).
  destruct (class_allocated_frame None t size s T Hwf HT Hc Hrange) as (Hwf0 & Hrel0).
  pose proof (classes_sized_class_allocated t size s T Hs HT Hge) as Hs0.
  pose proof (class_allocated_lookup t size s T HT) as HT0.
  set (s0 := class_allocated t size s) in *.
  set (T1 := with_class (Some n) (with_class_size size T)) in *.
  pose proof (parent_chain_not_in _ _ _ _ _ HT Hchain) as Hnin.
  assert (∀ u, u ∈ rev chain → st_types s0 !! u = st_types s !! u) as Hsame.
  { intros u Hu. unfold s0, class_allocated. rewrite upd_type_lookup.
    rewrite decide_False by (intros <-; apply Hnin; by apply elem_of_rev).
    st_simpl. rewrite list_lookup_alter_ne; [done|].
    intros <-. apply Hnin. by apply elem_of_rev. }
  destruct (esize_ext s s0 (rev chain) Hsame) as (He0 & Hb0 & Hp0).
  assert (st_classes s0 !! n
          = Some {| oc_type := t;
                    oc_tail := replicate (Z.to_nat (size - sizeof_ObjectClass)) x00 |})
    as Hk0.
  { unfold s0. rewrite class_allocated_classes. by rewrite lookup_app_r, Nat.sub_diag. }
  (* the inherited part *)
  assert (∃ r k,
    type_class_init_inherit (S fuel) t n (ti_parent T) s0 = Ok r ∧
    wf_state (snd r) ∧ st_types (snd r) !! t = Some T1 ∧
    st_classes (snd r) !! n = Some k ∧
    Z.of_nat (length (oc_tail k)) = size - sizeof_ObjectClass ∧
    sizeof_ObjectClass ≤ fst r ≤ size ∧
    parent_chain (S fuel) (ti_parent T) (snd r) = Some chain ∧
    st_count (snd r) = st_count s + Z.of_nat (pending s (rev chain)))
    as ([cs s1'] & k & -> & Hwf1' & HT1' & Hk1' & Hlen1' & Hcs & Hchain1' & Hcount1').
  { apply parent_chain_parent in Hchain as Hpar.
    unfold type_class_init_inherit. destruct (ti_parent T) as [pn|] eqn:Hp.
    - destruct Hpar as (fuel' & p & P & l & [= <-] & Hlook & HP & Hl & ->).
      rewrite rev_unit in *.
      assert (type_get_by_name (Some pn) s0 = Some p) as -> by exact Hlook.
      cbn [nonnull bind].
      assert (st_types s0 !! p = Some P) as HP0.
      { rewrite Hsame; [done|]. apply elem_of_cons. by left. }
      destruct (IH p s0 P l Hwf0 Hs0 HP0) as (s1 & P1 & pc & Hbuild & Hcount1 & HP1 & Hpc & HszP).
      { exact (parent_chain_mono _ _ _ _ _ _ _ Hrel0 Hl). }
      { by apply Hb0. }
      { rewrite Hp0. change (st_count s0) with (st_count s). lia. }
      rewrite Hbuild. cbn [bind].
      destruct (type_class_init_frame _ _ _ _ Hwf0 Hbuild) as (Hwf1 & Hrel1).
      pose proof (type_class_init_sized _ _ _ _ Hwf0 Hs0 Hbuild) as Hs1.
      pose proof (br_frozen _ _ _ _ Hrel1 _ _ ltac:(done) HT0 ltac:(simpl; eauto)) as HT1.
      unfold get_type. rewrite HP1. cbn [nonnull bind]. rewrite HT1. cbn [nonnull bind].
      rewrite HszP, He0.
      cbn [ti_class_size with_class with_class_size].
      rewrite bool_decide_eq_true_2 by lia. cbn [g_assert bind].
      rewrite Hpc. cbn [nonnull bind].
      destruct (Hs1 _ _ _ HP1 Hpc) as (HgeP & pk & Hpk & Hlenpk).
      unfold get_class. rewrite Hpk. cbn [nonnull bind].
      assert (st_classes s1 !! n = st_classes s0 !! n) as Hn1.
      { apply (br_classes _ _ _ _ Hrel1). unfold s0. rewrite class_allocated_classes.
        rewrite length_app. simpl. lia. }
      rewrite Hn1, Hk0. cbn [nonnull bind oc_tail].
      rewrite HszP, He0 in HgeP, Hlenpk.
      set (ep := esize s (p :: rev l)) in *.
      assert (size_t_sub ep sizeof_ObjectClass = ep - sizeof_ObjectClass) as ->
        by (apply size_t_sub_le; unfold sizeof_ObjectClass in *; lia).
      unfold memcpy_tail. rewrite decide_True by (rewrite length_replicate; lia).
      eexists (_, _), _. split; [done|]. cbn [fst snd].
      split_and!.
      + by apply wf_state_upd_class.
      + done.
      + simpl. rewrite list_lookup_alter_eq, Hn1, Hk0. done.
      + simpl. rewrite length_app, length_take, length_drop, length_replicate. lia.
      + lia.
      + lia.
      + rewrite (parent_chain_ext _ s1 (upd_class _ _ s1)) by done.
        eapply parent_chain_mono; [exact Hrel1|].
        eapply parent_chain_mono; [exact Hrel0|]. exact Hchain.
      + simpl. rewrite Hcount1, Hp0. done.
    - subst chain. eexists (_, _), _. split; [done|]. cbn [fst snd].
      split_and!; try done.
      + simpl. rewrite length_replicate. lia.
      + change (st_count s0) with (st_count s). simpl. lia. }
  cbn [bind fst snd] in *.
  assert (ti_class_size T1 = size) as HszT1 by done.
  assert (ti_num_interfaces T1 = ti_num_interfaces T) as HnT1 by done.
  destruct (type_class_init_finish_Ok (S fuel) t T1 n cs k s1' chain)
    as (s' & T' & Hfin & Hcount' & HT' & Hc' & Hs');
    [done | done | done | done | by rewrite HszT1 | by rewrite HszT1 | rewrite HszT1; lia
    | done | by rewrite HnT1 | rewrite HnT1, Hcount1'; lia |].
  exists s', T', n. split; [done|].
  split_and!; [| done | done | by rewrite Hs'].
  rewrite Hcount', Hcount1', HnT1. lia.
Qed.

Lemma classes_sized_unbuilt s :
  Forall (fun U => ti_class U = None) (st_types s) → classes_sized s.
Proof.
  intros H u U c HU Hc. rewrite Forall_lookup in H.
  specialize (H _ _ HU). congruence.
Qed.

(** X23.  The class build returns.  In a well-formed registry whose class
    objects have the sizes of their types, let the ancestors of a type be
    registered and let every type from it up to the first one with a class
    resolve to a class size that is at least the one of its parent, and
    count no more interface entries than its array holds.  Then, with room
    in the counter of anonymous names for these entries, [type_class_init]
    returns: the type has a class of the size that [type_class_get_size]
    resolves, the counter has advanced by one for each interface entry of
    each type built, and the registry is again well formed with class
    objects of the sizes of their types. *)
Theorem type_class_init_returns fuel t s T chain :
  wf_state s → classes_sized s → st_types s !! t = Some T →
  parent_chain fuel (ti_parent T) s = Some chain →
  buildable s (t :: rev chain) →
  st_count s + Z.of_nat (pending s (t :: rev chain)) ≤ INT_MAX →
  ∃ s' T' c,
    type_class_init (S fuel) t s = Ok s' ∧
    wf_state s' ∧ classes_sized s' ∧
    st_count s' = st_count s + Z.of_nat (pending s (t :: rev chain)) ∧
    st_types s' !! t = Some T' ∧ ti_class T' = Some c ∧
    ti_class_size T' = esize s (t :: rev chain).
Proof.
  intros Hwf Hs HT Hchain Hb Hcount.
  destruct (type_class_init_progress fuel t s T chain Hwf Hs HT Hchain Hb Hcount)
    as (s' & T' & c & Hbuild & Hc' & HT' & Hcl & Hsz).
  exists s', T', c. split_and!; try done.
  - by destruct (type_class_init_frame _ _ _ _ Hwf Hbuild).
  - by eapply type_class_init_sized.
Qed.

Lemma type_class_init_returns_witness :
  ∃ s' T' c,
    type_class_init 4 3 (from_ok chain_registry) = Ok s' ∧
    wf_state s' ∧ classes_sized s' ∧
    st_count s' = st_count (from_ok chain_registry)
                  + Z.of_nat (pending (from_ok chain_registry) (3 :: rev [1; 2]))%nat ∧
    st_types s' !! 3%nat = Some T' ∧ ti_class T' = Some c ∧
    ti_class_size T' = esize (from_ok chain_registry) (3 :: rev [1; 2])%nat.
Proof.
  apply (type_class_init_returns 3 3 (from_ok chain_registry)
           (registered_type "Leaf" Leaf_info) [1; 2]%nat).
  - exact wf_chain_registry.
  - apply classes_sized_unbuilt. vm_compute. repeat constructor.
  - vm_compute. reflexivity.
  - vm_compute. reflexivity.
  - vm_compute. repeat split; try (intros ?; discriminate); try reflexivity;
      repeat constructor.
  - vm_compute. intros ?; discriminate.
Defined.

(** X24.  [type_class_get_size] resolves the class size of a type whose
    ancestors are registered to the first class_size that is not zero among
    the type and its ancestors, the type first and the root last, and to
    the size of the class header when all of them are zero. *)
Theorem type_class_get_size_first_nonzero fuel t T s chain :
  st_types s !! t = Some T → parent_chain fuel (ti_parent T) s = Some chain →
  type_class_get_size fuel t s = Ok (esize s (t :: rev chain)).
Proof. apply type_class_get_size_esize. Qed.

Lemma type_class_get_size_first_nonzero_witness :
  type_class_get_size 2 2 (from_ok chain_registry)
  = Ok (esize (from_ok chain_registry) (2 :: rev [1])%nat) ∧
  esize (from_ok chain_registry) (2 :: rev [1])%nat = 16.
Proof.
  split; [|reflexivity].
  apply (type_class_get_size_first_nonzero 2 2 (registered_type "Mid" Mid_info)
           (from_ok chain_registry) [1]%nat).
  - vm_compute. reflexivity.
  - vm_compute. reflexivity.
Defined.
(** ** Instances of types without interface declarations are always served *)

Lemma pending_no_interfaces s up :
  (∀ u U, u ∈ up → st_types s !! u = Some U → ti_num_interfaces U = 0%nat) →
  pending s up = 0%nat.
Proof.
  induction up as [|u up IH]; intros H; [done|]. simpl.
  destruct (st_types s !! u) as [U|] eqn:HU; [|done].
  destruct (ti_class U); [done|].
  rewrite (H u U), IH; [done | | by apply elem_of_cons; left | done].
  intros v V Hv. apply H. apply elem_of_cons. by right.
Qed.

Lemma object_init_chain fuel obj : ∀ name s chain,
  name ≠ None → parent_chain fuel name s = Some chain →
  (∀ u U, u ∈ chain → st_types s !! u = Some U → ti_num_interfaces U = 0%nat) →
  object_init fuel obj name s = Ok (add_events (chain_init_events s obj chain) s).
Proof.
  induction fuel as [|fuel IH]; intros name s chain Hname H Hn; [done|].
  destruct name as [nm|]; [|done].
  rewrite parent_chain_S in H. simpl in H.
  destruct (type_table_lookup nm s) as [t|] eqn:Ht; [|done]. simpl in H.
  destruct (st_types s !! t) as [T|] eqn:HT; [|done]. simpl in H.
  destruct (parent_chain fuel (ti_parent T) s) as [l|] eqn:Hl; [|done].
  injection H as <-. rewrite object_init_S.
  assert (type_get_by_name (Some nm) s = Some t) as -> by exact Ht.
  cbn [nonnull bind]. unfold get_type at 1. rewrite HT. cbn [nonnull bind].
  assert (match ti_parent T with
          | Some _ => object_init fuel obj (ti_parent T) s
          | None => Ok s
          end = Ok (add_events (chain_init_events s obj l) s)) as ->.
  { destruct (ti_parent T) as [pn|] eqn:Hp.
    - apply IH; [done | done |]. intros u U Hu. apply Hn, elem_of_app. by left.
    - destruct fuel; [done|]. injection Hl as <-. by rewrite add_events_nil. }
  cbn [bind]. unfold get_type.
  change (st_types (add_events ?ev s)) with (st_types s).
  rewrite HT. cbn [nonnull bind].
  rewrite (Hn t T) by (by rewrite ?elem_of_app, ?list_elem_of_singleton; eauto).
  cbn [for_loop bind].
  change (st_types (add_events ?ev s)) with (st_types s).
  rewrite HT. cbn [nonnull bind].
  unfold chain_init_events. rewrite bind_app. simpl. rewrite HT, app_nil_r.
  unfold init_events. destruct (ti_instance_init T).
  - by rewrite log_add_events, add_events_app.
  - by rewrite app_nil_r.
Qed.

Lemma chain_init_events_static s s' obj chain :
  (∀ u U, u ∈ chain → st_types s !! u = Some U →
          ∃ U', st_types s' !! u = Some U' ∧ static U' = static U) →
  (∀ u, u ∈ chain → is_Some (st_types s !! u)) →
  chain_init_events s' obj chain = chain_init_events s obj chain.
Proof.
  unfold chain_init_events. induction chain as [|u chain IH]; intros H Hreg; [done|].
  rewrite !bind_cons. rewrite IH;
    [| intros v V Hv; apply H, elem_of_cons; by right
     | intros v Hv; apply Hreg, elem_of_cons; by right].
  f_equal. destruct (Hreg u) as [U HU]; [apply elem_of_cons; by left|].
  destruct (H u U) as (U' & HU' & Hst); [apply elem_of_cons; by left | done|].
  rewrite HU, HU'. unfold init_events. by rewrite (static_instance_init _ _ Hst).
Qed.

Lemma chain_init_events_instance s obj chain :
  filter (fun e => event_instance e = Some obj) (chain_init_events s obj chain)
  = chain_init_events s obj chain.
Proof.
  unfold chain_init_events. induction chain as [|u chain IH]; [done|].
  rewrite !bind_cons, filter_app, IH. f_equal.
  destruct (st_types s !! u) as [U|]; [|done]. unfold init_events.
  destruct (ti_instance_init U); [|done]. by rewrite filter_cons_True.
Qed.

(** X25.  [object_new] returns for a type without interface declarations.
    In a well-formed registry whose class objects have the sizes of their
    types and whose counter of anonymous names is an int, let a registered
    type be not abstract with instances that hold the class pointer, let its ancestors be registered, let neither the
    type nor an ancestor count an interface entry, and let every class
    still to be built be at least as large as the class of its parent.
    Then [object_new] returns the next allocation, and for this instance
    exactly the instance_init hooks of the ancestors and of the type have
    run, the root first and the type last. *)
Theorem object_new_chain_returns fuel name s t T chain :
  wf_state s → classes_sized s → st_count s ≤ INT_MAX →
  type_get_by_name name s = Some t → st_types s !! t = Some T →
  parent_chain fuel (ti_parent T) s = Some chain →
  buildable s (t :: rev chain) →
  (∀ u U, u ∈ t :: rev chain → st_types s !! u = Some U → ti_num_interfaces U = 0%nat) →
  ti_abstract T = false → sizeof_ObjectClass ≤ ti_instance_size T →
  ∃ s', object_new (S (S (S fuel))) name s = Ok (length (st_objects s), s') ∧
        instance_events (length (st_objects s)) s'
        = instance_events (length (st_objects s)) s
          ++ chain_init_events s (length (st_objects s)) (chain ++ [t]).
Proof.
  intros Hwf Hs Hcount Ht HT Hchain Hb Hn Habs Hsz.
  assert (name ≠ None) as Hname by (intros ->; discriminate).
  rewrite object_new_S, Ht. cbn [nonnull bind]. unfold get_type at 1. rewrite HT.
  cbn [nonnull bind]. unfold g_malloc.
  set (o := length (st_objects s)).
  set (O0 := {| o_size := ti_instance_size T; o_class := None;
                o_interfaces := []; o_obj := None |}).
  set (s0 := set_objects (fun l => l ++ [Some O0]) s).
  assert (wf_state s0) as Hwf0 by by apply wf_state_set_objects.
  assert (classes_sized s0) as Hs0 by exact Hs.
  assert (st_types s0 !! t = Some T) as HT0 by done.
  assert (st_objects s0 !! o = Some (Some O0)) as HO0.
  { unfold s0, o. simpl. by rewrite lookup_app_r, Nat.sub_diag by done. }
  destruct (esize_ext s s0 (t :: rev chain)) as (_ & Hb0 & Hp0); [done|].
  assert (parent_chain fuel (ti_parent T) s0 = Some chain) as Hchain0
    by by rewrite (parent_chain_ext _ s s0).
  destruct (type_class_init_progress fuel t s0 T chain Hwf0 Hs0 HT0 Hchain0 (Hb0 Hb))
    as (s1 & T1' & c & Hbuild & _).
  { rewrite Hp0, (pending_no_interfaces s) by done.
    change (st_count s0) with (st_count s). lia. }
  destruct (type_class_init_frame _ _ _ _ Hwf0 Hbuild) as (Hwf1 & Hrel1).
  pose proof (type_class_init_objects _ _ _ _ Hbuild) as Hobj1.
  pose proof (type_class_init_instance_events o _ _ _ _ Hbuild) as Hev1.
  destruct (br_static _ _ _ _ Hrel1 _ _ HT0) as (T1 & HT1 & Hst1).
  rewrite object_initialize_S.
  change (type_get_by_name name s0) with (type_get_by_name name s). rewrite Ht.
  cbn [nonnull bind]. unfold get_type at 1. rewrite HT0. cbn [nonnull bind].
  rewrite bool_decide_eq_true_2 by done. cbn [g_assert bind].
  rewrite Hbuild. cbn [bind]. unfold get_type at 1. rewrite HT1. cbn [nonnull bind].
  rewrite (static_abstract _ _ Hst1), Habs. cbn [bool_decide decide_rel g_assert bind].
  rewrite bool_decide_eq_true_2 by done. cbn [g_assert bind].
  unfold memset_object, get_object. rewrite Hobj1, HO0.
  cbn [mjoin option_join nonnull bind].
  rewrite (static_instance_size _ _ Hst1).
  rewrite decide_True by (simpl; lia). cbn [bind].
  unfold set_obj_class, obj_class, get_object.
  rewrite upd_object_lookup, decide_True, Hobj1, HO0 by done.
  cbn [fmap option_fmap option_map mjoin option_join nonnull bind o_size].
  rewrite decide_True by (simpl; lia). cbn [bind].
  match goal with |- context [object_init _ _ _ ?st] => set (s3 := st) end.
  assert (parent_chain (S fuel) name s1 = Some (chain ++ [t])) as Hchain1.
  { apply (parent_chain_mono _ _ _ _ _ _ _ Hrel1).
    rewrite (parent_chain_ext _ s s0) by done.
    destruct name as [nm|]; [|done]. rewrite parent_chain_S, Ht.
    cbn [mbind option_bind]. rewrite HT. cbn [mbind option_bind].
    by rewrite Hchain. }
  assert (∀ u, u ∈ chain ++ [t] → is_Some (st_types s !! u)) as Hreg.
  { intros u Hu. apply elem_of_app in Hu as [Hu|Hu].
    - by eapply parent_chain_elem.
    - apply list_elem_of_singleton in Hu as ->. by eexists. }
  assert (∀ u U, u ∈ chain ++ [t] → st_types s !! u = Some U →
            ∃ U', st_types s1 !! u = Some U' ∧ static U' = static U) as Hstat.
  { intros u U _ HU. exact (br_static _ _ _ _ Hrel1 _ _ HU). }
  rewrite (object_init_chain _ o name s3 (chain ++ [t]) Hname).
  - cbn [bind]. eexists. split; [done|].
    rewrite instance_events_add.
    change (instance_events o s3) with (instance_events o s1).
    rewrite Hev1. change (instance_events o s0) with (instance_events o s).
    change (chain_init_events s3) with (chain_init_events s1).
    by rewrite (chain_init_events_static s s1), chain_init_events_instance.
  - by rewrite (parent_chain_ext _ s1 s3).
  - intros u U Hu HU. change (st_types s3) with (st_types s1) in HU.
    destruct (Hreg u Hu) as [U0 HU0].
    destruct (Hstat u U0 Hu HU0) as (U' & HU' & Hst).
    assert (U' = U) as -> by congruence.
    rewrite (static_num_interfaces _ _ Hst). apply (Hn u U0); [|done].
    apply elem_of_app in Hu as [Hu|Hu].
    + apply elem_of_cons. right. by apply elem_of_rev.
    + apply list_elem_of_singleton in Hu as ->. apply elem_of_cons. by left.
Qed.

Lemma object_new_chain_returns_witness :
  ∃ s', object_new 6 (Some "Leaf") (from_ok chain_registry)
        = Ok (length (st_objects (from_ok chain_registry)), s') ∧
        instance_events (length (st_objects (from_ok chain_registry))) s'
        = instance_events (length (st_objects (from_ok chain_registry)))
            (from_ok chain_registry)
          ++ chain_init_events (from_ok chain_registry)
               (length (st_objects (from_ok chain_registry))) ([1; 2] ++ [3])%nat.
Proof.
  apply (object_new_chain_returns 3 (Some "Leaf") (from_ok chain_registry) 3
           (registered_type "Leaf" Leaf_info) [1; 2]%nat).
  - exact wf_chain_registry.
  - apply classes_sized_unbuilt. vm_compute. repeat constructor.
  - vm_compute. intros ?; discriminate.
  - vm_compute. reflexivity.
  - vm_compute. reflexivity.
  - vm_compute. reflexivity.
  - vm_compute. repeat split; try (intros ?; discriminate); try reflexivity;
      repeat constructor.
  - intros u U Hu HU.
    apply elem_of_cons in Hu as [->|Hu];
      [|apply elem_of_cons in Hu as [->|Hu];
        [|apply elem_of_cons in Hu as [->|Hu]; [|by apply elem_of_nil in Hu]]];
      vm_compute in HU; injection HU as <-; reflexivity.
  - reflexivity.
  - vm_compute. discriminate.
Defined.

(** * Properties of the PCI back end *)

(** ** The configuration address word *)

Lemma lor_disjoint x y k :
  0 ≤ k → 0 ≤ y < 2 ^ k → x mod 2 ^ k = 0 → Z.lor x y = x + y.
Proof.
  intros Hk Hy Hx. pose proof (Z.add_lor_land x y) as H.
  assert (Z.land x y = 0) as H0; [|lia].
  rewrite <- (Z.mod_small y (2 ^ k)) by done.
  rewrite <- (Z.land_ones y k) by done.
  rewrite (Z.land_comm y), Z.land_assoc, (Z.land_ones x k), Hx by done.
  apply Z.land_0_l.
Qed.

Lemma config_address_sum devfn offset :
  0 ≤ devfn < 2 ^ 23 → 0 ≤ offset < 2 ^ 8 →
  config_address devfn offset = Ok (2 ^ 31 + devfn * 2 ^ 8 + offset).
Proof.
  intros Hd Ho. unfold config_address.
  rewrite !Z.shiftl_mul_pow2 by lia. rewrite Z.mul_1_l.
  rewrite decide_True by (unfold INT_MAX; lia). f_equal.
  rewrite <- Z.lor_assoc.
  rewrite (lor_disjoint (devfn * 2 ^ 8) offset 8); [|lia | lia |].
  - rewrite (lor_disjoint (2 ^ 31) _ 31); [lia | lia | lia | done].
  - by rewrite Z.mod_mul.
Qed.

(** For a device and function number of up to 23 bits and an offset of
    one byte, the word selects exactly them: it fits in 32 bits, its
    enable bit is set, and its fields are the numbers given, so that two
    accesses write the same word only for the same device, function and
    offset. *)
Theorem config_address_decode devfn offset :
  0 ≤ devfn < 2 ^ 23 → 0 ≤ offset < 2 ^ 8 →
  ∃ a, config_address devfn offset = Ok a ∧ 0 ≤ a < 2 ^ 32 ∧
       config_enable a = true ∧ config_devfn a = devfn ∧ config_offset a = offset.
Proof.
  intros Hd Ho. eexists. split; [by apply config_address_sum|].
  set (a := 2 ^ 31 + devfn * 2 ^ 8 + offset).
  assert (a / 2 ^ 8 = 2 ^ 23 + devfn) as Hdiv8.
  { symmetry. apply (Z.div_unique a (2 ^ 8) _ offset); unfold a; lia. }
  split_and!.
  - unfold a. lia.
  - unfold a. lia.
  - unfold config_enable. apply Z.testbit_true; [lia|].
    replace (a / 2 ^ 31) with 1; [done|].
    apply (Z.div_unique a (2 ^ 31) 1 (devfn * 2 ^ 8 + offset)); unfold a; lia.
  - unfold config_devfn. rewrite Z.shiftr_div_pow2, Hdiv8 by lia.
    change (2 ^ 23 - 1) with (Z.ones 23). rewrite Z.land_ones by lia.
    symmetry. apply (Z.mod_unique _ _ 1); lia.
  - unfold config_offset. change 255 with (Z.ones 8). rewrite Z.land_ones by lia.
    symmetry. apply (Z.mod_unique _ _ (2 ^ 23 + devfn)); unfold a; lia.
Qed.

Lemma config_address_decode_witness :
  ∃ a, config_address 24 0x10 = Ok a ∧ 0 ≤ a < 2 ^ 32 ∧
       config_enable a = true ∧ config_devfn a = 24 ∧ config_offset a = 0x10.
Proof. apply (config_address_decode 24 0x10); lia. Defined.

(** ** The BAR allocator *)

Lemma qpci_init_pc_ok : bus_ok qpci_init_pc.
Proof. split; simpl; lia. Qed.

Section iomap_properties.
Variable ffz : Z → Z.
Variable PCI_BASE_ADDRESS : nat → Z.
Variable PCI_BASE_ADDRESS_SPACE_IO : Z.

Local Abbreviation iomap := (qpci_pc_iomap ffz PCI_BASE_ADDRESS PCI_BASE_ADDRESS_SPACE_IO).
Local Abbreviation iomap_all :=
  (qpci_pc_iomap_all ffz PCI_BASE_ADDRESS PCI_BASE_ADDRESS_SPACE_IO).

Lemma qpci_pc_iomap_Ok s barno addr loc s' writes :
  bus_ok s → iomap s barno addr = Ok (loc, s', writes) →
  0 ≤ barno ≤ 5 ∧ 0 < 2 ^ ffz addr ∧ bus_ok s' ∧
  ((Z.land addr PCI_BASE_ADDRESS_SPACE_IO ≠ 0 ∧
    loc = pci_iohole_start s + pci_iohole_alloc s ∧
    pci_iohole_alloc s' = pci_iohole_alloc s + 2 ^ ffz addr ∧
    pci_hole_alloc s' = pci_hole_alloc s) ∨
   (Z.land addr PCI_BASE_ADDRESS_SPACE_IO = 0 ∧
    loc = pci_hole_start s + pci_hole_alloc s ∧
    pci_hole_alloc s' = pci_hole_alloc s + 2 ^ ffz addr ∧
    pci_iohole_alloc s' = pci_iohole_alloc s)).
Proof.
  intros [HS HZ HA IS IZ IA] H. unfold qpci_pc_iomap in H.
  apply bind_Ok in H as (? & Hbar & H). apply g_assert_Ok in Hbar.
  apply bool_decide_eq_true in Hbar.
  apply bind_Ok in H as (bar_reg & _ & H). apply bind_Ok in H as (size & Hsize & H).
  destruct (decide (0 ≤ ffz addr < 64)) as [Hffz|]; [|done]. injection Hsize as <-.
  assert (0 < 2 ^ ffz addr ≤ 2 ^ 63) as Hpow.
  { split; [apply Z.pow_pos_nonneg; lia | apply Z.pow_le_mono_r; lia]. }
  rewrite (Z.mod_small (2 ^ ffz addr)) in H by lia.
  rewrite decide_False in H by lia.
  split; [done|]. split; [lia|].
  destruct (decide (Z.land addr PCI_BASE_ADDRESS_SPACE_IO ≠ 0)) as [Hio|Hio].
  - apply bind_Ok in H as (? & Hfit & H). apply g_assert_Ok in Hfit.
    apply bool_decide_eq_true in Hfit. rewrite Z.mod_small in Hfit by lia.
    injection H as <- <- _. rewrite !Z.mod_small by lia.
    split; [split; simpl; lia|]. left. simpl. done.
  - apply bind_Ok in H as (? & Hfit & H). apply g_assert_Ok in Hfit.
    apply bool_decide_eq_true in Hfit. rewrite Z.mod_small in Hfit by lia.
    injection H as <- <- _. rewrite !Z.mod_small by lia.
    split; [split; simpl; lia|]. right. simpl. split; [|done].
    by destruct (decide (Z.land addr PCI_BASE_ADDRESS_SPACE_IO = 0)).
Qed.

(** On a bus object made by [qpci_init_pc], a mapping that returns (it
    aborts when the window is used up) never returns NULL.  It hands out
    the region that starts at the allocation mark of the window chosen by
    the I/O flag of the answer of the device, a power of two in size, and
    advances that mark by the size; the region lies within the window.
    Every address of an I/O region is then accessed through the port
    instructions, every address of a memory region through memory reads
    and writes. *)
Theorem qpci_pc_iomap_window s barno addr loc s' writes :
  bus_ok s → iomap s barno addr = Ok (loc, s', writes) →
  bus_ok s' ∧ loc ≠ 0 ∧ 0 < 2 ^ ffz addr ∧
  if decide (Z.land addr PCI_BASE_ADDRESS_SPACE_IO ≠ 0) then
    loc = 0xc000 + pci_iohole_alloc s ∧
    pci_iohole_alloc s' = pci_iohole_alloc s + 2 ^ ffz addr ∧
    pci_hole_alloc s' = pci_hole_alloc s ∧
    loc + 2 ^ ffz addr ≤ 0x10000 ∧
    ∀ a v, loc ≤ a < loc + 2 ^ ffz addr →
      qpci_pc_io_readb a = Inb a ∧ qpci_pc_io_readw a = Inw a ∧
      qpci_pc_io_readl a = Inl a ∧ qpci_pc_io_writeb a v = Outb a v ∧
      qpci_pc_io_writew a v = Outw a v ∧ qpci_pc_io_writel a v = Outl a v
  else
    loc = 0xE0000000 + pci_hole_alloc s ∧
    pci_hole_alloc s' = pci_hole_alloc s + 2 ^ ffz addr ∧
    pci_iohole_alloc s' = pci_iohole_alloc s ∧
    loc + 2 ^ ffz addr ≤ 2 ^ 32 ∧
    ∀ a v, loc ≤ a < loc + 2 ^ ffz addr →
      qpci_pc_io_readb a = Memread a 1 ∧ qpci_pc_io_readw a = Memread a 2 ∧
      qpci_pc_io_readl a = Memread a 4 ∧ qpci_pc_io_writeb a v = Memwrite a 1 v ∧
      qpci_pc_io_writew a v = Memwrite a 2 v ∧ qpci_pc_io_writel a v = Memwrite a 4 v.
Proof.
  intros Hok H.
  destruct (qpci_pc_iomap_Ok _ _ _ _ _ _ Hok H) as (_ & Hpos & Hok' & Hcase).
  destruct Hok as [HS HZ HA IS IZ IA]. destruct Hok' as [HS' HZ' HA' IS' IZ' IA'].
  split; [by split|].
  destruct Hcase as [(Hio & -> & Hal & Hal')|(Hio & -> & Hal & Hal')].
  - rewrite decide_True by done. split_and!; try lia.
    intros a v Ha.
    unfold qpci_pc_io_readb, qpci_pc_io_readw, qpci_pc_io_readl,
      qpci_pc_io_writeb, qpci_pc_io_writew, qpci_pc_io_writel.
    rewrite !decide_True by lia. done.
  - rewrite decide_False by (intros ?; done). split_and!; try lia.
    intros a v Ha.
    unfold qpci_pc_io_readb, qpci_pc_io_readw, qpci_pc_io_readl,
      qpci_pc_io_writeb, qpci_pc_io_writew, qpci_pc_io_writel.
    rewrite !decide_False by lia. done.
Qed.

Lemma qpci_pc_iomap_all_above : ∀ reqs s rs s',
  bus_ok s → iomap_all reqs s = Ok (rs, s') →
  bus_ok s' ∧
  pci_iohole_alloc s ≤ pci_iohole_alloc s' ∧ pci_hole_alloc s ≤ pci_hole_alloc s' ∧
  Forall (region_above (pci_iohole_alloc s) (pci_hole_alloc s)) rs ∧
  regions_disjoint rs.
Proof.
  induction reqs as [|[barno addr] reqs IH]; intros s rs s' Hok H; simpl in H.
  - injection H as <- <-. split_and!; [done | lia | lia | constructor | constructor].
  - apply bind_Ok in H as ([[loc s1] writes] & H1 & H).
    apply bind_Ok in H as ([rs1 s2] & H2 & H). injection H as <- <-. simpl in *.
    destruct (qpci_pc_iomap_Ok _ _ _ _ _ _ Hok H1) as (_ & Hpos & Hok1 & Hcase).
    destruct (IH _ _ _ Hok1 H2) as (Hok2 & Hio & Hmem & Habove & Hdis).
    destruct Hok as [HS HZ HA IS IZ IA]. destruct Hok1 as [HS1 HZ1 HA1 IS1 IZ1 IA1].
    assert (region_above (pci_iohole_alloc s) (pci_hole_alloc s) (loc, 2 ^ ffz addr)
            ∧ Forall (region_disjoint (loc, 2 ^ ffz addr)) rs1
            ∧ pci_iohole_alloc s ≤ pci_iohole_alloc s1
            ∧ pci_hole_alloc s ≤ pci_hole_alloc s1) as (Hhead & Hsep & Hio1 & Hmem1).
    { destruct Hcase as [(_ & -> & Hal & Hal')|(_ & -> & Hal & Hal')].
      - split_and!; [split; simpl; [lia|left; lia] | | lia | lia].
        eapply Forall_impl; [exact Habove|].
        intros [l z] [Hz [Hr|Hr]]; unfold region_disjoint; simpl in *; lia.
      - split_and!; [split; simpl; [lia|right; lia] | | lia | lia].
        eapply Forall_impl; [exact Habove|].
        intros [l z] [Hz [Hr|Hr]]; unfold region_disjoint; simpl in *; lia. }
    split_and!; [done | lia | lia | | by constructor].
    constructor; [done|].
    eapply Forall_impl; [exact Habove|].
    intros [l z] [Hz [Hr|Hr]]; split; simpl in *; [lia | left; lia | lia | right; lia].
Qed.

(** The regions that successive mappings return on a bus object made by
    [qpci_init_pc] never overlap, whatever the devices answer, and each
    lies in the I/O window or in the memory window. *)
Theorem qpci_pc_iomap_all_disjoint reqs s rs s' :
  bus_ok s → iomap_all reqs s = Ok (rs, s') →
  regions_disjoint rs ∧ Forall (region_above 0 0) rs ∧ bus_ok s'.
Proof.
  intros Hok H.
  destruct (qpci_pc_iomap_all_above _ _ _ _ Hok H) as (Hok' & _ & _ & Habove & Hdis).
  split_and!; [done | | done].
  destruct Hok as [HS HZ HA IS IZ IA].
  eapply Forall_impl; [exact Habove|].
  intros [l z] [Hz [Hr|Hr]]; split; simpl in *; [lia | left; lia | lia | right; lia].
Qed.
End iomap_properties.

Lemma qpci_pc_iomap_window_witness :
  bus_ok bus_after_io_bar ∧ 0xc000 ≠ 0 ∧ 0 < 2 ^ ffz64 0xFFFFFF01 ∧
  if decide (Z.land 0xFFFFFF01 1 ≠ 0) then
    0xc000 = 0xc000 + pci_iohole_alloc qpci_init_pc ∧
    pci_iohole_alloc bus_after_io_bar
      = pci_iohole_alloc qpci_init_pc + 2 ^ ffz64 0xFFFFFF01 ∧
    pci_hole_alloc bus_after_io_bar = pci_hole_alloc qpci_init_pc ∧
    0xc000 + 2 ^ ffz64 0xFFFFFF01 ≤ 0x10000 ∧
    ∀ a v, 0xc000 ≤ a < 0xc000 + 2 ^ ffz64 0xFFFFFF01 →
      qpci_pc_io_readb a = Inb a ∧ qpci_pc_io_readw a = Inw a ∧
      qpci_pc_io_readl a = Inl a ∧ qpci_pc_io_writeb a v = Outb a v ∧
      qpci_pc_io_writew a v = Outw a v ∧ qpci_pc_io_writel a v = Outl a v
  else
    0xc000 = 0xE0000000 + pci_hole_alloc qpci_init_pc ∧
    pci_hole_alloc bus_after_io_bar
      = pci_hole_alloc qpci_init_pc + 2 ^ ffz64 0xFFFFFF01 ∧
    pci_iohole_alloc bus_after_io_bar = pci_iohole_alloc qpci_init_pc ∧
    0xc000 + 2 ^ ffz64 0xFFFFFF01 ≤ 2 ^ 32 ∧
    ∀ a v, 0xc000 ≤ a < 0xc000 + 2 ^ ffz64 0xFFFFFF01 →
      qpci_pc_io_readb a = Memread a 1 ∧ qpci_pc_io_readw a = Memread a 2 ∧
      qpci_pc_io_readl a = Memread a 4 ∧ qpci_pc_io_writeb a v = Memwrite a 1 v ∧
      qpci_pc_io_writew a v = Memwrite a 2 v ∧ qpci_pc_io_writel a v = Memwrite a 4 v.
Proof.
  apply (qpci_pc_iomap_window ffz64 bar_offset 1 qpci_init_pc 0 0xFFFFFF01 0xc000
           bus_after_io_bar
           [{| cw_reg := 0x10; cw_value := 0xFFFFFFFF |};
            {| cw_reg := 0x10; cw_value := 0xc001 |}]).
  - split; simpl; lia.
  - vm_compute. reflexivity.
Defined.

Lemma qpci_pc_iomap_all_disjoint_witness :
  regions_disjoint [(0xc000, 2); (0xE0000000, 1); (0xc002, 2)] ∧
  Forall (region_above 0 0) [(0xc000, 2); (0xE0000000, 1); (0xc002, 2)] ∧
  bus_ok {| pci_hole_start := 0xE0000000; pci_hole_size := 0x20000000;
            pci_hole_alloc := 1;
            pci_iohole_start := 0xc000; pci_iohole_size := 0x4000;
            pci_iohole_alloc := 4 |}.
Proof.
  apply (qpci_pc_iomap_all_disjoint ffz64 bar_offset 1
           [(0, 0xFFFFFF01); (1, 0xFFFFFFF0); (2, 0xFFFFFF01)] qpci_init_pc).
  - split; simpl; lia.
  - vm_compute. reflexivity.
Defined.
